(** * A walk-forward backtester: shallow embedding and verified properties

    Embedding of [hft/backtester.py].  Tables (pandas data frames) are lists
    of row records in row order, each row carrying its index label; dates
    are day numbers and integer columns are [Z]; float columns that the
    pipeline never leaves empty (quotes, alpha) are exact rationals [Q], so
    rounding is not modelled; float cells that can be missing (feature and
    response columns, joined close attributes, statistics) are [option Q],
    with [None] for NaN.  Python exceptions are an explicit error monad. *)

From Stdlib Require Import Bool Ascii String DecimalString List ZArith QArith Qabs Lia Sorted.
Import ListNotations.

Local Open Scope Z_scope.

(** ** Exceptions *)

Inductive exn : Type :=
| ValueError
| KeyError
| IndexError
| LinAlgError
| ZeroDivisionError.

Inductive Result (A : Type) : Type :=
| Ok (a : A)
| Raise (e : exn).

Arguments Ok {A} a.
Arguments Raise {A} e.

Definition bind {A B : Type} (m : Result A) (k : A -> Result B) : Result B :=
  match m with
  | Ok a => k a
  | Raise e => Raise e
  end.

Notation "x <- m ;; k" := (bind m (fun x => k))
  (at level 61, m at next level, right associativity).
Notation "' p <- m ;; k" := (bind m (fun x => match x with p => k end))
  (at level 61, p pattern, m at next level, right associativity).

Fixpoint mapM {A B : Type} (f : A -> Result B) (l : list A) : Result (list B) :=
  match l with
  | [] => Ok []
  | a :: l' => b <- f a ;; bs <- mapM f l' ;; Ok (b :: bs)
  end.

(** ** Nullable floats: [None] is NaN and propagates through arithmetic *)

Definition oQ : Type := option Q.

Definition lift2 (f : Q -> Q -> Q) (a b : oQ) : oQ :=
  match a, b with
  | Some x, Some y => Some (f x y)
  | _, _ => None
  end.

Definition oadd : oQ -> oQ -> oQ := lift2 Qplus.
Definition osub : oQ -> oQ -> oQ := lift2 Qminus.
Definition omul : oQ -> oQ -> oQ := lift2 Qmult.

(** Float division: a zero divisor gives a non-finite value. *)
Definition odiv (a b : oQ) : oQ :=
  match a, b with
  | Some x, Some y => if Qeq_bool y 0 then None else Some (x / y)%Q
  | _, _ => None
  end.

(** Comparisons with NaN are false. *)
Definition ogtb (a : oQ) (c : Q) : bool :=
  match a with Some x => negb (Qle_bool x c) | None => false end.
Definition oltb (a : oQ) (c : Q) : bool :=
  match a with Some x => negb (Qle_bool c x) | None => false end.

Definition Qgtb (x y : Q) : bool := negb (Qle_bool x y).
Definition Qltb (x y : Q) : bool := negb (Qle_bool y x).

(** Equality of nullable rationals as numbers. *)
Definition oQeq (a b : oQ) : Prop :=
  match a, b with
  | Some x, Some y => (x == y)%Q
  | None, None => True
  | _, _ => False
  end.

(** A boolean used as a number, as in [(btdf.trade > 0) * btdf.s1]. *)
Definition b2q (b : bool) : Q := if b then 1%Q else 0%Q.

(** ** Data model *)

(** One row of the price table [px]: the index label, the descriptive
    columns that [backtest] carries over, and the named feature and response
    columns (which may hold NaN). *)
Record Tick : Type := mkTick {
  idx : Z;
  dt : Z;
  date : Z;
  time : Z;
  price : Q;
  qty : Q;
  volume : Q;
  open_interest : Q;
  b1 : Q;
  b1_size : Q;
  s1 : Q;
  s1_size : Q;
  mid : Q;
  second : Z;
  cols : list (string * oQ)
}.

(** The configuration dictionary. *)
Record Config : Type := mkConfig {
  response_column : string;
  feature_column : list string;
  feature_freq : list Z;
  feature_winsorize_prob : list (string * Q);
  feature_winsorize_bound : list (string * Q);
  response_winsorize_prob : Q;
  response_winsorize_bound : Q;
  training_period : Z;
  holding_period : Z;
  trade_trigger_threshold : Q * Q;
  start_second : Z;
  end_second : Z;
  use_mid : bool;
  dynamic_unwinding : bool;
  unwinding_tick_move_upper_bound : Q;
  unwinding_tick_move_lower_bound : Q;
  tick_size : Q;
  transaction_fee : Q
}.

(** A row of the backtest table: a tick with its predicted alpha. *)
Record BtRow : Type := mkBtRow {
  tick : Tick;
  alpha : Q
}.

(** A row after [trade]: the backtest row with its trade signal. *)
Record TradeRow : Type := mkTradeRow {
  bt : BtRow;
  trade_ : Z
}.

Definition t_tick (r : TradeRow) : Tick := tick (bt r).
Definition t_date (r : TradeRow) : Z := date (t_tick r).
Definition t_second (r : TradeRow) : Z := second (t_tick r).
Definition t_idx (r : TradeRow) : Z := idx (t_tick r).
Definition t_mid (r : TradeRow) : Q := mid (t_tick r).

(** ** Trade decision engine *)

(** [trade]: four masked assignments in sequence on a column first set to 0. *)
Definition trade_signal (config : Config) (r : BtRow) : Z :=
  let t0 := 0 in
  let t1 := if Qgtb (alpha r) (snd (trade_trigger_threshold config)) then 1 else t0 in
  let t2 := if Qltb (alpha r) (fst (trade_trigger_threshold config)) then -1 else t1 in
  let t3 := if end_second config <? second (tick r) then 0 else t2 in
  let t4 := if second (tick r) <? start_second config then 0 else t3 in
  t4.

(** The intraday second lies in [start_second, end_second]. *)
Definition in_window (config : Config) (r : BtRow) : Prop :=
  start_second config <= second (tick r) <= end_second config.

Definition trade (btdf : list BtRow) (config : Config) : list TradeRow :=
  map (fun r => mkTradeRow r (trade_signal config r)) btdf.

(** ** Dates of a table *)

(** [dates = list(set(column)); dates.sort()]: the distinct values in
    ascending order. *)
Fixpoint insert_uniq (d : Z) (l : list Z) : list Z :=
  match l with
  | [] => [d]
  | x :: l' =>
      if d <? x then d :: l
      else if d =? x then l
      else x :: insert_uniq d l'
  end.

Definition sorted_set (ds : list Z) : list Z := fold_right insert_uniq [] ds.

(** [btdf[btdf.date == date]] *)
Definition rows_on (d : Z) (btdf : list TradeRow) : list TradeRow :=
  filter (fun r => t_date r =? d) btdf.

(** A table whose rows are in ascending order of [key]. *)
Definition key_sorted {A : Type} (key : A -> Z) (l : list A) : Prop :=
  StronglySorted (fun a b => key a <= key b) l.

(** The order of the tick table: by date, and by second within a date. *)
Definition row_le (a b : TradeRow) : Prop :=
  t_date a < t_date b \/ (t_date a = t_date b /\ t_second a <= t_second b).

Definition ordered_table (btdf : list TradeRow) : Prop := StronglySorted row_le btdf.

(** ** Position matcher, fixed-horizon policy *)

(** [np.searchsorted(a, key)] with the default [side='left']: a binary
    search for the insertion point of [key], in which the interval [lo, hi)
    shrinks at every step; each key is searched from the whole array. *)
Fixpoint bsearch (fuel : nat) (a : list Z) (key : Z) (lo hi : nat) : nat :=
  match fuel with
  | O => lo
  | S fuel' =>
      if (lo <? hi)%nat then
        let m := (lo + (hi - lo) / 2)%nat in
        if nth m a 0 <? key
        then bsearch fuel' a key (m + 1)%nat hi
        else bsearch fuel' a key lo m
      else lo
  end.

Definition searchsorted (a : list Z) (key : Z) : nat :=
  bsearch (length a) a key 0%nat (length a).

(** The body of the per-date loop of [get_fixed_period_close_second]. *)
Definition fixed_day_close (bti : list TradeRow) (config : Config) : list Z :=
  let seconds := map t_second bti in
  let close_second := map (fun s => s + holding_period config) seconds in
  let close_index := map (searchsorted seconds) close_second in
  let n := length close_index in
  let close_index := map (fun k => if (k =? n)%nat then (n - 1)%nat else k) close_index in
  map (fun k => nth k seconds 0) close_index.

Definition get_fixed_period_close_second (btdf : list TradeRow) (config : Config)
  : list Z :=
  let dates := sorted_set (map t_date btdf) in
  flat_map (fun d => fixed_day_close (rows_on d btdf) config) dates.

(** ** Position matcher, dynamic-unwind policy *)

(** Label-based selection [series[i]] on a table indexed by [t_idx]: the
    rows that carry the label. *)
Definition rows_at (i : Z) (bti : list TradeRow) : list TradeRow :=
  filter (fun r => t_idx r =? i) bti.

(** [series[i]] where a single value is needed, as in
    [np.nan if bti.trade[i] == 0 else ...]: a KeyError without such a label,
    the row when the label is unique; on a repeated label the selection is a
    Series, whose truth value raises ValueError. *)
Definition loc (i : Z) (bti : list TradeRow) : Result TradeRow :=
  match rows_at i bti with
  | [] => Raise KeyError
  | [r] => Ok r
  | _ :: _ :: _ => Raise ValueError
  end.

(** [bti.index[-1]] *)
Definition last_label (bti : list TradeRow) : Result Z :=
  match rev bti with
  | r :: _ => Ok (t_idx r)
  | [] => Raise IndexError
  end.

(** A float quotient: finite, infinite or NaN. *)
Inductive Move : Type :=
| Finite (q : Q)
| PosInf
| NegInf
| NaN.

(** Float division of a column by a number: a zero divisor raises nothing
    and gives an infinity with the sign of the dividend, or NaN for 0 / 0. *)
Definition float_div (x y : Q) : Move :=
  if Qeq_bool y 0 then
    if Qeq_bool x 0 then NaN
    else if Qle_bool 0 x then PosInf else NegInf
  else Finite (x / y)%Q.

(** [m >= c] and [m <= c]; comparisons with NaN are false. *)
Definition move_geb (m : Move) (c : Q) : bool :=
  match m with
  | Finite q => Qle_bool c q
  | PosInf => true
  | NegInf => false
  | NaN => false
  end.

Definition move_leb (m : Move) (c : Q) : bool :=
  match m with
  | Finite q => Qle_bool q c
  | PosInf => false
  | NegInf => true
  | NaN => false
  end.

Definition tick_change (config : Config) (open_mid : Q) (r : TradeRow) : Move :=
  float_div (t_mid r - open_mid) (tick_size config).

(** The price-move part of [cond] in [dynamic_hold]. *)
Definition breaches (config : Config) (open_mid : Q) (r : TradeRow) : bool :=
  move_geb (tick_change config open_mid r) (unwinding_tick_move_upper_bound config)
  || move_leb (tick_change config open_mid r) (unwinding_tick_move_lower_bound config).

(** [dynamic_hold]. On a repeated label [bti.mid[i]] is a Series, and the
    subtraction aligns the two Series on their labels: the difference has a
    value only on the rows labelled [i], none of which lies after [i], so no
    row qualifies and the last label is returned. *)
Definition dynamic_hold (bti : list TradeRow) (config : Config) (i : Z) : Result Z :=
  match rows_at i bti with
  | [] => Raise KeyError
  | [ri] =>
      let cond r := breaches config (t_mid ri) r && (i <? t_idx r) in
      match map t_idx (filter cond bti) with
      | i0 :: _ => Ok i0
      | [] => last_label bti
      end
  | _ :: _ :: _ => last_label bti
  end.

(** [bti.second[close_index]], reached only when no label of [bti] is
    repeated: a NaN label selects a NaN second. *)
Definition second_at (bti : list TradeRow) (label : option Z) : option Z :=
  match label with
  | None => None
  | Some i => option_map t_second (find (fun r => t_idx r =? i) bti)
  end.

(** The body of the per-date loop of [get_dynamic_period_close_second]. *)
Definition dynamic_day_close (bti : list TradeRow) (config : Config)
  : Result (list (option Z)) :=
  close_index <-
    mapM (fun i =>
            ri <- loc i bti ;;
            if trade_ ri =? 0 then Ok None
            else c <- dynamic_hold bti config i ;; Ok (Some c))
         (map t_idx bti) ;;
  Ok (map (second_at bti) close_index).

Definition get_dynamic_period_close_second (btdf : list TradeRow) (config : Config)
  : Result (list (option Z)) :=
  let dates := sorted_set (map t_date btdf) in
  per_date <- mapM (fun d => dynamic_day_close (rows_on d btdf) config) dates ;;
  Ok (concat per_date).

(** The close row the dynamic-unwind policy promises for an open row [r],
    given the rows [later] that follow it on its date: the first of them
    whose move from the open mid breaches a bound, or the last row of the
    date ([r] itself when nothing follows). *)
Definition first_breach_or_last (config : Config) (r : TradeRow)
    (later : list TradeRow) : TradeRow :=
  match find (breaches config (t_mid r)) later with
  | Some c => c
  | None => last later r
  end.

(** What the dynamic-unwind policy promises, written as a forward scan of
    the table: a row with no trade has no close; a traded row closes at the
    second of [first_breach_or_last] among the later rows of its date. *)
Fixpoint dynamic_close_scan (config : Config) (tbl : list TradeRow)
  : list (option Z) :=
  match tbl with
  | [] => []
  | r :: post =>
      (if trade_ r =? 0 then None
       else Some (t_second
                    (first_breach_or_last config r
                       (filter (fun c => t_date c =? t_date r) post))))
      :: dynamic_close_scan config post
  end.

(** The same scan, giving the index label of each close row. *)
Fixpoint close_labels (config : Config) (tbl : list TradeRow) : list (option Z) :=
  match tbl with
  | [] => []
  | r :: post =>
      (if trade_ r =? 0 then None
       else Some (t_idx (first_breach_or_last config r post)))
      :: close_labels config post
  end.

(** Index labels grow along the rows, as in a frame with its default index. *)
Definition labels_increasing (bti : list TradeRow) : Prop :=
  StronglySorted (fun a b => t_idx a < t_idx b) bti.

(** What the fixed-horizon policy promises for one row of the table: the
    second of the first tick of the row's date at or after the requested
    close second, or of the date's last tick. *)
Definition fixed_close_of (config : Config) (btdf : list TradeRow) (r : TradeRow) : Z :=
  let day := filter (fun c => t_date c =? t_date r) btdf in
  match find (fun c => t_second r + holding_period config <=? t_second c) day with
  | Some c => t_second c
  | None => t_second (last day r)
  end.

(** ** Library functions taken as parameters

    The helpers of [hft.utils] and [hft.signal_utils] that are not part of
    the sources at hand, and the numpy, pandas and scikit-learn routines
    whose results are not rational functions of their input. *)

Record WinsorizeOption : Type := mkWinsorizeOption {
  x_prob : Q;
  x_bound : Q;
  y_prob : Q;
  y_bound : Q
}.

(** A labelled matrix: row label, then column label, then the value. *)
Definition Frame : Type := list (string * list (string * oQ)).

Definition Matrix : Type := list (list Q).

Class Externals : Type := {
  get_moving_column_name : string -> Z -> Z -> string;
  get_raw_column_name : string -> string;
  winsorize : list Q -> Q -> Q -> Result (list Q);
  xy_corr : list Tick -> list Z -> string -> string -> WinsorizeOption -> Result Frame;
  (** the least-squares solver behind [LinearRegression.fit] *)
  lstsq : Matrix -> list Q -> list Q;
  (** [np.linalg.inv]; [None] when it raises on a singular matrix *)
  linalg_inv : Matrix -> option Matrix;
  np_sqrt : Q -> oQ;
  r2_score : list Q -> list Q -> oQ;
  series_median : list oQ -> oQ;
  series_std : list oQ -> oQ;
  (** [np.corrcoef(a, b)[0, 1]] *)
  np_corrcoef : list oQ -> list oQ -> oQ;
  (** [DataFrame.corr()] of two columns: the Pearson correlation over the
      rows where both are present *)
  pd_corr : list oQ -> list oQ -> oQ
}.

(** ** PnL *)

(** A row once [pnl] has set [open_price] and [matched_close_second]. *)
Record OpenRow : Type := mkOpenRow {
  o_row : TradeRow;
  open_price : Q;
  matched_close_second : option Z
}.

(** A row of [dummy_bt]: the table re-keyed by second. *)
Record CloseTick : Type := mkCloseTick {
  c_date : Z;
  c_matched_close_second : Z;
  c_b1 : Q;
  c_s1 : Q;
  c_mid : Q
}.

Record JoinedRow : Type := mkJoinedRow {
  j_open : OpenRow;
  j_close : option CloseTick
}.

Definition close_b1 (j : JoinedRow) : oQ := option_map c_b1 (j_close j).
Definition close_s1 (j : JoinedRow) : oQ := option_map c_s1 (j_close j).
Definition close_mid (j : JoinedRow) : oQ := option_map c_mid (j_close j).

Definition join_key_eqb (o : OpenRow) (c : CloseTick) : bool :=
  (t_date (o_row o) =? c_date c)
  && match matched_close_second o with
     | Some s => s =? c_matched_close_second c
     | None => false
     end.

(** Modelled from the spec: [utils.left_join], which is not among the
    sources.  A left join on (date, matched_close_second): every left row is
    kept, once per right row with equal keys, in the order of the right
    table, and once with empty close attributes when no right row matches. *)
Definition left_join (l : list OpenRow) (r : list CloseTick) : list JoinedRow :=
  flat_map (fun o =>
              match filter (join_key_eqb o) r with
              | [] => [mkJoinedRow o None]
              | ms => map (fun c => mkJoinedRow o (Some c)) ms
              end) l.

Record PnlRow : Type := mkPnlRow {
  joined : JoinedRow;
  close_price : oQ;
  pnl_col : oQ;
  transaction_fee_col : oQ;
  net_pnl : oQ
}.

Definition p_row (r : PnlRow) : TradeRow := o_row (j_open (joined r)).
Definition p_trade (r : PnlRow) : Z := trade_ (p_row r).
Definition p_alpha (r : PnlRow) : Q := alpha (bt (p_row r)).
Definition p_open_price (r : PnlRow) : Q := open_price (j_open (joined r)).

Definition open_price_of (config : Config) (r : TradeRow) : Q :=
  if use_mid config then t_mid r
  else (b2q (0 <? trade_ r) * s1 (t_tick r) + b2q (trade_ r <? 0) * b1 (t_tick r))%Q.

Definition close_price_of (config : Config) (j : JoinedRow) : oQ :=
  let t := trade_ (o_row (j_open j)) in
  if use_mid config then close_mid j
  else oadd (omul (Some (b2q (0 <? t))) (close_b1 j))
            (omul (Some (b2q (t <? 0))) (close_s1 j)).

Definition price_row (config : Config) (j : JoinedRow) : PnlRow :=
  let t := trade_ (o_row (j_open j)) in
  let op := open_price (j_open j) in
  let cp := close_price_of config j in
  let p := omul (Some (inject_Z t)) (osub cp (Some op)) in
  let fee := omul (Some (transaction_fee config * inject_Z (Z.abs t))%Q)
                  (oadd (Some op) cp) in
  mkPnlRow j cp p fee (osub p fee).

(** [btdf[name] = values]: the list must be as long as the table. *)
Definition set_column {A B C : Type} (f : A -> B -> C) (tbl : list A) (values : list B)
  : Result (list C) :=
  if (length values =? length tbl)%nat
  then Ok (map (fun ab => f (fst ab) (snd ab)) (combine tbl values))
  else Raise ValueError.

Definition dummy_bt (btdf : list TradeRow) : list CloseTick :=
  map (fun r => mkCloseTick (t_date r) (t_second r) (b1 (t_tick r)) (s1 (t_tick r)) (t_mid r))
      btdf.

Definition pnl (btdf : list TradeRow) (config : Config) : Result (list PnlRow) :=
  matched <- (if dynamic_unwinding config
              then get_dynamic_period_close_second btdf config
              else Ok (map Some (get_fixed_period_close_second btdf config))) ;;
  opened <- set_column (fun r m => mkOpenRow r (open_price_of config r) m) btdf matched ;;
  let joined := left_join opened (dummy_bt btdf) in
  Ok (map (price_row config) joined).

(** ** Summary *)

(** Python's [a / b] on integers. *)
Definition py_div (a b : Z) : Result Q :=
  if b =? 0 then Raise ZeroDivisionError else Ok (inject_Z a / inject_Z b)%Q.

(** Modelled from the spec: [utils.safe_divide], which is not among the
    sources.  The quotient, defined as 0 when the denominator is 0. *)
Definition safe_divide (x y : Q) : Q :=
  if Qeq_bool y 0 then 0%Q else (x / y)%Q.

(** [Series.sum()] and [Series.mean()], which skip NaN. *)
Definition series_sum (s : list oQ) : Q :=
  fold_right (fun c acc => match c with Some x => (x + acc)%Q | None => acc end) 0%Q s.

Definition series_count (s : list oQ) : Z :=
  Z.of_nat (length (filter (fun c => match c with Some _ => true | None => false end) s)).

Definition series_mean (s : list oQ) : oQ :=
  if series_count s =? 0 then None
  else Some (series_sum s / inject_Z (series_count s))%Q.

(** [sum(mask)] for a boolean mask. *)
Definition count_true {A : Type} (f : A -> bool) (l : list A) : Z :=
  Z.of_nat (length (filter f l)).

Record Summary : Type := mkSummary {
  sm_training_period : Z;
  sm_trade_trigger_threshold : Q;
  sm_holding_period : Z;
  sm_use_mid : bool;
  sm_unwinding_tick_move_upper_bound : Q;
  sm_unwinding_tick_move_lower_bound : Q;
  n_trades : Z;
  n_trading_days : Z;
  n_trades_per_day : Q;
  winning_rate : Q;
  losing_rate : Q;
  net_winning_rate : Q;
  net_losing_rate : Q;
  total_pnl : Q;
  total_net_pnl : Q;
  avg_pnl_per_trade : oQ;
  avg_net_pnl_per_trade : oQ;
  med_pnl_per_trade : oQ;
  med_net_pnl_per_trade : oQ;
  avg_pnl_per_winning_trade : oQ;
  avg_pnl_per_losing_trade : oQ;
  avg_net_pnl_per_winning_trade : oQ;
  avg_net_pnl_per_losing_trade : oQ;
  avg_net_pnl_per_day : Q;
  avg_pnl_per_day : Q;
  std_pnl_per_trade : oQ;
  std_net_pnl_per_trade : oQ;
  corr_alpha_pnl : oQ;
  corr_alpha_net_pnl : oQ
}.

Section Reporter.
Context {E : Externals}.

Definition summary (btdf : list PnlRow) (config : Config) : Result Summary :=
  let trades := filter (fun r => negb (p_trade r =? 0)) btdf in
  let n := Z.of_nat (length trades) in
  let days := Z.of_nat (length (sorted_set (map (fun r => t_date (p_row r)) trades))) in
  let per_day := safe_divide (inject_Z n) (inject_Z days) in
  winning <- py_div (count_true (fun r => ogtb (pnl_col r) 0) trades) n ;;
  losing <- py_div (count_true (fun r => oltb (pnl_col r) 0) trades) n ;;
  net_winning <- py_div (count_true (fun r => ogtb (net_pnl r) 0) trades) n ;;
  net_losing <- py_div (count_true (fun r => oltb (net_pnl r) 0) trades) n ;;
  let total := series_sum (map pnl_col trades) in
  let total_net := series_sum (map net_pnl trades) in
  Ok {| sm_training_period := training_period config;
        sm_trade_trigger_threshold := snd (trade_trigger_threshold config);
        sm_holding_period := holding_period config;
        sm_use_mid := use_mid config;
        sm_unwinding_tick_move_upper_bound := unwinding_tick_move_upper_bound config;
        sm_unwinding_tick_move_lower_bound := unwinding_tick_move_lower_bound config;
        n_trades := n;
        n_trading_days := days;
        n_trades_per_day := per_day;
        winning_rate := winning;
        losing_rate := losing;
        net_winning_rate := net_winning;
        net_losing_rate := net_losing;
        total_pnl := total;
        total_net_pnl := total_net;
        avg_pnl_per_trade := series_mean (map pnl_col trades);
        avg_net_pnl_per_trade := series_mean (map net_pnl trades);
        med_pnl_per_trade := series_median (map pnl_col trades);
        med_net_pnl_per_trade := series_median (map net_pnl trades);
        avg_pnl_per_winning_trade :=
          series_mean (map pnl_col (filter (fun r => ogtb (pnl_col r) 0) trades));
        avg_pnl_per_losing_trade :=
          series_mean (map pnl_col (filter (fun r => oltb (pnl_col r) 0) trades));
        avg_net_pnl_per_winning_trade :=
          series_mean (map net_pnl (filter (fun r => ogtb (net_pnl r) 0) trades));
        avg_net_pnl_per_losing_trade :=
          series_mean (map net_pnl (filter (fun r => oltb (net_pnl r) 0) trades));
        avg_net_pnl_per_day := safe_divide total_net (inject_Z days);
        avg_pnl_per_day := safe_divide total (inject_Z days);
        std_pnl_per_trade := series_std (map pnl_col trades);
        std_net_pnl_per_trade := series_std (map net_pnl trades);
        corr_alpha_pnl :=
          np_corrcoef (map (fun r => Some (p_alpha r)) trades) (map pnl_col trades);
        corr_alpha_net_pnl :=
          np_corrcoef (map (fun r => Some (p_alpha r)) trades) (map pnl_col trades) |}.

End Reporter.

(** ** Python lists and dictionaries *)

(** [l[i]], where a negative index counts from the end. *)
Definition py_index {A : Type} (l : list A) (i : Z) : Result A :=
  let n := Z.of_nat (length l) in
  let j := if i <? 0 then i + n else i in
  if (0 <=? j) && (j <? n) then
    match nth_error l (Z.to_nat j) with
    | Some a => Ok a
    | None => Raise IndexError
    end
  else Raise IndexError.

(** [range(lo, hi)] *)
Definition py_range (lo hi : Z) : list Z :=
  map (fun k => lo + Z.of_nat k) (seq 0 (Z.to_nat (hi - lo))).

(** [d[key]] *)
Fixpoint dict_get {V : Type} (key : string) (d : list (string * V)) : Result V :=
  match d with
  | [] => Raise KeyError
  | (k, v) :: d' => if String.eqb k key then Ok v else dict_get key d'
  end.

(** ** Matrices and columns *)

Definition dotv (u v : list Q) : Q :=
  fold_right Qplus 0%Q (map (fun ab => (fst ab * snd ab)%Q) (combine u v)).

(** Column [j] of a row-major table. *)
Definition column {A : Type} (dflt : A) (j : nat) (rows : list (list A)) : list A :=
  map (fun row => nth j row dflt) rows.

(** [x.T] for a matrix with [p] columns. *)
Definition transpose (p : nat) (x : Matrix) : Matrix :=
  map (fun j => column 0%Q j x) (seq 0 p).

(** [np.dot(a, b)] for [a] and a matrix [b] with [p] columns. *)
Definition np_dot (p : nat) (a b : Matrix) : Matrix :=
  map (fun row => map (dotv row) (transpose p b)) a.

Definition np_diagonal {A : Type} (dflt : A) (m : list (list A)) : list A :=
  map (fun i => nth i (nth i m []) dflt) (seq 0 (length m)).

(** [df.dropna()]: the rows without a missing cell. *)
Fixpoint all_present (row : list oQ) : option (list Q) :=
  match row with
  | [] => Some []
  | Some x :: row' => option_map (cons x) (all_present row')
  | None :: _ => None
  end.

Fixpoint dropna (rows : list (list oQ)) : Matrix :=
  match rows with
  | [] => []
  | row :: rows' =>
      match all_present row with
      | Some xs => xs :: dropna rows'
      | None => dropna rows'
      end
  end.

(** [np.nanmean] *)
Definition np_nanmean (s : list oQ) : oQ := series_mean s.

(** [Series.argmax()] of the pandas in use: the label of the first maximum,
    NaN skipped; an error when no value is left. *)
Fixpoint argmax_from (best : string * Q) (s : list (string * oQ)) : string :=
  match s with
  | [] => fst best
  | (k, Some v) :: s' =>
      if Qltb (snd best) v then argmax_from (k, v) s' else argmax_from best s'
  | (_, None) :: s' => argmax_from best s'
  end.

Fixpoint series_argmax (s : list (string * oQ)) : Result string :=
  match s with
  | [] => Raise ValueError
  | (k, Some v) :: s' => Ok (argmax_from (k, v) s')
  | (_, None) :: s' => series_argmax s'
  end.

(** ** Model fitter *)

(** The fitted [sklearn.linear_model.LinearRegression]. *)
Record LinearRegression : Type := mkLinearRegression {
  fit_intercept : bool;
  coef_ : list Q;
  intercept_ : Q
}.

(** The [stats] dictionary returned by [fit]. *)
Record Stats : Type := mkStats {
  rsq : oQ;
  beta : list Q;
  tstat : list oQ;
  mse : oQ;
  df_1 : Z;
  df_2 : Z
}.

(** A row of [fitting_stats]. *)
Record FittingStats : Type := mkFittingStats {
  fs_date : Z;
  fs_stats : Stats;
  pred_rsq : oQ;
  pred_mse : oQ
}.

(** [tbl[names]] as rows of cells; an unknown column name is a [KeyError]. *)
Definition select_columns (names : list string) (tbl : list Tick)
  : Result (list (list oQ)) :=
  mapM (fun r => mapM (fun name => dict_get name (cols r)) names) tbl.

Definition enumerate {A : Type} (l : list A) : list (nat * A) :=
  combine (seq 0 (length l)) l.

Section Engine.
Context {E : Externals}.

Definition select_feature (train : list Tick) (config : Config) : Result (list string) :=
  let y_column :=
    get_moving_column_name (response_column config) 0 (holding_period config) in
  mapM (fun feature =>
          xp <- dict_get feature (feature_winsorize_prob config) ;;
          xb <- dict_get feature (feature_winsorize_bound config) ;;
          let winsorize_option :=
            mkWinsorizeOption xp xb (response_winsorize_prob config)
                              (response_winsorize_bound config) in
          corr_mat <- xy_corr train (feature_freq config) feature
                              (response_column config) winsorize_option ;;
          correlation <- dict_get y_column corr_mat ;;
          series_argmax correlation)
       (feature_column config).

(** [LinearRegression(fit_intercept=False).fit(x, y)]: scikit-learn refuses
    an input without samples or without features; without an intercept the
    coefficients are the least-squares solution and the intercept is 0. *)
Definition LinearRegression_fit (x : Matrix) (y : list Q) (p : nat)
  : Result LinearRegression :=
  if ((length x =? 0) || (p =? 0))%nat then Raise ValueError
  else Ok (mkLinearRegression false (lstsq x y) 0%Q).

(** [regr.predict(x)] on complete rows. *)
Definition predict (regr : LinearRegression) (x : Matrix) : list Q :=
  map (fun row => (dotv row (coef_ regr) + intercept_ regr)%Q) x.

Definition sum_sq_resid (pred y : list Q) : Q :=
  fold_right Qplus 0%Q
    (map (fun ab => ((fst ab - snd ab) * (fst ab - snd ab))%Q) (combine pred y)).

(** The first half of [fit]: the complete rows of the selected columns,
    winsorized column by column, as the design matrix [x] and the response
    [y]. *)
Definition regression_data (train : list Tick) (features : list string)
    (config : Config) : Result (Matrix * list Q) :=
  let y_column :=
    get_moving_column_name (response_column config) 0 (holding_period config) in
  cells <- select_columns (features ++ [y_column]) train ;;
  let regr_data := dropna cells in
  xcols <- mapM (fun jf =>
                   let raw_feature := get_raw_column_name (snd jf) in
                   prob <- dict_get raw_feature (feature_winsorize_prob config) ;;
                   bound <- dict_get raw_feature (feature_winsorize_bound config) ;;
                   winsorize (column 0%Q (fst jf) regr_data) prob bound)
                (enumerate features) ;;
  y <- winsorize (column 0%Q (length features) regr_data)
                 (response_winsorize_prob config) (response_winsorize_bound config) ;;
  let x := map (fun i => map (fun c => nth i c 0%Q) xcols)
               (seq 0 (length regr_data)) in
  Ok (x, y).

(** [np.dot(x.T, x)] for a design matrix with [p] columns. *)
Definition gram (p : nat) (x : Matrix) : Matrix := np_dot p (transpose p x) x.

(** [np.sqrt(np.diagonal(mse * xtx_inv))] *)
Definition standard_errors (mse : oQ) (xtx_inv : Matrix) : list oQ :=
  map (fun v => match v with Some q => np_sqrt q | None => None end)
      (np_diagonal None (map (map (fun v => omul mse (Some v))) xtx_inv)).

Definition fit (train : list Tick) (features : list string) (config : Config)
  : Result (LinearRegression * Stats) :=
  '(x, y) <- regression_data train features config ;;
  regr <- LinearRegression_fit x y (length features) ;;
  let n := Z.of_nat (length y) in
  let p := Z.of_nat (length features) + Z.b2z (fit_intercept regr) in
  let mse := odiv (Some (sum_sq_resid (predict regr x) y)) (Some (inject_Z (n - p))) in
  match linalg_inv (gram (length features) x) with
  | None => Raise LinAlgError
  | Some xtx_inv =>
      let se := standard_errors mse xtx_inv in
      Ok (regr,
          {| rsq := r2_score (predict regr x) y;
             beta := coef_ regr;
             tstat := map (fun cs => odiv (Some (fst cs)) (snd cs))
                          (combine (coef_ regr) se);
             mse := mse;
             df_1 := p - 1;
             df_2 := n - p |})
  end.

(** ** Walk-forward driver *)

(** [x_new.fillna(x_new.median())] *)
Definition fillna_median (p : nat) (rows : list (list oQ)) : list (list oQ) :=
  let med := map (fun j => series_median (column None j rows)) (seq 0 p) in
  map (fun row =>
         map (fun cm => match fst cm with Some v => Some v | None => snd cm end)
             (combine row med))
      rows.

(** [model.predict(X=x_new)]: scikit-learn refuses an input with NaN. *)
Definition predict_checked (regr : LinearRegression) (rows : list (list oQ))
  : Result (list Q) :=
  x <- mapM (fun row => match all_present row with
                        | Some xs => Ok xs
                        | None => Raise ValueError
                        end) rows ;;
  Ok (predict regr x).

(** The training snapshot of evaluation day [dates[i]]. *)
Definition training_snapshot (px : list Tick) (config : Config) (dates : list Z) (i : Z)
  : Result (list Tick) :=
  d <- py_index dates i ;;
  lo <- py_index dates (i - training_period config) ;;
  Ok (filter (fun r => (lo <=? date r) && (date r <? d)) px).

Definition keep_columns (names : list string) (r : Tick) : Tick :=
  mkTick (idx r) (dt r) (date r) (time r) (price r) (qty r) (volume r)
         (open_interest r) (b1 r) (b1_size r) (s1 r) (s1_size r) (mid r) (second r)
         (filter (fun kv => existsb (String.eqb (fst kv)) names) (cols r)).

(** The body of the loop of [backtest] once the evaluation date [d] and its
    training snapshot [train] are cut out of [px]. *)
Definition evaluate_day (px : list Tick) (config : Config) (d : Z) (train : list Tick)
  : Result (list BtRow * FittingStats) :=
  let y_name :=
    get_moving_column_name (response_column config) 0 (holding_period config) in
  features <- select_feature train config ;;
  '(model, stats) <- fit train features config ;;
  let px_i := filter (fun r => date r =? d) px in
  x_new <- select_columns features px_i ;;
  y_cells <- select_columns [y_name] px_i ;;
  let x_new := fillna_median (length features) x_new in
  let y_new := column None 0%nat y_cells in
  alpha <- predict_checked model x_new ;;
  let pred_rsq := pd_corr (map Some alpha) y_new in
  let pred_resid := map (fun ay => osub (Some (fst ay)) (snd ay)) (combine alpha y_new) in
  let pred_mse := np_nanmean (map (fun e => omul e e) pred_resid) in
  Ok (map (fun ra => mkBtRow (keep_columns (features ++ [y_name]) (fst ra)) (snd ra))
          (combine px_i alpha),
      mkFittingStats d stats pred_rsq pred_mse).

(** The body of the loop of [backtest]. *)
Definition backtest_day (px : list Tick) (config : Config) (dates : list Z) (i : Z)
  : Result (list BtRow * FittingStats) :=
  d <- py_index dates i ;;
  train <- training_snapshot px config dates i ;;
  evaluate_day px config d train.

Fixpoint backtest_loop (px : list Tick) (config : Config) (dates : list Z)
    (days : list Z) (btdf : list BtRow) (fitting_stats : list FittingStats)
  : Result (list BtRow * list FittingStats) :=
  match days with
  | [] => Ok (btdf, fitting_stats)
  | i :: days' =>
      '(px_i, stats) <- backtest_day px config dates i ;;
      backtest_loop px config dates days' (btdf ++ px_i) (fitting_stats ++ [stats])
  end.

Definition backtest (px : list Tick) (config : Config)
  : Result (list BtRow * list FittingStats) :=
  let dates := sorted_set (map date px) in
  backtest_loop px config dates
    (py_range (training_period config) (Z.of_nat (length dates))) [] [].

End Engine.

From Stdlib Require Import Lqa ListDec.

(** ** Daily summary *)





(** The (date, second) key of a row, on which [pnl] joins. *)
Definition join_key (r : TradeRow) : Z * Z := (t_date r, t_second r).

(** ** The rows that [backtest] evaluates *)

(** The order of the price table: by date, and by second within a date. *)
Definition tick_le (a b : Tick) : Prop :=
  date a < date b \/ (date a = date b /\ second a <= second b).

(** A tick without its feature and response columns. *)
Definition descriptive (t : Tick) : Tick := keep_columns [] t.

(** The rows of [px] on the dates after the first [training_period] ones,
    date by date in ascending order. *)
Definition evaluated_rows (px : list Tick) (config : Config) : list Tick :=
  flat_map (fun d => filter (fun r => date r =? d) px)
           (skipn (Z.to_nat (training_period config)) (sorted_set (map date px))).

(** A cell that holds a value. *)
Definition is_present (c : oQ) : bool :=
  match c with Some _ => true | None => false end.

(** ** An exact-arithmetic instance of the library interface

    Used to run the model on concrete tables.  Linear algebra is exact over
    the rationals; square roots are taken to six decimal places. *)

Module Exact.

Definition moving_column_name (name : string) (backward forward : Z) : string :=
  (name ++ "_" ++ NilZero.string_of_int (Z.to_int backward)
        ++ "_" ++ NilZero.string_of_int (Z.to_int forward))%string.

(** Drops the last [k] underscore-separated parts of a reversed name. *)
Fixpoint drop_parts (k : nat) (rev_name : list ascii) : list ascii :=
  match k, rev_name with
  | O, _ => rev_name
  | S _, [] => []
  | S k', c :: rest =>
      if Ascii.eqb c "_"%char then drop_parts k' rest else drop_parts k rest
  end.

Definition raw_column_name (name : string) : string :=
  string_of_list_ascii (rev (drop_parts 2 (rev (list_ascii_of_string name)))).

Definition clip (bound x : Q) : Q :=
  if Qle_bool bound x then bound
  else if Qle_bool x (- bound) then (- bound)%Q
  else x.

Definition clip_winsorize (s : list Q) (prob bound : Q) : Result (list Q) :=
  Ok (map (clip bound) s).

Definition sqrt6 (q : Q) : oQ :=
  if Qle_bool 0 q then
    let n := Qnum q in
    let d := Zpos (Qden q) in
    Some (Qred (Qmake (Z.sqrt (n * d * 1000000000000)) (Pos.mul (Qden q) 1000000)))
  else None.

(** Gauss-Jordan elimination on the rows of [A | I]. *)
Definition row_scale (c : Q) (r : list Q) : list Q := map (fun v => Qred (c * v)) r.

Definition row_sub (r : list Q) (c : Q) (pivot : list Q) : list Q :=
  map (fun ab => Qred (fst ab - c * snd ab)) (combine r pivot).

Definition eliminate (k : nat) (pivot : list Q) (r : list Q) : list Q :=
  row_sub r (nth k r 0%Q) pivot.

Fixpoint take_pivot (k : nat) (rows : list (list Q))
  : option (list Q * list (list Q)) :=
  match rows with
  | [] => None
  | r :: rows' =>
      if Qeq_bool (nth k r 0%Q) 0 then
        match take_pivot k rows' with
        | Some (pv, others) => Some (pv, r :: others)
        | None => None
        end
      else Some (r, rows')
  end.

Fixpoint gauss_jordan (ks : list nat) (done todo : list (list Q))
  : option (list (list Q)) :=
  match ks with
  | [] => Some done
  | k :: ks' =>
      match take_pivot k todo with
      | None => None
      | Some (pv, others) =>
          let pv := row_scale (/ nth k pv 0%Q) pv in
          gauss_jordan ks' (map (eliminate k pv) done ++ [pv])
                       (map (eliminate k pv) others)
      end
  end.

Definition unit_row (n i : nat) : list Q :=
  map (fun j => if (i =? j)%nat then 1%Q else 0%Q) (seq 0 n).

Definition inverse (a : Matrix) : option Matrix :=
  let n := length a in
  let aug := map (fun ir => snd ir ++ unit_row n (fst ir)) (enumerate a) in
  option_map (map (skipn n)) (gauss_jordan (seq 0 n) [] aug).

(** The least-squares solution from the normal equations. *)
Definition normal_equations (x : Matrix) (y : list Q) : list Q :=
  let p := match x with [] => O | row :: _ => length row end in
  let xt := transpose p x in
  match inverse (np_dot p xt x) with
  | Some m => map (fun row => Qred (dotv row (map (fun c => dotv c y) xt))) m
  | None => repeat 0%Q p
  end.

Definition mean (s : list Q) : Q :=
  (fold_right Qplus 0 s / inject_Z (Z.of_nat (length s)))%Q.

Definition sum_sq_dev (s : list Q) : Q :=
  let m := mean s in fold_right Qplus 0%Q (map (fun v => ((v - m) * (v - m))%Q) s).

Definition r_squared (pred y : list Q) : oQ :=
  odiv (Some (sum_sq_dev y - sum_sq_resid pred y)%Q) (Some (sum_sq_dev y)).

Fixpoint insert_sorted (v : Q) (s : list Q) : list Q :=
  match s with
  | [] => [v]
  | w :: s' => if Qle_bool v w then v :: s else w :: insert_sorted v s'
  end.

Fixpoint present (s : list oQ) : list Q :=
  match s with
  | [] => []
  | Some v :: s' => v :: present s'
  | None :: s' => present s'
  end.

Definition median (s : list oQ) : oQ :=
  let vs := fold_right insert_sorted [] (present s) in
  let n := length vs in
  match n with
  | O => None
  | _ => if Nat.even n
         then Some ((nth (n / 2 - 1) vs 0 + nth (n / 2) vs 0) / 2)%Q
         else Some (nth (n / 2) vs 0%Q)
  end.

Definition std (s : list oQ) : oQ :=
  let vs := present s in
  match odiv (Some (sum_sq_dev vs)) (Some (inject_Z (Z.of_nat (length vs) - 1))) with
  | Some v => sqrt6 v
  | None => None
  end.

Definition pearson (a b : list Q) : oQ :=
  let ma := mean a in
  let mb := mean b in
  let cov := fold_right Qplus 0%Q
               (map (fun ab => ((fst ab - ma) * (snd ab - mb))%Q) (combine a b)) in
  match sqrt6 (Qred (sum_sq_dev a * sum_sq_dev b)) with
  | Some d => odiv (Some (Qred cov)) (Some d)
  | None => None
  end.

Fixpoint complete_pairs (a b : list oQ) : list (Q * Q) :=
  match a, b with
  | Some x :: a', Some y :: b' => (x, y) :: complete_pairs a' b'
  | _ :: a', _ :: b' => complete_pairs a' b'
  | _, _ => []
  end.

Definition corr_complete (a b : list oQ) : oQ :=
  let ps := complete_pairs a b in
  match ps with
  | [] => None
  | _ => pearson (map fst ps) (map snd ps)
  end.

Definition corrcoef (a b : list oQ) : oQ :=
  if (length (present a) =? length a)%nat && (length (present b) =? length b)%nat
  then corr_complete a b
  else None.

(** The correlation of each horizon variant of [feature] with each horizon
    of the response. *)
Definition cross_corr (tbl : list Tick) (freq : list Z) (feature response : string)
    (opt : WinsorizeOption) : Result Frame :=
  let cell name r := match dict_get name (cols r) with
                     | Ok (Some v) => Some v
                     | _ => None
                     end in
  let series bound name :=
    map (fun r => option_map (clip bound) (cell name r)) tbl in
  Ok (map (fun h =>
             let y_name := moving_column_name response 0 h in
             (y_name,
              map (fun h' =>
                     let x_name := moving_column_name feature h' 0 in
                     (x_name,
                      corr_complete (series (x_bound opt) x_name)
                                    (series (y_bound opt) y_name)))
                  freq))
          freq).

#[export] Instance externals : Externals := {|
  get_moving_column_name := moving_column_name;
  get_raw_column_name := raw_column_name;
  winsorize := clip_winsorize;
  xy_corr := cross_corr;
  lstsq := normal_equations;
  linalg_inv := inverse;
  np_sqrt := sqrt6;
  r2_score := r_squared;
  series_median := median;
  series_std := std;
  np_corrcoef := corrcoef;
  pd_corr := corr_complete
|}.

End Exact.

(** ** Sample tables *)

Module Sample.

Definition tk (i d s : Z) (b a : Q) (f5 f10 y5 : option Z) : Tick :=
  mkTick i (d * 86400 + s) d s ((b + a) / 2) 1 (inject_Z i) 100 b 5 a 5
         ((b + a) / 2) s
         [("ofi_5_0"%string, option_map inject_Z f5);
          ("ofi_10_0"%string, option_map inject_Z f10);
          ("tick_move_0_5"%string, option_map inject_Z y5);
          ("tick_move_0_10"%string, option_map inject_Z y5)].

(** Three trading dates with four ticks each. *)
Definition px3 : list Tick :=
  [ tk 0 1 34200 100 102 (Some 1) (Some 2) (Some 1);
    tk 1 1 34205 100 102 (Some 2) (Some 1) (Some 2);
    tk 2 1 34210 102 104 (Some (-1)) (Some 1) (Some (-1));
    tk 3 1 34215 102 104 (Some 3) (Some 0) None;
    tk 4 2 34200 100 102 (Some 2) (Some 1) (Some 3);
    tk 5 2 34205 102 104 (Some (-2)) (Some 1) (Some (-2));
    tk 6 2 34210 104 106 (Some 1) (Some (-1)) (Some 1);
    tk 7 2 34215 102 104 None (Some 0) (Some 1);
    tk 8 3 34200 100 102 (Some 2) (Some 1) (Some 1);
    tk 9 3 34205 102 104 (Some (-3)) (Some 1) (Some (-2));
    tk 10 3 34210 106 108 None (Some (-1)) (Some 1);
    tk 11 3 34215 102 104 (Some 1) (Some 0) None ].

Definition config3 : Config :=
  {| response_column := "tick_move";
     feature_column := ["ofi"%string];
     feature_freq := [5; 10];
     feature_winsorize_prob := [("ofi"%string, 0.01%Q)];
     feature_winsorize_bound := [("ofi"%string, 10%Q)];
     response_winsorize_prob := 0.01%Q;
     response_winsorize_bound := 10%Q;
     training_period := 2;
     holding_period := 5;
     trade_trigger_threshold := ((-1)%Q, 1%Q);
     start_second := 34200;
     end_second := 34210;
     use_mid := false;
     dynamic_unwinding := false;
     unwinding_tick_move_upper_bound := 1%Q;
     unwinding_tick_move_lower_bound := (-1)%Q;
     tick_size := 2%Q;
     transaction_fee := 0.0001%Q |}.

(** Two logical predictors; on date 1 the second is twice the first, so the
    design matrix of the model for date 2 is singular.  Dates 2 and 3 have
    independent predictors. *)
Definition tk2 (i d s : Z) (b a : Q) (f g y : Z) : Tick :=
  mkTick i (d * 86400 + s) d s ((b + a) / 2) 1 (inject_Z i) 100 b 5 a 5
         ((b + a) / 2) s
         [("ofi_5_0"%string, Some (inject_Z f));
          ("oir_5_0"%string, Some (inject_Z g));
          ("tick_move_0_5"%string, Some (inject_Z y))].

Definition px_collinear : list Tick :=
  [ tk2 0 1 34200 100 102 1 2 1;
    tk2 1 1 34205 100 102 2 4 3;
    tk2 2 1 34210 102 104 (-1) (-2) (-1);
    tk2 3 1 34215 102 104 3 6 2;
    tk2 4 2 34200 100 102 2 1 3;
    tk2 5 2 34205 102 104 (-2) 1 (-2);
    tk2 6 2 34210 104 106 1 (-1) 1;
    tk2 7 2 34215 102 104 0 2 1;
    tk2 8 3 34200 100 102 2 1 1;
    tk2 9 3 34205 102 104 (-3) 1 (-2);
    tk2 10 3 34210 106 108 1 (-1) 1;
    tk2 11 3 34215 102 104 1 0 0 ].

Definition config_collinear : Config :=
  {| response_column := "tick_move";
     feature_column := ["ofi"%string; "oir"%string];
     feature_freq := [5];
     feature_winsorize_prob := [("ofi"%string, 0.01%Q); ("oir"%string, 0.01%Q)];
     feature_winsorize_bound := [("ofi"%string, 10%Q); ("oir"%string, 10%Q)];
     response_winsorize_prob := 0.01%Q;
     response_winsorize_bound := 10%Q;
     training_period := 1;
     holding_period := 5;
     trade_trigger_threshold := ((-1)%Q, 1%Q);
     start_second := 34200;
     end_second := 34210;
     use_mid := false;
     dynamic_unwinding := false;
     unwinding_tick_move_upper_bound := 1%Q;
     unwinding_tick_move_lower_bound := (-1)%Q;
     tick_size := 2%Q;
     transaction_fee := 0.0001%Q |}.

(** A traded table over two dates, in (date, second) order. *)
Definition tr (i d s : Z) (b a : Q) (al : Q) (t : Z) : TradeRow :=
  mkTradeRow
    (mkBtRow (mkTick i (d * 86400 + s) d s ((b + a) / 2) 1 (inject_Z i) 100 b 5 a 5
                     ((b + a) / 2) s [])
             al) t.

Definition trades : list TradeRow :=
  [ tr 0 1 34200 100 102 2 1;
    tr 1 1 34203 100 102 0 0;
    tr 2 1 34205 102 104 (-2) (-1);
    tr 3 1 34250 104 106 0 0;
    tr 4 2 34200 100 102 (-2) (-1);
    tr 5 2 34204 100 102 2 1;
    tr 6 2 34210 101 103 2 1 ].

(** The scenario of a 60-second holding period. *)
Definition config60 : Config :=
  {| response_column := "tick_move";
     feature_column := ["ofi"%string];
     feature_freq := [60];
     feature_winsorize_prob := [("ofi"%string, 0.01%Q)];
     feature_winsorize_bound := [("ofi"%string, 10%Q)];
     response_winsorize_prob := 0.01%Q;
     response_winsorize_bound := 10%Q;
     training_period := 2;
     holding_period := 60;
     trade_trigger_threshold := ((-1)%Q, 1%Q);
     start_second := 34200;
     end_second := 34210;
     use_mid := false;
     dynamic_unwinding := true;
     unwinding_tick_move_upper_bound := 1%Q;
     unwinding_tick_move_lower_bound := (-1)%Q;
     tick_size := 2%Q;
     transaction_fee := 0.0001%Q |}.

(** The same scenario with a tick size of 0. *)
Definition config_zero_tick : Config :=
  {| response_column := "tick_move";
     feature_column := ["ofi"%string];
     feature_freq := [60];
     feature_winsorize_prob := [("ofi"%string, 0.01%Q)];
     feature_winsorize_bound := [("ofi"%string, 10%Q)];
     response_winsorize_prob := 0.01%Q;
     response_winsorize_bound := 10%Q;
     training_period := 2;
     holding_period := 60;
     trade_trigger_threshold := ((-1)%Q, 1%Q);
     start_second := 34200;
     end_second := 34210;
     use_mid := false;
     dynamic_unwinding := true;
     unwinding_tick_move_upper_bound := 1%Q;
     unwinding_tick_move_lower_bound := (-1)%Q;
     tick_size := 0%Q;
     transaction_fee := 0.0001%Q |}.

(** The priced table of [trades] under the fixed-horizon policy. *)
Definition priced : list PnlRow :=
  match pnl trades config3 with
  | Ok out => out
  | Raise _ => []
  end.

(** A configuration whose lower threshold is above the upper one. *)
Definition config_swapped : Config :=
  {| response_column := "tick_move";
     feature_column := ["ofi"%string];
     feature_freq := [5; 10];
     feature_winsorize_prob := [("ofi"%string, 0.01%Q)];
     feature_winsorize_bound := [("ofi"%string, 10%Q)];
     response_winsorize_prob := 0.01%Q;
     response_winsorize_bound := 10%Q;
     training_period := 2;
     holding_period := 5;
     trade_trigger_threshold := (1%Q, (-1)%Q);
     start_second := 34200;
     end_second := 34210;
     use_mid := false;
     dynamic_unwinding := false;
     unwinding_tick_move_upper_bound := 1%Q;
     unwinding_tick_move_lower_bound := (-1)%Q;
     tick_size := 2%Q;
     transaction_fee := 0.0001%Q |}.

(** A row inside the trading window with alpha 0. *)
Definition row_inside : BtRow :=
  mkBtRow (tk 0 1 34205 100 102 (Some 1) (Some 1) (Some 1)) 0%Q.

End Sample.

(** ** Further sample inputs *)

Module Sample2.

(** [config3] with another training period. *)
Definition with_training_period (tp : Z) : Config :=
  {| response_column := response_column Sample.config3;
     feature_column := feature_column Sample.config3;
     feature_freq := feature_freq Sample.config3;
     feature_winsorize_prob := feature_winsorize_prob Sample.config3;
     feature_winsorize_bound := feature_winsorize_bound Sample.config3;
     response_winsorize_prob := response_winsorize_prob Sample.config3;
     response_winsorize_bound := response_winsorize_bound Sample.config3;
     training_period := tp;
     holding_period := holding_period Sample.config3;
     trade_trigger_threshold := trade_trigger_threshold Sample.config3;
     start_second := start_second Sample.config3;
     end_second := end_second Sample.config3;
     use_mid := use_mid Sample.config3;
     dynamic_unwinding := dynamic_unwinding Sample.config3;
     unwinding_tick_move_upper_bound := unwinding_tick_move_upper_bound Sample.config3;
     unwinding_tick_move_lower_bound := unwinding_tick_move_lower_bound Sample.config3;
     tick_size := tick_size Sample.config3;
     transaction_fee := transaction_fee Sample.config3 |}.

(** [config3] with a predictor that has no winsorize bound. *)
Definition config_missing : Config :=
  {| response_column := response_column Sample.config3;
     feature_column := ["ofi"%string; "oir"%string];
     feature_freq := feature_freq Sample.config3;
     feature_winsorize_prob := [("ofi"%string, 0.01%Q); ("oir"%string, 0.01%Q)];
     feature_winsorize_bound := [("ofi"%string, 10%Q)];
     response_winsorize_prob := response_winsorize_prob Sample.config3;
     response_winsorize_bound := response_winsorize_bound Sample.config3;
     training_period := 2;
     holding_period := holding_period Sample.config3;
     trade_trigger_threshold := trade_trigger_threshold Sample.config3;
     start_second := start_second Sample.config3;
     end_second := end_second Sample.config3;
     use_mid := use_mid Sample.config3;
     dynamic_unwinding := dynamic_unwinding Sample.config3;
     unwinding_tick_move_upper_bound := unwinding_tick_move_upper_bound Sample.config3;
     unwinding_tick_move_lower_bound := unwinding_tick_move_lower_bound Sample.config3;
     tick_size := tick_size Sample.config3;
     transaction_fee := transaction_fee Sample.config3 |}.

(** The two dates of [trades]. *)
Definition day1 : list TradeRow := rows_on 1 Sample.trades.
Definition day2 : list TradeRow := rows_on 2 Sample.trades.

(** A row of correlations with a missing value and a tie for the maximum. *)
Definition correlations : list (string * oQ) :=
  [("ofi_1_0"%string, None); ("ofi_5_0"%string, Some 0.2%Q);
   ("ofi_10_0"%string, Some 0.5%Q); ("ofi_20_0"%string, Some 0.5%Q)].

(** The table priced under the dynamic policy. *)
Definition priced_dynamic : list PnlRow :=
  match pnl Sample.trades Sample.config60 with
  | Ok out => out
  | Raise _ => []
  end.

(** A date on which two rows carry the index label 0. *)
Definition relabelled : list TradeRow :=
  [ Sample.tr 0 1 34200 100 102 2 1;
    Sample.tr 0 1 34205 102 104 0 0;
    Sample.tr 1 1 34210 102 104 0 0 ].

End Sample2.

(** * Properties *)

(** ** Comparisons on rationals *)

Lemma Qgtb_lt (x y : Q) : Qgtb x y = true <-> (y < x)%Q.
Proof.
  unfold Qgtb. rewrite negb_true_iff.
  split; intro H.
  - apply Qnot_le_lt. intro Hle. apply Qle_bool_iff in Hle. congruence.
  - destruct (Qle_bool x y) eqn:Hb; [|reflexivity].
    apply Qle_bool_iff in Hb. exfalso. exact (Qlt_not_le _ _ H Hb).
Qed.

Lemma Qltb_lt (x y : Q) : Qltb x y = true <-> (x < y)%Q.
Proof. unfold Qltb. exact (Qgtb_lt y x). Qed.

Lemma Qgtb_false (x y : Q) : Qgtb x y = false <-> ~ (y < x)%Q.
Proof.
  rewrite <- Qgtb_lt. destruct (Qgtb x y); split; congruence.
Qed.

Lemma Qltb_false (x y : Q) : Qltb x y = false <-> ~ (x < y)%Q.
Proof. unfold Qltb. exact (Qgtb_false y x). Qed.

(** ** Trade decision engine *)

Lemma trade_signal_cases (config : Config) (r : BtRow) :
  (trade_signal config r = -1 <->
     (alpha r < fst (trade_trigger_threshold config))%Q /\ in_window config r)
  /\ (trade_signal config r = 1 <->
        (snd (trade_trigger_threshold config) < alpha r)%Q
        /\ ~ (alpha r < fst (trade_trigger_threshold config))%Q
        /\ in_window config r)
  /\ (trade_signal config r = 0 \/ trade_signal config r = 1
      \/ trade_signal config r = -1).
Proof.
  unfold trade_signal, in_window.
  destruct (Qgtb (alpha r) (snd (trade_trigger_threshold config))) eqn:Hup;
    [apply Qgtb_lt in Hup | apply Qgtb_false in Hup];
  (destruct (Qltb (alpha r) (fst (trade_trigger_threshold config))) eqn:Hlo;
    [apply Qltb_lt in Hlo | apply Qltb_false in Hlo]);
  destruct (Z.ltb_spec (end_second config) (second (tick r)));
  destruct (Z.ltb_spec (second (tick r)) (start_second config));
  repeat split; intros; try tauto; try lia; try discriminate.
Qed.

(** With the thresholds in order the sell case cannot mask the buy case. *)
Lemma trade_signal_ordered (config : Config) (r : BtRow) :
  (fst (trade_trigger_threshold config) <= snd (trade_trigger_threshold config))%Q ->
  (trade_signal config r = 1 <->
     (snd (trade_trigger_threshold config) < alpha r)%Q /\ in_window config r).
Proof.
  intros Hord. destruct (trade_signal_cases config r) as [_ [Hp _]].
  rewrite Hp. split; [tauto|]. intros [Hup Hw].
  split; [exact Hup|]. split; [|exact Hw].
  intro Hlo. apply (Qlt_irrefl (alpha r)).
  eapply Qlt_trans; [exact Hlo|]. eapply Qle_lt_trans; eassumption.
Qed.

(** C5: with a lower trigger threshold that does not exceed the upper one,
    [trade] leaves the rows of the table as they are and gives every row
    trade = +1 exactly when alpha is above the upper threshold and the
    second lies in [start_second, end_second], trade = -1 exactly when
    alpha is below the lower threshold and the second lies in the window,
    and trade = 0 exactly in every other case; in particular trade = 0
    whenever the second is outside the window, whatever alpha is. *)
Theorem trade_decision (btdf : list BtRow) (config : Config) :
  (fst (trade_trigger_threshold config) <= snd (trade_trigger_threshold config))%Q ->
  map bt (trade btdf config) = btdf
  /\ Forall (fun t =>
       let lower := fst (trade_trigger_threshold config) in
       let upper := snd (trade_trigger_threshold config) in
       (trade_ t = 1 <-> (upper < alpha (bt t))%Q /\ in_window config (bt t))
       /\ (trade_ t = -1 <-> (alpha (bt t) < lower)%Q /\ in_window config (bt t))
       /\ (trade_ t = 0 <->
             ~ ((upper < alpha (bt t))%Q /\ in_window config (bt t))
             /\ ~ ((alpha (bt t) < lower)%Q /\ in_window config (bt t)))
       /\ (~ in_window config (bt t) -> trade_ t = 0))
     (trade btdf config).
Proof.
  intros Hord. split.
  - unfold trade. rewrite map_map. simpl. apply map_id.
  - unfold trade. apply Forall_forall. intros t Ht.
    apply in_map_iff in Ht. destruct Ht as [r [<- _]]. simpl.
    destruct (trade_signal_cases config r) as [Hm [_ Hv]].
    pose proof (trade_signal_ordered config r Hord) as Hp.
    split; [exact Hp|]. split; [exact Hm|]. split.
    + rewrite <- Hm, <- Hp. lia.
    + intros Hout. destruct Hv as [Hv | [Hv | Hv]]; [exact Hv | | ].
      * apply Hp in Hv. tauto.
      * apply Hm in Hv. tauto.
Qed.

(** The order of the thresholds is needed: with thresholds (1, -1), alpha 0
    is above the upper threshold and below the lower one inside the trading
    window, and the sell assignment, which runs second, wins. *)
Example sell_assignment_runs_second :
  trade [Sample.row_inside] Sample.config_swapped
  = [mkTradeRow Sample.row_inside (-1)].
Proof. reflexivity. Qed.

(** ** The error monad *)

Lemma bind_Ok {A B : Type} (m : Result A) (k : A -> Result B) (b : B) :
  bind m k = Ok b -> exists a, m = Ok a /\ k a = Ok b.
Proof. destruct m as [a|e]; simpl; intros H; [eauto | discriminate]. Qed.

Lemma mapM_pure {A B : Type} (f : A -> Result B) (g : A -> B) (l : list A) :
  (forall a, In a l -> f a = Ok (g a)) -> mapM f l = Ok (map g l).
Proof.
  induction l as [|a l IH]; intros H; simpl; [reflexivity|].
  rewrite (H a (or_introl eq_refl)). simpl.
  rewrite IH by (intros; apply H; now right). reflexivity.
Qed.

Lemma mapM_Ok_length {A B : Type} (f : A -> Result B) (l : list A) (bs : list B) :
  mapM f l = Ok bs -> length bs = length l.
Proof.
  revert bs. induction l as [|a l IH]; simpl; intros bs H.
  - inversion H. reflexivity.
  - apply bind_Ok in H. destruct H as [b [_ H]].
    apply bind_Ok in H. destruct H as [bs' [Hbs H]].
    inversion H. simpl. f_equal. now apply IH.
Qed.

(** ** The sorted list of distinct dates *)

Lemma In_insert_uniq (d x : Z) (l : list Z) :
  In x (insert_uniq d l) <-> x = d \/ In x l.
Proof.
  induction l as [|y l IH]; simpl.
  - intuition.
  - destruct (Z.ltb_spec d y); [simpl; intuition|].
    destruct (Z.eqb_spec d y); [subst; simpl; intuition|].
    simpl. rewrite IH. intuition.
Qed.

Lemma In_sorted_set (x : Z) (l : list Z) : In x (sorted_set l) <-> In x l.
Proof.
  induction l as [|y l IH]; simpl; [tauto|].
  rewrite In_insert_uniq, IH. intuition.
Qed.

Lemma HdRel_insert_uniq (a d : Z) (l : list Z) :
  a < d -> HdRel Z.lt a l -> HdRel Z.lt a (insert_uniq d l).
Proof.
  intros Had Hl. destruct l as [|y l]; simpl.
  - now constructor.
  - inversion Hl; subst.
    destruct (Z.ltb_spec d y); [now constructor|].
    destruct (Z.eqb_spec d y); now constructor.
Qed.

Lemma Sorted_insert_uniq (d : Z) (l : list Z) :
  Sorted Z.lt l -> Sorted Z.lt (insert_uniq d l).
Proof.
  induction l as [|y l IH]; simpl; intros Hs.
  - repeat constructor.
  - destruct (Z.ltb_spec d y).
    + constructor; [exact Hs | now constructor].
    + destruct (Z.eqb_spec d y); [exact Hs|].
      inversion Hs; subst. constructor; [now apply IH|].
      apply HdRel_insert_uniq; [lia | assumption].
Qed.

Lemma Sorted_sorted_set (l : list Z) : Sorted Z.lt (sorted_set l).
Proof.
  induction l as [|y l IH]; simpl; [constructor | now apply Sorted_insert_uniq].
Qed.

Lemma StronglySorted_sorted_set (l : list Z) : StronglySorted Z.lt (sorted_set l).
Proof.
  apply Sorted_StronglySorted; [intros x y z; lia | apply Sorted_sorted_set].
Qed.

Lemma StronglySorted_lt_NoDup (l : list Z) : StronglySorted Z.lt l -> NoDup l.
Proof.
  induction 1 as [|a l Hs IH Hall]; constructor; [|exact IH].
  intro Hin. rewrite Forall_forall in Hall. specialize (Hall _ Hin). lia.
Qed.

Lemma NoDup_sorted_set (l : list Z) : NoDup (sorted_set l).
Proof. apply StronglySorted_lt_NoDup, StronglySorted_sorted_set. Qed.

(** ** Grouping a table by date *)

Section Grouping.
Context {A : Type} (key : A -> Z).

Lemma group_lengths (ds : list Z) (l : list A) :
  NoDup ds ->
  length (flat_map (fun d => filter (fun r => key r =? d) l) ds)
  = length (filter (fun r => existsb (Z.eqb (key r)) ds) l).
Proof.
  intros Hnd. induction Hnd as [|d ds Hnin Hnd IH]; simpl.
  - induction l; simpl; auto.
  - rewrite length_app, IH. clear IH.
    induction l as [|r l IHl]; simpl; [reflexivity|].
    destruct (Z.eqb_spec (key r) d) as [->|Hne]; simpl.
    + replace (existsb (Z.eqb d) ds) with false.
      * simpl. now rewrite IHl.
      * symmetry. apply not_true_is_false. intro Hex.
        apply existsb_exists in Hex. destruct Hex as [x [Hx Hxe]].
        apply Z.eqb_eq in Hxe. subst. contradiction.
    + destruct (existsb (Z.eqb (key r)) ds); simpl; lia.
Qed.

Lemma group_lengths_sorted_set (l : list A) :
  length (flat_map (fun d => filter (fun r => key r =? d) l) (sorted_set (map key l)))
  = length l.
Proof.
  rewrite group_lengths by apply NoDup_sorted_set.
  f_equal. apply forallb_filter_id. apply forallb_forall. intros r Hr.
  apply existsb_exists. exists (key r). split; [|apply Z.eqb_refl].
  apply In_sorted_set. now apply in_map.
Qed.

End Grouping.

Lemma mapM_total {A B : Type} (f : A -> Result B) (l : list A) :
  (forall a, In a l -> exists b, f a = Ok b) -> exists bs, mapM f l = Ok bs.
Proof.
  induction l as [|a l IH]; intros H; simpl; [eauto|].
  destruct (H a (or_introl eq_refl)) as [b ->]. simpl.
  destruct IH as [bs ->]; [intros; apply H; now right|]. simpl. eauto.
Qed.

Lemma mapM_Forall2 {A B : Type} (f : A -> Result B) (l : list A) (bs : list B) :
  mapM f l = Ok bs -> Forall2 (fun a b => f a = Ok b) l bs.
Proof.
  revert bs. induction l as [|a l IH]; simpl; intros bs H.
  - inversion H. constructor.
  - apply bind_Ok in H. destruct H as [b [Hb H]].
    apply bind_Ok in H. destruct H as [bs' [Hbs H]].
    inversion H. constructor; [exact Hb | now apply IH].
Qed.

Lemma length_concat_Forall2 {A B C : Type} (f : A -> list C) (l : list A)
    (bs : list (list B)) :
  Forall2 (fun a b => length b = length (f a)) l bs ->
  length (concat bs) = length (flat_map f l).
Proof.
  induction 1 as [|a b l bs Hab _ IH]; simpl; [reflexivity|].
  rewrite !length_app. congruence.
Qed.

(** ** Lengths of the matched columns *)

Lemma fixed_day_close_length (bti : list TradeRow) (config : Config) :
  length (fixed_day_close bti config) = length bti.
Proof. unfold fixed_day_close. now rewrite !length_map. Qed.

Lemma get_fixed_period_close_second_length (btdf : list TradeRow) (config : Config) :
  length (get_fixed_period_close_second btdf config) = length btdf.
Proof.
  unfold get_fixed_period_close_second.
  rewrite <- (group_lengths_sorted_set t_date btdf) at 1.
  induction (sorted_set (map t_date btdf)) as [|d ds IH]; simpl; [reflexivity|].
  rewrite !length_app, IH, fixed_day_close_length. reflexivity.
Qed.

Lemma last_label_nonempty (bti : list TradeRow) (r : TradeRow) :
  In r bti -> last_label bti = Ok (t_idx (last bti r)).
Proof.
  intros Hin. unfold last_label.
  destruct bti as [|a l] using rev_ind; [contradiction|].
  rewrite rev_app_distr, last_last. reflexivity.
Qed.

Lemma set_column_Ok {A B C : Type} (f : A -> B -> C) (tbl : list A) (values : list B) :
  length values = length tbl ->
  set_column f tbl values
  = Ok (map (fun ab => f (fst ab) (snd ab)) (combine tbl values)).
Proof. intros H. unfold set_column. now rewrite H, Nat.eqb_refl. Qed.

(** ** PnL *)

Lemma left_join_In (l : list OpenRow) (r : list CloseTick) (j : JoinedRow) :
  In j (left_join l r) ->
  In (j_open j) l
  /\ match j_close j with
     | Some c => In c r /\ join_key_eqb (j_open j) c = true
     | None => forall c, In c r -> join_key_eqb (j_open j) c = false
     end.
Proof.
  unfold left_join. intros Hj. apply in_flat_map in Hj.
  destruct Hj as [o [Ho Hj]]. 
  destruct (filter (join_key_eqb o) r) as [|c0 ms] eqn:Hf.
  - destruct Hj as [<- | []]. simpl. split; [exact Ho|].
    intros c Hc. destruct (join_key_eqb o c) eqn:Hk; [|reflexivity].
    assert (Hin : In c (filter (join_key_eqb o) r)) by (apply filter_In; auto).
    rewrite Hf in Hin. contradiction.
  - apply in_map_iff in Hj. destruct Hj as [c [<- Hc]]. simpl.
    split; [exact Ho|]. rewrite <- Hf in Hc. apply filter_In in Hc. exact Hc.
Qed.

Lemma left_join_keeps (l : list OpenRow) (r : list CloseTick) (o : OpenRow) :
  In o l -> exists j, In j (left_join l r) /\ j_open j = o.
Proof.
  intros Ho. unfold left_join.
  destruct (filter (join_key_eqb o) r) as [|c0 ms] eqn:Hf.
  - exists (mkJoinedRow o None). split; [|reflexivity].
    apply in_flat_map. exists o. rewrite Hf. simpl. auto.
  - exists (mkJoinedRow o (Some c0)). split; [|reflexivity].
    apply in_flat_map. exists o. rewrite Hf. simpl. auto.
Qed.

Lemma In_combine_fst {A B : Type} (l : list A) (m : list B) (a : A) :
  length m = length l -> In a l -> exists b, In (a, b) (combine l m).
Proof.
  revert m. induction l as [|x l IH]; intros [|y m] Hl Ha; simpl in *;
    try contradiction; try discriminate.
  destruct Ha as [-> | Ha]; [eauto|].
  destruct (IH m) as [b Hb]; [lia | exact Ha | eauto].
Qed.

(** ** Binary search *)

Lemma StronglySorted_nth_le (a : list Z) (i j : nat) :
  StronglySorted Z.le a -> (i <= j < length a)%nat -> nth i a 0 <= nth j a 0.
Proof.
  intros Hs. revert i j. induction Hs as [|x a Hs IH Hall]; intros i j Hij.
  - simpl in Hij. lia.
  - destruct i as [|i], j as [|j]; simpl in *; try lia.
    + rewrite Forall_forall in Hall. apply Hall. apply nth_In. lia.
    + apply IH. lia.
Qed.

Lemma bsearch_step (fuel : nat) (a : list Z) (key : Z) (lo hi : nat) :
  bsearch (S fuel) a key lo hi
  = if (lo <? hi)%nat then
      if nth (lo + (hi - lo) / 2) a 0 <? key
      then bsearch fuel a key (lo + (hi - lo) / 2 + 1)%nat hi
      else bsearch fuel a key lo (lo + (hi - lo) / 2)%nat
    else lo.
Proof. reflexivity. Qed.

Lemma bsearch_spec (fuel : nat) (a : list Z) (key : Z) (lo hi : nat) :
  StronglySorted Z.le a ->
  (lo <= hi <= length a)%nat ->
  (hi - lo <= fuel)%nat ->
  (forall j, (j < lo)%nat -> nth j a 0 < key) ->
  (forall j, (hi <= j < length a)%nat -> key <= nth j a 0) ->
  (bsearch fuel a key lo hi <= length a)%nat
  /\ (forall j, (j < bsearch fuel a key lo hi)%nat -> nth j a 0 < key)
  /\ (forall j, (bsearch fuel a key lo hi <= j < length a)%nat -> key <= nth j a 0).
Proof.
  intros Hs. revert lo hi.
  induction fuel as [|fuel IH]; intros lo hi Hb Hf Hlo Hhi.
  - simpl. assert (lo = hi) by lia. subst. repeat split; auto; lia.
  - rewrite bsearch_step.
    destruct (Nat.ltb_spec lo hi) as [Hlt|Hge].
    + assert (Hm : (lo <= lo + (hi - lo) / 2 < hi)%nat).
      { pose proof (Nat.Div0.div_lt_upper_bound (hi - lo) 2 (hi - lo)). lia. }
      set (m := (lo + (hi - lo) / 2)%nat) in *.
      destruct (Z.ltb_spec (nth m a 0) key) as [Hk|Hk].
      * apply IH; try lia; [|exact Hhi].
        intros j Hj. destruct (Nat.lt_ge_cases j lo) as [Hjl|Hjl]; [auto|].
        pose proof (StronglySorted_nth_le a j m Hs). lia.
      * apply IH; try lia; [exact Hlo|].
        intros j Hj. pose proof (StronglySorted_nth_le a m j Hs). lia.
    + assert (lo = hi) by lia. subst. repeat split; auto; lia.
Qed.

Lemma searchsorted_spec (a : list Z) (key : Z) :
  StronglySorted Z.le a ->
  (searchsorted a key <= length a)%nat
  /\ (forall j, (j < searchsorted a key)%nat -> nth j a 0 < key)
  /\ (forall j, (searchsorted a key <= j < length a)%nat -> key <= nth j a 0).
Proof.
  intros Hs. unfold searchsorted. apply bsearch_spec; auto; try lia.
Qed.

Lemma find_nth_error {A : Type} (p : A -> bool) (l : list A) (i : nat) :
  (forall j x, (j < i)%nat -> nth_error l j = Some x -> p x = false) ->
  (forall x, nth_error l i = Some x -> p x = true) ->
  find p l = nth_error l i.
Proof.
  revert i. induction l as [|a l IH]; intros i Hlt Hi.
  - now destruct i.
  - destruct i as [|i]; simpl.
    + now rewrite (Hi a eq_refl).
    + rewrite (Hlt 0%nat a) by (simpl; auto; lia).
      apply IH; [|exact Hi]. intros j x Hj Hx. apply (Hlt (S j)); [lia | exact Hx].
Qed.

(** ** Fixed-horizon policy, one date *)

Lemma nth_map_of_nth_error {A : Type} (f : A -> Z) (l : list A) (j : nat) (x : A) :
  nth_error l j = Some x -> nth j (map f l) 0 = f x.
Proof.
  intros H. apply nth_error_nth. now apply map_nth_error.
Qed.

Lemma nth_last_map {A : Type} (f : A -> Z) (l : list A) (r : A) :
  l <> [] -> nth (length l - 1) (map f l) 0 = f (last l r).
Proof.
  intros Hne. destruct l as [|a l] using rev_ind; [contradiction|].
  rewrite last_last, length_app, map_app. simpl.
  rewrite app_nth2; rewrite length_map; [|lia].
  replace (length l + 1 - 1 - length l)%nat with 0%nat by lia. reflexivity.
Qed.

Lemma fixed_day_close_spec (bti : list TradeRow) (config : Config) :
  StronglySorted Z.le (map t_second bti) ->
  fixed_day_close bti config
  = map (fun r =>
           match find (fun c => t_second r + holding_period config <=? t_second c) bti with
           | Some c => t_second c
           | None => t_second (last bti r)
           end) bti.
Proof.
  intros Hs. unfold fixed_day_close.
  rewrite !length_map, !map_map.
  apply map_ext_in. intros r Hr.
  set (key := t_second r + holding_period config).
  destruct (searchsorted_spec (map t_second bti) key Hs) as [Hle [Hlt Hge]].
  rewrite length_map in Hle, Hge.
  set (k := searchsorted (map t_second bti) key) in *.
  assert (Hfind : find (fun c => key <=? t_second c) bti = nth_error bti k).
  { apply find_nth_error.
    - intros j x Hj Hx. apply Z.leb_gt.
      rewrite <- (nth_map_of_nth_error t_second bti j x Hx). now apply Hlt.
    - intros x Hx. apply Z.leb_le.
      rewrite <- (nth_map_of_nth_error t_second bti k x Hx). apply Hge.
      split; [lia|]. apply nth_error_Some. congruence. }
  rewrite Hfind.
  destruct (Nat.eqb_spec k (length bti)) as [Hk|Hk].
  - rewrite Hk. rewrite (proj2 (nth_error_None bti (length bti))) by lia.
    apply nth_last_map. intro He. subst bti. contradiction.
  - destruct (nth_error bti k) as [c|] eqn:Hc.
    + now apply nth_map_of_nth_error.
    + apply nth_error_None in Hc. lia.
Qed.

(** ** A table in date order is the concatenation of its dates *)

Lemma flat_map_ext_In {A B : Type} (f g : A -> list B) (l : list A) :
  (forall a, In a l -> f a = g a) -> flat_map f l = flat_map g l.
Proof.
  induction l as [|a l IH]; intros H; simpl; [reflexivity|].
  rewrite (H a (or_introl eq_refl)), IH; [reflexivity|].
  intros; apply H; now right.
Qed.

Lemma flat_map_map_comm {A B C : Type} (f : A -> list B) (g : B -> C) (l : list A) :
  flat_map (fun a => map g (f a)) l = map g (flat_map f l).
Proof.
  induction l as [|a l IH]; simpl; [reflexivity|].
  now rewrite map_app, IH.
Qed.

Section DateOrder.
Context {A : Type} (key : A -> Z).

Lemma filter_key_none (d : Z) (l : list A) :
  (forall r, In r l -> key r <> d) -> filter (fun r => key r =? d) l = [].
Proof.
  induction l as [|a l IH]; intros H; simpl; [reflexivity|].
  destruct (Z.eqb_spec (key a) d) as [He|_].
  - exfalso. apply (H a); [now left | exact He].
  - apply IH. intros; apply H; now right.
Qed.

Lemma filter_key_cons_other (d : Z) (r : A) (l : list A) :
  key r <> d ->
  filter (fun r0 => key r0 =? d) (r :: l) = filter (fun r0 => key r0 =? d) l.
Proof. intros H. simpl. apply Z.eqb_neq in H. now rewrite H. Qed.

Lemma filter_key_cons_same (r : A) (l : list A) :
  filter (fun r0 => key r0 =? key r) (r :: l)
  = r :: filter (fun r0 => key r0 =? key r) l.
Proof. simpl. now rewrite Z.eqb_refl. Qed.

(** A scan [S] whose entry for a row depends on the later rows of the same
    key can be run key by key on a table in key order. *)
Lemma group_scan {B : Type} (S : list A -> list B) (e : A -> list A -> B) (l : list A) :
  S [] = [] ->
  (forall r l', S (r :: l') = e r (filter (fun x => key x =? key r) l') :: S l') ->
  key_sorted key l ->
  flat_map (fun d => S (filter (fun r => key r =? d) l)) (sorted_set (map key l)) = S l.
Proof.
  intros Hnil Hcons.
  induction 1 as [|r l Hs IH Hall]; [now rewrite Hnil|].
  rewrite Forall_forall in Hall.
  assert (Hge : forall d, In d (sorted_set (map key l)) -> key r <= d).
  { intros d Hd. apply In_sorted_set, in_map_iff in Hd.
    destruct Hd as [x [<- Hx]]. now apply Hall. }
  assert (Hext : forall ds, (forall d, In d ds -> key r <> d) ->
            flat_map (fun d => S (filter (fun r0 => key r0 =? d) (r :: l))) ds
            = flat_map (fun d => S (filter (fun r0 => key r0 =? d) l)) ds).
  { intros ds Hds. apply flat_map_ext_In. intros d Hd.
    rewrite filter_key_cons_other; [reflexivity | now apply Hds]. }
  assert (Hidem : filter (fun x => key x =? key r) (filter (fun x => key x =? key r) l)
                  = filter (fun x => key x =? key r) l).
  { apply forallb_filter_id, forallb_filter. }
  pose proof (StronglySorted_sorted_set (map key l)) as Hss.
  assert (Hmem : forall y, In y l -> In (key y) (sorted_set (map key l))).
  { intros y Hy. apply In_sorted_set. now apply in_map. }
  change (sorted_set (map key (r :: l)))
    with (insert_uniq (key r) (sorted_set (map key l))).
  destruct (sorted_set (map key l)) as [|x ds].
  - assert (l = []).
    { destruct l as [|y l']; [reflexivity|]. destruct (Hmem y (or_introl eq_refl)). }
    subst l. simpl. rewrite Z.eqb_refl, app_nil_r. reflexivity.
  - assert (Hx : key r <= x) by (apply Hge; now left).
    assert (Hrest : forall d, In d ds -> key r <> d).
    { intros d Hd. inversion Hss as [|? ? _ Hfa]; subst.
      rewrite Forall_forall in Hfa. specialize (Hfa d Hd). lia. }
    cbn [insert_uniq].
    destruct (Z.ltb_spec (key r) x) as [Hlt|Hnlt].
    + assert (Hne : forall d, In d (x :: ds) -> key r <> d).
      { intros d [<- | Hd]; [lia | now apply Hrest]. }
      assert (Hnone : filter (fun x0 => key x0 =? key r) l = []).
      { apply filter_key_none. intros y Hy He.
        apply (Hne (key y)); [now apply Hmem | now symmetry]. }
      change (flat_map (fun d => S (filter (fun r0 => key r0 =? d) (r :: l)))
                       (key r :: x :: ds))
        with (S (filter (fun r0 => key r0 =? key r) (r :: l))
              ++ flat_map (fun d => S (filter (fun r0 => key r0 =? d) (r :: l)))
                          (x :: ds)).
      rewrite (Hext _ Hne), IH, filter_key_cons_same, !Hcons, Hidem, Hnone, Hnil.
      reflexivity.
    + assert (He : x = key r) by lia. subst x.
      rewrite Z.eqb_refl.
      change (flat_map (fun d => S (filter (fun r0 => key r0 =? d) (r :: l)))
                       (key r :: ds))
        with (S (filter (fun r0 => key r0 =? key r) (r :: l))
              ++ flat_map (fun d => S (filter (fun r0 => key r0 =? d) (r :: l))) ds).
      rewrite (Hext _ Hrest), filter_key_cons_same, !Hcons, Hidem.
      simpl. f_equal. exact IH.
Qed.

Lemma group_by_key (l : list A) :
  key_sorted key l ->
  flat_map (fun d => filter (fun r => key r =? d) l) (sorted_set (map key l)) = l.
Proof.
  intros Hs. exact (group_scan (fun l => l) (fun r _ => r) l eq_refl (fun _ _ => eq_refl) Hs).
Qed.

End DateOrder.

(** ** Fixed-horizon policy, whole table *)

Lemma StronglySorted_filter {A : Type} (R : A -> A -> Prop) (p : A -> bool) (l : list A) :
  StronglySorted R l -> StronglySorted R (filter p l).
Proof.
  induction 1 as [|a l Hs IH Hall]; simpl; [constructor|].
  destruct (p a); [|exact IH].
  constructor; [exact IH|].
  rewrite Forall_forall in *. intros x Hx. apply filter_In in Hx. now apply Hall.
Qed.

Lemma StronglySorted_map_In {A B : Type} (R : A -> A -> Prop) (R' : B -> B -> Prop)
    (f : A -> B) (l : list A) :
  (forall a b, In a l -> In b l -> R a b -> R' (f a) (f b)) ->
  StronglySorted R l -> StronglySorted R' (map f l).
Proof.
  intros Himp Hs. induction Hs as [|a l Hs IH Hall]; simpl; constructor.
  - apply IH. intros x y Hx Hy. apply Himp; now right.
  - rewrite Forall_forall in *. intros y Hy.
    apply in_map_iff in Hy. destruct Hy as [x [<- Hx]].
    apply Himp; [now left | now right | now apply Hall].
Qed.

Lemma ordered_table_dates (btdf : list TradeRow) :
  ordered_table btdf -> key_sorted t_date btdf.
Proof.
  intros Hs. unfold key_sorted.
  rewrite <- (map_id btdf).
  apply (StronglySorted_map_In row_le _ (fun r => r)); [|exact Hs].
  intros a b _ _ [Hlt | [He _]]; lia.
Qed.

Lemma ordered_table_seconds (btdf : list TradeRow) (d : Z) :
  ordered_table btdf -> StronglySorted Z.le (map t_second (rows_on d btdf)).
Proof.
  intros Hs. apply (StronglySorted_map_In row_le).
  - intros a b Ha Hb Hab. apply filter_In in Ha, Hb.
    destruct Ha as [_ Ha], Hb as [_ Hb]. apply Z.eqb_eq in Ha, Hb.
    destruct Hab as [Hlt | [_ Hle]]; lia.
  - now apply StronglySorted_filter.
Qed.

Lemma find_first {A : Type} (p : A -> bool) (l : list A) (c : A) :
  find p l = Some c ->
  exists pre post, l = pre ++ c :: post /\ p c = true
                   /\ forall x, In x pre -> p x = false.
Proof.
  induction l as [|a l IH]; simpl; [discriminate|].
  destruct (p a) eqn:Hpa.
  - intros H. inversion H; subst. exists [], l. simpl. intuition.
  - intros H. destruct (IH H) as [pre [post [-> [Hc Hpre]]]].
    exists (a :: pre), post. simpl. repeat split; auto.
    intros x [<- | Hx]; auto.
Qed.

Lemma get_fixed_period_close_second_map (btdf : list TradeRow) (config : Config) :
  ordered_table btdf ->
  get_fixed_period_close_second btdf config = map (fixed_close_of config btdf) btdf.
Proof.
  intros Hord. unfold get_fixed_period_close_second.
  transitivity (flat_map (fun d => map (fixed_close_of config btdf) (rows_on d btdf))
                         (sorted_set (map t_date btdf))).
  - apply flat_map_ext_In. intros d _.
    rewrite fixed_day_close_spec by now apply ordered_table_seconds.
    apply map_ext_in. intros r Hr. unfold fixed_close_of.
    apply filter_In in Hr. destruct Hr as [_ Hr]. apply Z.eqb_eq in Hr.
    rewrite Hr. reflexivity.
  - rewrite flat_map_map_comm. f_equal.
    apply (group_by_key t_date). now apply ordered_table_dates.
Qed.

(** C3: on a table in (date, second) order the list returned by
    [get_fixed_period_close_second] gives every row, position by position,
    the second of the first tick of the row's date whose second is at least
    the open second plus holding_period, and the second of the date's last
    tick when the date has no such tick. *)
Theorem fixed_close_second_matched (btdf : list TradeRow) (config : Config) :
  ordered_table btdf ->
  get_fixed_period_close_second btdf config = map (fixed_close_of config btdf) btdf
  /\ Forall (fun r =>
       let day := filter (fun c => t_date c =? t_date r) btdf in
       let target := t_second r + holding_period config in
       let m := fixed_close_of config btdf r in
       (exists pre c post,
           day = pre ++ c :: post
           /\ (forall x, In x pre -> t_second x < target)
           /\ target <= t_second c
           /\ m = t_second c)
       \/ ((forall x, In x day -> t_second x < target)
           /\ m = t_second (last day r)))
     btdf.
Proof.
  intros Hord. split; [now apply get_fixed_period_close_second_map|].
  apply Forall_forall. intros r _. cbv zeta. unfold fixed_close_of.
  destruct (find _ _) as [c|] eqn:Hf.
  - left. apply find_first in Hf. destruct Hf as [pre [post [Hd [Hc Hpre]]]].
    exists pre, c, post. apply Z.leb_le in Hc.
    repeat split; auto. intros x Hx. apply Z.leb_gt. now apply Hpre.
  - right. split; [|reflexivity].
    intros x Hx. apply Z.leb_gt. exact (find_none _ _ Hf x Hx).
Qed.

(** ** Dynamic-unwind policy, one date *)

Lemma mapM_map {A B C : Type} (f : B -> Result C) (g : A -> B) (l : list A) :
  mapM f (map g l) = mapM (fun a => f (g a)) l.
Proof.
  induction l as [|a l IH]; simpl; [reflexivity | now rewrite IH].
Qed.

Lemma find_app_skip {A : Type} (p : A -> bool) (pre l : list A) :
  (forall x, In x pre -> p x = false) -> find p (pre ++ l) = find p l.
Proof.
  induction pre as [|a pre IH]; intros H; simpl; [reflexivity|].
  rewrite (H a (or_introl eq_refl)). apply IH. intros; apply H; now right.
Qed.

Lemma filter_none {A : Type} (p : A -> bool) (l : list A) :
  (forall x, In x l -> p x = false) -> filter p l = [].
Proof.
  induction l as [|a l IH]; intros H; simpl; [reflexivity|].
  rewrite (H a (or_introl eq_refl)). apply IH. intros; apply H; now right.
Qed.

Lemma filter_head_find {A : Type} (p : A -> bool) (l : list A) :
  match filter p l with
  | c :: _ => find p l = Some c
  | [] => find p l = None
  end.
Proof.
  induction l as [|a l IH]; simpl; [reflexivity|].
  destruct (p a); simpl; [reflexivity | exact IH].
Qed.

Lemma last_app_cons {A : Type} (pre post : list A) (r d : A) :
  last (pre ++ r :: post) d = last post r.
Proof.
  induction pre as [|a pre IH]; simpl.
  - revert r. induction post as [|b post IHp]; intros r; [reflexivity|].
    simpl in *. destruct post; [reflexivity | apply IHp].
  - destruct (pre ++ r :: post) eqn:He; [|exact IH].
    destruct pre; discriminate.
Qed.

Lemma labels_split (pre post : list TradeRow) (r : TradeRow) :
  labels_increasing (pre ++ r :: post) ->
  (forall c, In c pre -> t_idx c < t_idx r)
  /\ (forall c, In c post -> t_idx r < t_idx c).
Proof.
  unfold labels_increasing. induction pre as [|a pre IH]; simpl; intros Hs.
  - inversion Hs as [|? ? _ Hall]; subst. rewrite Forall_forall in Hall.
    split; [intros c [] | exact Hall].
  - inversion Hs as [|? ? Hs' Hall]; subst. rewrite Forall_forall in Hall.
    destruct (IH Hs') as [Hpre Hpost]. split; [|exact Hpost].
    intros c [<- | Hc]; [|now apply Hpre].
    apply Hall. apply in_or_app. right. now left.
Qed.

Lemma labels_increasing_NoDup (bti : list TradeRow) :
  labels_increasing bti -> NoDup (map t_idx bti).
Proof.
  unfold labels_increasing. induction 1 as [|a l _ IH Hall]; simpl; constructor.
  - intro Hin. apply in_map_iff in Hin. destruct Hin as [x [He Hx]].
    rewrite Forall_forall in Hall. specialize (Hall x Hx). lia.
  - exact IH.
Qed.

Lemma rows_at_unique (bti : list TradeRow) (r : TradeRow) :
  NoDup (map t_idx bti) -> In r bti -> rows_at (t_idx r) bti = [r].
Proof.
  unfold rows_at. induction bti as [|a l IH]; simpl; intros Hnd Hin; [contradiction|].
  inversion Hnd as [|? ? Hnot Hnd']; subst.
  destruct Hin as [-> | Hin].
  - rewrite Z.eqb_refl. f_equal. apply filter_none. intros x Hx.
    apply Z.eqb_neq. intro He. apply Hnot. rewrite <- He. now apply in_map.
  - destruct (Z.eqb_spec (t_idx a) (t_idx r)) as [He | Hne].
    + exfalso. apply Hnot. rewrite He. now apply in_map.
    + now apply IH.
Qed.

Lemma loc_unique (bti : list TradeRow) (r : TradeRow) :
  NoDup (map t_idx bti) -> In r bti -> loc (t_idx r) bti = Ok r.
Proof. intros Hnd Hin. unfold loc. now rewrite rows_at_unique. Qed.

Lemma find_label (bti : list TradeRow) (c : TradeRow) :
  labels_increasing bti -> In c bti ->
  find (fun r => t_idx r =? t_idx c) bti = Some c.
Proof.
  intros Hs Hc. apply in_split in Hc. destruct Hc as [pre [post ->]].
  destruct (labels_split pre post c Hs) as [Hpre _].
  rewrite find_app_skip.
  - simpl. now rewrite Z.eqb_refl.
  - intros x Hx. apply Z.eqb_neq. specialize (Hpre x Hx). lia.
Qed.

Lemma last_In {A : Type} (l : list A) (d : A) : In (last l d) (d :: l).
Proof.
  induction l as [|a l IH]; [now left|].
  destruct l as [|b l']; [right; now left|].
  change (last (a :: b :: l') d) with (last (b :: l') d).
  destruct IH as [He | Hin]; [now left | right; now right].
Qed.

Lemma first_breach_or_last_In (config : Config) (r : TradeRow) (post : list TradeRow) :
  In (first_breach_or_last config r post) (r :: post).
Proof.
  unfold first_breach_or_last.
  destruct (find _ post) as [c|] eqn:Hf.
  - right. apply find_some in Hf. tauto.
  - apply last_In.
Qed.

Lemma dynamic_hold_split (config : Config) (pre post : list TradeRow) (r : TradeRow) :
  labels_increasing (pre ++ r :: post) ->
  dynamic_hold (pre ++ r :: post) config (t_idx r)
  = Ok (t_idx (first_breach_or_last config r post)).
Proof.
  intros Hs. destruct (labels_split pre post r Hs) as [Hpre Hpost].
  unfold dynamic_hold.
  rewrite (rows_at_unique _ r (labels_increasing_NoDup _ Hs))
    by (apply in_or_app; right; now left).
  assert (Hfilter :
    filter (fun c => breaches config (t_mid r) c && (t_idx r <? t_idx c))
           (pre ++ r :: post)
    = filter (breaches config (t_mid r)) post).
  { rewrite filter_app. rewrite filter_none.
    - simpl. rewrite Z.ltb_irrefl, andb_false_r.
      apply filter_ext_in. intros c Hc.
      rewrite (proj2 (Z.ltb_lt _ _) (Hpost c Hc)). apply andb_true_r.
    - intros c Hc. apply andb_false_iff. right. apply Z.ltb_ge.
      specialize (Hpre c Hc). lia. }
  rewrite Hfilter. unfold first_breach_or_last.
  pose proof (filter_head_find (breaches config (t_mid r)) post) as Hh.
  destruct (filter (breaches config (t_mid r)) post) as [|c rest]; rewrite Hh; simpl.
  - rewrite (last_label_nonempty _ r) by (apply in_or_app; right; now left).
    now rewrite last_app_cons.
  - reflexivity.
Qed.

Lemma dynamic_close_labels (config : Config) (bti : list TradeRow) :
  labels_increasing bti ->
  forall post pre, bti = pre ++ post ->
    mapM (fun i =>
            ri <- loc i bti ;;
            if trade_ ri =? 0 then Ok None
            else c <- dynamic_hold bti config i ;; Ok (Some c))
         (map t_idx post)
    = Ok (close_labels config post).
Proof.
  intros Hs. induction post as [|r post IH]; intros pre Hb; [reflexivity|].
  simpl.
  rewrite (loc_unique bti r (labels_increasing_NoDup _ Hs))
    by (subst bti; apply in_or_app; right; now left).
  simpl bind.
  rewrite (IH (pre ++ [r])) by (rewrite <- app_assoc; exact Hb).
  destruct (trade_ r =? 0); [reflexivity|].
  subst bti. rewrite (dynamic_hold_split config pre post r Hs). reflexivity.
Qed.

Lemma second_at_close_labels (config : Config) (bti : list TradeRow) (d : Z) :
  labels_increasing bti ->
  (forall a, In a bti -> t_date a = d) ->
  forall post pre, bti = pre ++ post ->
    map (second_at bti) (close_labels config post) = dynamic_close_scan config post.
Proof.
  intros Hs Hd. induction post as [|r post IH]; intros pre Hb; [reflexivity|].
  simpl. rewrite (IH (pre ++ [r])) by (rewrite <- app_assoc; exact Hb).
  f_equal.
  assert (Hlater : filter (fun c => t_date c =? t_date r) post = post).
  { apply forallb_filter_id, forallb_forall. intros c Hc. apply Z.eqb_eq.
    rewrite !Hd; [reflexivity | | ]; subst bti; apply in_or_app; right;
      [now left | now right]. }
  rewrite Hlater.
  destruct (trade_ r =? 0); [reflexivity|].
  simpl. rewrite find_label; [reflexivity | exact Hs |].
  subst bti. apply in_or_app. right. apply first_breach_or_last_In.
Qed.

Lemma dynamic_day_close_scan (config : Config) (bti : list TradeRow) (d : Z) :
  labels_increasing bti ->
  (forall a, In a bti -> t_date a = d) ->
  dynamic_day_close bti config = Ok (dynamic_close_scan config bti).
Proof.
  intros Hs Hd. unfold dynamic_day_close.
  rewrite (dynamic_close_labels config bti Hs bti [] eq_refl). simpl.
  now rewrite (second_at_close_labels config bti d Hs Hd bti [] eq_refl).
Qed.

(** ** Dynamic-unwind policy, whole table *)

Lemma concat_map_flat_map {A B : Type} (f : A -> list B) (l : list A) :
  concat (map f l) = flat_map f l.
Proof. symmetry. apply flat_map_concat_map. Qed.

Lemma get_dynamic_period_close_second_scan (btdf : list TradeRow) (config : Config) :
  key_sorted t_date btdf ->
  (forall d, labels_increasing (rows_on d btdf)) ->
  get_dynamic_period_close_second btdf config = Ok (dynamic_close_scan config btdf).
Proof.
  intros Hdates Hlabels. unfold get_dynamic_period_close_second.
  rewrite (mapM_pure _ (fun d => dynamic_close_scan config (rows_on d btdf))).
  - simpl. rewrite concat_map_flat_map. f_equal.
    apply (group_scan t_date (dynamic_close_scan config)
             (fun r later =>
                if trade_ r =? 0 then None
                else Some (t_second (first_breach_or_last config r later))));
      auto.
  - intros d _. apply (dynamic_day_close_scan config _ d (Hlabels d)).
    intros a Ha. apply filter_In in Ha. now apply Z.eqb_eq.
Qed.





(** ** When the dynamic-unwind matcher and [pnl] return *)

Lemma rows_at_In (bti : list TradeRow) (r : TradeRow) :
  In r bti -> In r (rows_at (t_idx r) bti).
Proof. intros Hr. apply filter_In. split; [exact Hr | apply Z.eqb_refl]. Qed.

Lemma dynamic_hold_total (bti : list TradeRow) (config : Config) (i : Z) :
  In i (map t_idx bti) -> exists c, dynamic_hold bti config i = Ok c.
Proof.
  intros Hin. apply in_map_iff in Hin. destruct Hin as [r [<- Hr]].
  unfold dynamic_hold. pose proof (rows_at_In bti r Hr) as Hat.
  rewrite (last_label_nonempty bti r Hr).
  destruct (rows_at (t_idx r) bti) as [|a [|b l]]; [contradiction| |eauto].
  destruct (map t_idx (filter _ bti)); eauto.
Qed.

Lemma repeated_label (bti : list TradeRow) :
  ~ NoDup (map t_idx bti) ->
  exists r, In r bti /\ (2 <= length (rows_at (t_idx r) bti))%nat.
Proof.
  induction bti as [|a l IH]; simpl; intros Hnd; [exfalso; apply Hnd; constructor|].
  destruct (in_dec Z.eq_dec (t_idx a) (map t_idx l)) as [Hin | Hnot].
  - exists a. split; [now left|]. unfold rows_at. simpl. rewrite Z.eqb_refl. simpl.
    apply in_map_iff in Hin. destruct Hin as [x [He Hx]].
    assert (Hat : In x (filter (fun r => t_idx r =? t_idx a) l)).
    { apply filter_In. split; [exact Hx | now apply Z.eqb_eq]. }
    destruct (filter (fun r => t_idx r =? t_idx a) l); [contradiction | simpl; lia].
  - destruct IH as [r [Hr Hlen]].
    { intros Hl. apply Hnd. now constructor. }
    exists r. split; [now right|]. unfold rows_at in *. simpl.
    destruct (t_idx a =? t_idx r); simpl; lia.
Qed.

Lemma mapM_first_error {A B : Type} (f : A -> Result B) (l : list A) (e : exn) :
  (forall a, In a l -> (exists b, f a = Ok b) \/ f a = Raise e) ->
  (exists a, In a l /\ f a = Raise e) ->
  mapM f l = Raise e.
Proof.
  induction l as [|x l IH]; intros Hall [a [Hin Ha]]; [contradiction|].
  simpl. destruct (Hall x (or_introl eq_refl)) as [[b Hb] | Hx].
  - rewrite Hb. simpl. rewrite IH; [reflexivity | |].
    + intros y Hy. apply Hall. now right.
    + destruct Hin as [-> | Hin]; [congruence | eauto].
  - now rewrite Hx.
Qed.

Lemma day_label_outcome (bti : list TradeRow) (config : Config) (r : TradeRow) :
  In r bti ->
  let f i := ri <- loc i bti ;;
             if trade_ ri =? 0 then Ok None
             else c <- dynamic_hold bti config i ;; Ok (Some c) in
  match rows_at (t_idx r) bti with
  | [_] => exists m, f (t_idx r) = Ok m
  | _ => f (t_idx r) = Raise ValueError
  end.
Proof.
  intros Hr f. unfold f, loc. pose proof (rows_at_In bti r Hr) as Hat.
  destruct (dynamic_hold_total bti config (t_idx r) (in_map t_idx _ _ Hr)) as [c Hc].
  destruct (rows_at (t_idx r) bti) as [|a [|b l]]; [contradiction| |reflexivity].
  simpl. destruct (trade_ a =? 0); [eauto|]. rewrite Hc. simpl. eauto.
Qed.

Lemma dynamic_day_close_outcome (bti : list TradeRow) (config : Config) :
  (NoDup (map t_idx bti) ->
   exists res, dynamic_day_close bti config = Ok res /\ length res = length bti)
  /\ (~ NoDup (map t_idx bti) -> dynamic_day_close bti config = Raise ValueError).
Proof.
  unfold dynamic_day_close. split.
  - intros Hnd.
    destruct (mapM_total
                (fun i => ri <- loc i bti ;;
                          if trade_ ri =? 0 then Ok None
                          else c <- dynamic_hold bti config i ;; Ok (Some c))
                (map t_idx bti)) as [ci Hci].
    + intros i Hi. apply in_map_iff in Hi. destruct Hi as [r [<- Hr]].
      pose proof (day_label_outcome bti config r Hr) as Ho. cbv zeta in Ho.
      rewrite (rows_at_unique bti r Hnd Hr) in Ho. exact Ho.
    + rewrite Hci. simpl. eexists. split; [reflexivity|].
      apply mapM_Ok_length in Hci. now rewrite length_map, Hci, length_map.
  - intros Hnd. destruct (repeated_label bti Hnd) as [r [Hr Hlen]].
    rewrite (mapM_first_error _ _ ValueError); [reflexivity | |].
    + intros i Hi. apply in_map_iff in Hi. destruct Hi as [x [<- Hx]].
      pose proof (day_label_outcome bti config x Hx) as Ho. cbv zeta in Ho.
      destruct (rows_at (t_idx x) bti) as [|a [|b l]]; auto.
    + exists (t_idx r). split; [now apply in_map|].
      pose proof (day_label_outcome bti config r Hr) as Ho. cbv zeta in Ho.
      destruct (rows_at (t_idx r) bti) as [|a [|b l]]; simpl in Hlen; [exact Ho | lia | exact Ho].
Qed.

Lemma get_dynamic_period_close_second_total (btdf : list TradeRow) (config : Config) :
  (forall d, NoDup (map t_idx (rows_on d btdf))) ->
  exists res, get_dynamic_period_close_second btdf config = Ok res
              /\ length res = length btdf.
Proof.
  intros Hnd. unfold get_dynamic_period_close_second.
  destruct (mapM_total (fun d => dynamic_day_close (rows_on d btdf) config)
                       (sorted_set (map t_date btdf))) as [per Hper].
  - intros d _.
    destruct (proj1 (dynamic_day_close_outcome (rows_on d btdf) config) (Hnd d))
      as [r [-> _]].
    eauto.
  - rewrite Hper. simpl. eexists. split; [reflexivity|].
    rewrite <- (group_lengths_sorted_set t_date btdf) at 1.
    apply (length_concat_Forall2 (fun d => rows_on d btdf)).
    apply mapM_Forall2 in Hper.
    eapply Forall2_impl; [|exact Hper].
    intros d res Hd. simpl in Hd.
    destruct (proj1 (dynamic_day_close_outcome (rows_on d btdf) config) (Hnd d))
      as [r [Hr Hl]].
    congruence.
Qed.

Lemma get_dynamic_period_close_second_repeated (btdf : list TradeRow) (config : Config)
    (d : Z) :
  ~ NoDup (map t_idx (rows_on d btdf)) ->
  get_dynamic_period_close_second btdf config = Raise ValueError.
Proof.
  intros Hnd. unfold get_dynamic_period_close_second.
  rewrite (mapM_first_error _ _ ValueError); [reflexivity | |].
  - intros x _.
    destruct (NoDup_dec Z.eq_dec (map t_idx (rows_on x btdf))) as [Hx | Hx].
    + left. destruct (proj1 (dynamic_day_close_outcome _ config) Hx) as [r [Hr _]].
      eauto.
    + right. now apply dynamic_day_close_outcome.
  - exists d. split; [|now apply dynamic_day_close_outcome].
    apply In_sorted_set. destruct (repeated_label _ Hnd) as [r [Hr _]].
    apply filter_In in Hr. destruct Hr as [Hr He]. apply Z.eqb_eq in He.
    rewrite <- He. now apply in_map.
Qed.

Lemma pnl_shape (btdf : list TradeRow) (config : Config) (out : list PnlRow) :
  pnl btdf config = Ok out ->
  exists matched,
    length matched = length btdf
    /\ (if dynamic_unwinding config
        then get_dynamic_period_close_second btdf config
        else Ok (map Some (get_fixed_period_close_second btdf config))) = Ok matched
    /\ out
       = map (price_row config)
           (left_join
              (map (fun rm => mkOpenRow (fst rm) (open_price_of config (fst rm)) (snd rm))
                   (combine btdf matched))
              (dummy_bt btdf)).
Proof.
  unfold pnl. intros H.
  apply bind_Ok in H. destruct H as [matched [Hm H]].
  apply bind_Ok in H. destruct H as [opened [Hopen H]].
  unfold set_column in Hopen.
  destruct (Nat.eqb_spec (length matched) (length btdf)) as [Hl | Hl]; [|discriminate].
  exists matched. split; [exact Hl|]. split; [exact Hm|].
  inversion Hopen; subst opened. inversion H. reflexivity.
Qed.

Lemma pnl_returns (btdf : list TradeRow) (config : Config) :
  (dynamic_unwinding config = true -> forall d, NoDup (map t_idx (rows_on d btdf))) ->
  exists out, pnl btdf config = Ok out.
Proof.
  intros Hnd. unfold pnl.
  destruct (dynamic_unwinding config).
  - destruct (get_dynamic_period_close_second_total btdf config (Hnd eq_refl))
      as [m [Hm Hl]].
    rewrite Hm. simpl. rewrite set_column_Ok by exact Hl. simpl. eauto.
  - assert (Hl : length (map Some (get_fixed_period_close_second btdf config))
                 = length btdf)
      by now rewrite length_map, get_fixed_period_close_second_length.
    simpl. rewrite set_column_Ok by exact Hl. simpl. eauto.
Qed.

Lemma pnl_repeated_label (btdf : list TradeRow) (config : Config) (d : Z) :
  dynamic_unwinding config = true ->
  ~ NoDup (map t_idx (rows_on d btdf)) ->
  pnl btdf config = Raise ValueError.
Proof.
  intros Hdyn Hnd. unfold pnl.
  now rewrite Hdyn, (get_dynamic_period_close_second_repeated btdf config d Hnd).
Qed.

Lemma labels_unique (btdf : list TradeRow) (config : Config) :
  (dynamic_unwinding config = true -> forall d, labels_increasing (rows_on d btdf)) ->
  dynamic_unwinding config = true -> forall d, NoDup (map t_idx (rows_on d btdf)).
Proof. intros H Hdyn d. apply labels_increasing_NoDup. now apply H. Qed.

(** ** Traded rows of an ordered table are priced *)

Lemma In_combine_map {A B : Type} (f : A -> B) (l : list A) (a : A) (b : B) :
  In (a, b) (combine l (map f l)) -> b = f a.
Proof.
  induction l as [|x l IH]; simpl; [intros []|].
  intros [H | H]; [now inversion H | now apply IH].
Qed.

Lemma In_combine_scan (config : Config) (l : list TradeRow) (r : TradeRow)
    (m : option Z) :
  In (r, m) (combine l (dynamic_close_scan config l)) ->
  trade_ r <> 0 ->
  exists c, In c l /\ t_date c = t_date r /\ m = Some (t_second c).
Proof.
  induction l as [|x l IH]; simpl; [intros []|].
  intros [H | H] Ht.
  - inversion H; subst x m. clear H.
    apply Z.eqb_neq in Ht. rewrite Ht.
    eexists. split; [|split; [|reflexivity]].
    + destruct (first_breach_or_last_In config r
                  (filter (fun c => t_date c =? t_date r) l)) as [<- | Hin];
        [now left|]. right. apply filter_In in Hin. tauto.
    + destruct (first_breach_or_last_In config r
                  (filter (fun c => t_date c =? t_date r) l)) as [<- | Hin];
        [reflexivity|]. apply filter_In in Hin. now apply Z.eqb_eq.
  - destruct (IH H Ht) as [c [Hc Hrest]]. exists c. split; [now right | exact Hrest].
Qed.

Lemma fixed_close_of_tick (config : Config) (btdf : list TradeRow) (r : TradeRow) :
  In r btdf ->
  exists c, In c btdf /\ t_date c = t_date r
            /\ fixed_close_of config btdf r = t_second c.
Proof.
  intros Hr. unfold fixed_close_of.
  set (day := filter (fun c => t_date c =? t_date r) btdf).
  assert (Hday : forall c, In c day -> In c btdf /\ t_date c = t_date r).
  { intros c Hc. apply filter_In in Hc. destruct Hc as [Hc He].
    apply Z.eqb_eq in He. auto. }
  destruct (find _ day) as [c|] eqn:Hf.
  - apply find_some in Hf. destruct Hf as [Hc _].
    destruct (Hday c Hc). eauto.
  - destruct (last_In day r) as [He | Hin].
    + rewrite <- He. eauto.
    + destruct (Hday _ Hin). eauto.
Qed.

Lemma traded_rows_priced (btdf : list TradeRow) (config : Config) (out : list PnlRow) :
  ordered_table btdf ->
  (dynamic_unwinding config = true -> forall d, labels_increasing (rows_on d btdf)) ->
  pnl btdf config = Ok out ->
  forall p, In p out -> p_trade p <> 0 -> exists cp, close_price p = Some cp.
Proof.
  intros Hord Hlab Hout p Hp Ht.
  destruct (pnl_shape btdf config out Hout) as [matched [Hl [Hm Hpnl]]].
  subst out. clear Hout.
  apply in_map_iff in Hp. destruct Hp as [j [<- Hj]].
  apply left_join_In in Hj. destruct Hj as [Ho Hc].
  apply in_map_iff in Ho. destruct Ho as [[r m] [Ho Hrm]]. simpl in Ho.
  destruct j as [o c]. simpl in Ho, Hc. subst o.
  unfold p_trade, p_row in Ht. simpl in Ht.
  assert (Htick : exists t, In t btdf /\ t_date t = t_date r /\ m = Some (t_second t)).
  { destruct (dynamic_unwinding config) eqn:Hdyn.
    - rewrite (get_dynamic_period_close_second_scan btdf config
                 (ordered_table_dates btdf Hord) (Hlab eq_refl)) in Hm.
      inversion Hm; subst matched. now apply (In_combine_scan config btdf).
    - inversion Hm; subst matched.
      rewrite (get_fixed_period_close_second_map btdf config Hord), map_map in Hrm.
      pose proof (In_combine_map _ _ _ _ Hrm) as Hmr.
      destruct (fixed_close_of_tick config btdf r (in_combine_l _ _ _ _ Hrm))
        as [t [Ht1 [Ht2 Ht3]]].
      exists t. rewrite Hmr, Ht3. auto. }
  destruct Htick as [t [Ht1 [Ht2 Ht3]]].
  destruct c as [c|].
  - unfold price_row, close_price_of, close_b1, close_s1, close_mid. simpl.
    destruct (use_mid config); simpl; eauto.
  - exfalso.
    specialize (Hc (mkCloseTick (t_date t) (t_second t) (b1 (t_tick t))
                      (s1 (t_tick t)) (t_mid t))).
    unfold join_key_eqb in Hc. simpl in Hc. rewrite Ht3, Ht2 in Hc.
    rewrite !Z.eqb_refl in Hc. simpl in Hc.
    assert (false = true -> False) by discriminate.
    apply H. symmetry. apply Hc.
    unfold dummy_bt. apply in_map_iff. exists t. rewrite Ht2. auto.
Qed.

Lemma pnl_keeps_rows (btdf : list TradeRow) (config : Config) (out : list PnlRow) :
  pnl btdf config = Ok out ->
  (forall r, In r btdf -> exists p, In p out /\ p_row p = r)
  /\ (forall p, In p out -> In (p_row p) btdf).
Proof.
  intros Hout. destruct (pnl_shape btdf config out Hout) as [matched [Hl [_ ->]]].
  split.
  - intros r Hr.
    destruct (In_combine_fst btdf matched r Hl Hr) as [m Hm].
    destruct (left_join_keeps
                (map (fun rm => mkOpenRow (fst rm) (open_price_of config (fst rm)) (snd rm))
                     (combine btdf matched))
                (dummy_bt btdf)
                (mkOpenRow r (open_price_of config r) m)) as [j [Hj Hjo]].
    { apply in_map_iff. exists (r, m). auto. }
    exists (price_row config j). split; [now apply in_map|].
    unfold p_row. simpl. now rewrite Hjo.
  - intros p Hp. apply in_map_iff in Hp. destruct Hp as [j [<- Hj]].
    apply left_join_In in Hj. destruct Hj as [Ho _].
    apply in_map_iff in Ho. destruct Ho as [[r m] [Ho Hrm]].
    apply in_combine_l in Hrm. unfold p_row. simpl. rewrite <- Ho. exact Hrm.
Qed.

(** C6: [pnl] returns under the fixed-horizon policy, and under the
    dynamic policy when no index label is repeated on a date. The table it
    returns holds every row of its input and no other row, and on every row
    of it (so on every traded row) the pnl column is trade times (close
    price minus open price), the fee column is the fee rate times |trade|
    times (open price plus close price), and net_pnl is pnl minus the fee;
    a missing close price makes all three missing, and on a table in (date,
    second) order (with growing index labels under the dynamic policy) no
    traded row misses its close price. *)
Theorem pnl_arithmetic (btdf : list TradeRow) (config : Config) :
  ((dynamic_unwinding config = true -> forall d, NoDup (map t_idx (rows_on d btdf))) ->
   exists out, pnl btdf config = Ok out)
  /\ forall out, pnl btdf config = Ok out ->
    (forall r, In r btdf -> exists p, In p out /\ p_row p = r)
    /\ (forall p, In p out -> In (p_row p) btdf)
    /\ Forall (fun p =>
         let t := p_trade p in
         let op := p_open_price p in
         pnl_col p = omul (Some (inject_Z t)) (osub (close_price p) (Some op))
         /\ transaction_fee_col p
            = omul (Some (transaction_fee config * inject_Z (Z.abs t))%Q)
                   (oadd (Some op) (close_price p))
         /\ net_pnl p = osub (pnl_col p) (transaction_fee_col p)
         /\ (forall cp, close_price p = Some cp ->
               pnl_col p = Some (inject_Z t * (cp - op))%Q
               /\ transaction_fee_col p
                  = Some (transaction_fee config * inject_Z (Z.abs t) * (op + cp))%Q
               /\ net_pnl p
                  = Some (inject_Z t * (cp - op)
                          - transaction_fee config * inject_Z (Z.abs t) * (op + cp))%Q))
       out
    /\ (ordered_table btdf ->
        (dynamic_unwinding config = true ->
         forall d, labels_increasing (rows_on d btdf)) ->
        forall p, In p out -> p_trade p <> 0 ->
          exists cp,
            close_price p = Some cp
            /\ net_pnl p
               = Some (inject_Z (p_trade p) * (cp - p_open_price p)
                       - transaction_fee config * inject_Z (Z.abs (p_trade p))
                         * (p_open_price p + cp))%Q).
Proof.
  split; [apply pnl_returns|]. intros out Hp.
  destruct (pnl_keeps_rows btdf config out Hp) as [Hkeep Hfrom].
  split; [exact Hkeep|]. split; [exact Hfrom|].
  destruct (pnl_shape btdf config out Hp) as [matched [Hl [_ Hout]]].
  split.
  - apply Forall_forall. intros p Hin. rewrite Hout in Hin.
    apply in_map_iff in Hin. destruct Hin as [j [<- _]].
    unfold price_row, p_trade, p_open_price, p_row. simpl.
    split; [reflexivity|]. split; [reflexivity|]. split; [reflexivity|].
    intros cp Hcp. rewrite Hcp. simpl. auto.
  - intros Hord Hlab p Hin Ht.
    destruct (traded_rows_priced btdf config _ Hord Hlab Hp p Hin Ht) as [cp Hcp].
    exists cp. split; [exact Hcp|].
    rewrite Hout in Hin.
    apply in_map_iff in Hin. destruct Hin as [j [<- _]].
    unfold price_row, p_trade, p_open_price, p_row in *. simpl in *.
    rewrite Hcp. reflexivity.
Qed.


(** ** Summary *)

Section ReporterFacts.
Context {E : Externals}.

Lemma py_div_Ok (a b : Z) : b <> 0 -> py_div a b = Ok (inject_Z a / inject_Z b)%Q.
Proof. intros Hb. unfold py_div. apply Z.eqb_neq in Hb. now rewrite Hb. Qed.

Lemma no_trades_iff (btdf : list PnlRow) :
  filter (fun r => negb (p_trade r =? 0)) btdf = []
  <-> forall r, In r btdf -> p_trade r = 0.
Proof.
  induction btdf as [|a l IH]; simpl.
  - split; [intros _ r [] | reflexivity].
  - destruct (Z.eqb_spec (p_trade a) 0) as [Ha|Ha]; simpl.
    + rewrite IH. split; [intros H r [<- | Hr]; auto | intros H r Hr; auto].
    + split; [discriminate|]. intros H. exfalso. apply Ha. auto.
Qed.

(** C9: whenever [summary] returns a record, its corr_alpha_net_pnl equals
    its corr_alpha_pnl, and both are the correlation of alpha with the raw
    pnl column over the traded rows. *)
Theorem summary_corr_net_is_raw (btdf : list PnlRow) (config : Config) (s : Summary) :
  summary btdf config = Ok s ->
  corr_alpha_net_pnl s = corr_alpha_pnl s
  /\ corr_alpha_pnl s
     = let trades := filter (fun r => negb (p_trade r =? 0)) btdf in
       np_corrcoef (map (fun r => Some (p_alpha r)) trades) (map pnl_col trades).
Proof.
  unfold summary. intros H.
  repeat (apply bind_Ok in H; destruct H as [? [_ H]]).
  inversion H. simpl. split; reflexivity.
Qed.

(** C10: [summary] returns a record exactly when the table has a row with
    trade <> 0. On a table without one the unguarded division of the
    winning rate raises ZeroDivisionError, although the guarded quotients
    (trades per day, average pnl and net pnl per day) are 0 there. *)
Theorem summary_needs_a_trade (btdf : list PnlRow) (config : Config) :
  ((exists s, summary btdf config = Ok s)
   <-> exists r, In r btdf /\ p_trade r <> 0)
  /\ ((forall r, In r btdf -> p_trade r = 0) ->
      summary btdf config = Raise ZeroDivisionError
      /\ let trades := filter (fun r => negb (p_trade r =? 0)) btdf in
         let days :=
           Z.of_nat (length (sorted_set (map (fun r => t_date (p_row r)) trades))) in
         safe_divide (inject_Z (Z.of_nat (length trades))) (inject_Z days) = 0%Q
         /\ safe_divide (series_sum (map net_pnl trades)) (inject_Z days) = 0%Q
         /\ safe_divide (series_sum (map pnl_col trades)) (inject_Z days) = 0%Q).
Proof.
  assert (Hnone : (forall r, In r btdf -> p_trade r = 0) ->
                  summary btdf config = Raise ZeroDivisionError).
  { intros Hz. unfold summary. rewrite (proj2 (no_trades_iff btdf) Hz). reflexivity. }
  split; [split|].
  - intros [s Hs].
    destruct (filter (fun r => negb (p_trade r =? 0)) btdf) as [|r l] eqn:Hf.
    + rewrite (Hnone (proj1 (no_trades_iff btdf) Hf)) in Hs. discriminate.
    + assert (Hr : In r (filter (fun r => negb (p_trade r =? 0)) btdf))
        by (rewrite Hf; now left).
      apply filter_In in Hr. destruct Hr as [Hr Ht].
      exists r. split; [exact Hr|]. apply negb_true_iff, Z.eqb_neq in Ht. exact Ht.
  - intros [r [Hr Ht]]. unfold summary.
    assert (Hn : Z.of_nat (length (filter (fun r => negb (p_trade r =? 0)) btdf)) <> 0).
    { assert (Hin : In r (filter (fun r => negb (p_trade r =? 0)) btdf)).
      { apply filter_In. split; [exact Hr|]. now apply negb_true_iff, Z.eqb_neq. }
      destruct (filter (fun r => negb (p_trade r =? 0)) btdf); [contradiction|].
      simpl. lia. }
    rewrite !(py_div_Ok _ _ Hn). simpl. eauto.
  - intros Hz. split; [exact (Hnone Hz)|].
    rewrite (proj2 (no_trades_iff btdf) Hz). simpl. auto.
Qed.

End ReporterFacts.

(** ** Slices of the sorted dates *)

Lemma StronglySorted_app_inv {A : Type} (R : A -> A -> Prop) (l m : list A) :
  StronglySorted R (l ++ m) ->
  StronglySorted R l /\ StronglySorted R m
  /\ (forall x y, In x l -> In y m -> R x y).
Proof.
  induction l as [|a l IH]; simpl; intros Hs.
  - repeat split; [constructor | exact Hs | intros x y []].
  - inversion Hs as [|? ? Hs' Hall]; subst. rewrite Forall_forall in Hall.
    destruct (IH Hs') as [Hl [Hm Hlm]]. repeat split; [|exact Hm|].
    + constructor; [exact Hl|]. apply Forall_forall. intros x Hx.
      apply Hall. apply in_or_app. now left.
    + intros x y [<- | Hx] Hy; [|now apply Hlm].
      apply Hall. apply in_or_app. now right.
Qed.

Lemma StronglySorted_hd_le (l : list Z) (x : Z) :
  StronglySorted Z.lt l -> In x l -> hd 0 l <= x.
Proof.
  intros Hs Hx. destruct l as [|a l]; [contradiction|].
  inversion Hs as [|? ? _ Hall]; subst. rewrite Forall_forall in Hall.
  destruct Hx as [<- | Hx]; simpl; [lia|]. specialize (Hall x Hx). lia.
Qed.

Lemma nth_hd_skipn {A : Type} (l : list A) (k : nat) (d : A) :
  nth k l d = hd d (skipn k l).
Proof.
  revert l. induction k as [|k IH]; intros [|a l]; simpl; auto.
Qed.

(** Between two of its positions a strictly ascending list holds exactly the
    values from the first (included) to the second (excluded). *)
Lemma filter_between (dates : list Z) (a b : nat) :
  StronglySorted Z.lt dates ->
  (a <= b < length dates)%nat ->
  filter (fun x => (nth a dates 0 <=? x) && (x <? nth b dates 0)) dates
  = firstn (b - a) (skipn a dates).
Proof.
  intros Hs Hab.
  set (lo := nth a dates 0). set (hi := nth b dates 0).
  assert (Hdec : dates = firstn a dates
                         ++ firstn (b - a) (skipn a dates) ++ skipn b dates).
  { rewrite <- (firstn_skipn a dates) at 1. f_equal.
    rewrite <- (firstn_skipn (b - a) (skipn a dates)) at 1. f_equal.
    rewrite skipn_skipn. f_equal. lia. }
  set (l1 := firstn a dates) in *.
  set (l2 := firstn (b - a) (skipn a dates)) in *.
  set (l3 := skipn b dates) in *.
  assert (Hhi : hi = hd 0 l3) by apply nth_hd_skipn.
  assert (Hlo : lo = hd 0 (l2 ++ l3)).
  { unfold lo. rewrite nth_hd_skipn. f_equal. unfold l2, l3.
    rewrite <- (firstn_skipn (b - a) (skipn a dates)) at 1. f_equal.
    rewrite skipn_skipn. f_equal. lia. }
  assert (Hhi_in : In hi l3).
  { rewrite Hhi. destruct l3 as [|x l3'] eqn:He; [|now left].
    assert (Hlen : length (skipn b dates) = 0%nat) by (fold l3; now rewrite He).
    rewrite length_skipn in Hlen. lia. }
  rewrite Hdec in Hs.
  apply StronglySorted_app_inv in Hs. destruct Hs as [Hs1 [Hs23 H1]].
  pose proof Hs23 as Hs23'.
  apply StronglySorted_app_inv in Hs23. destruct Hs23 as [Hs2 [Hs3 H2]].
  assert (Hlo_in : In lo (l2 ++ l3)).
  { rewrite Hlo. destruct (l2 ++ l3) as [|x r] eqn:He; [|now left].
    apply app_eq_nil in He. destruct He as [_ He]. rewrite He in Hhi_in.
    contradiction. }
  rewrite Hdec at 1. rewrite !filter_app.
  rewrite (filter_none _ l1), (filter_none _ l3).
  - rewrite app_nil_r. simpl. apply forallb_filter_id, forallb_forall.
    intros x Hx. apply andb_true_iff. split.
    + apply Z.leb_le. rewrite Hlo.
      apply StronglySorted_hd_le; [exact Hs23' | apply in_or_app; now left].
    + apply Z.ltb_lt. now apply H2.
  - intros x Hx. apply andb_false_iff. right. apply Z.ltb_ge.
    rewrite Hhi. now apply StronglySorted_hd_le.
  - intros x Hx. apply andb_false_iff. left. apply Z.leb_gt. now apply H1.
Qed.

Lemma sorted_unique (l1 l2 : list Z) :
  StronglySorted Z.lt l1 -> StronglySorted Z.lt l2 ->
  (forall x, In x l1 <-> In x l2) -> l1 = l2.
Proof.
  intros H1. revert l2. induction H1 as [|a l1 Hs1 IH Hall1]; intros l2 H2 Heq.
  - destruct l2 as [|b l2]; [reflexivity|].
    exfalso. apply (proj2 (Heq b)). now left.
  - destruct H2 as [|b l2 Hs2 Hall2].
    + exfalso. apply (proj1 (Heq a)). now left.
    + rewrite Forall_forall in Hall1, Hall2.
      assert (a = b).
      { destruct (proj1 (Heq a) (or_introl eq_refl)) as [Hb | Hb];
        destruct (proj2 (Heq b) (or_introl eq_refl)) as [Ha | Ha]; try lia.
        specialize (Hall1 _ Ha). specialize (Hall2 _ Hb). lia. }
      subst b. f_equal. apply IH; [exact Hs2|].
      intros x. split; intros Hx.
      * destruct (proj1 (Heq x) (or_intror Hx)) as [He | Hin]; [|exact Hin].
        specialize (Hall1 _ Hx). lia.
      * destruct (proj2 (Heq x) (or_intror Hx)) as [He | Hin]; [|exact Hin].
        specialize (Hall2 _ Hx). lia.
Qed.

Lemma sorted_set_filter {A : Type} (key : A -> Z) (q : Z -> bool) (l : list A) :
  sorted_set (map key (filter (fun r => q (key r)) l))
  = filter q (sorted_set (map key l)).
Proof.
  apply sorted_unique.
  - apply StronglySorted_sorted_set.
  - apply StronglySorted_filter, StronglySorted_sorted_set.
  - intros x. rewrite In_sorted_set, filter_In, In_sorted_set, !in_map_iff.
    split.
    + intros [r [<- Hr]]. apply filter_In in Hr. destruct Hr as [Hr Hq].
      split; [eauto | exact Hq].
    + intros [[r [<- Hr]] Hq]. exists r. split; [reflexivity|].
      apply filter_In. auto.
Qed.

(** ** Python indexing and ranges *)

Lemma py_index_nat {A : Type} (l : list A) (i : Z) (d : A) :
  0 <= i < Z.of_nat (length l) -> py_index l i = Ok (nth (Z.to_nat i) l d).
Proof.
  intros Hi. unfold py_index.
  rewrite (proj2 (Z.ltb_ge i 0)) by lia.
  rewrite (proj2 (Z.leb_le 0 i)), (proj2 (Z.ltb_lt i _)) by lia. simpl.
  destruct (nth_error l (Z.to_nat i)) as [a|] eqn:He.
  - f_equal. symmetry. now apply nth_error_nth.
  - apply nth_error_None in He. lia.
Qed.

Lemma In_py_range (lo hi i : Z) : In i (py_range lo hi) <-> lo <= i < hi.
Proof.
  unfold py_range. rewrite in_map_iff. split.
  - intros [k [<- Hk]]. apply in_seq in Hk. lia.
  - intros Hi. exists (Z.to_nat (i - lo)). split; [lia|]. apply in_seq. lia.
Qed.

Lemma map_nth_seq {A : Type} (l : list A) (d : A) (a : nat) :
  map (fun k => nth (a + k) l d) (seq 0 (length l - a)) = skipn a l.
Proof.
  revert l. induction a as [|a IH]; intros l.
  - rewrite Nat.sub_0_r. simpl. induction l as [|x l IHl]; [reflexivity|].
    simpl. f_equal. rewrite <- seq_shift, map_map. exact IHl.
  - destruct l as [|x l]; [reflexivity|]. simpl. apply IH.
Qed.

Lemma py_range_index {A : Type} (l : list A) (lo : Z) :
  0 <= lo ->
  mapM (py_index l) (py_range lo (Z.of_nat (length l))) = Ok (skipn (Z.to_nat lo) l).
Proof.
  intros Hlo. unfold py_range. rewrite mapM_map.
  destruct l as [|d l'] eqn:Hl.
  - replace (Z.to_nat (Z.of_nat (length (@nil A)) - lo)) with 0%nat by (simpl; lia).
    simpl. now rewrite skipn_nil.
  - rewrite <- Hl. rewrite <- (map_nth_seq l d (Z.to_nat lo)).
    replace (Z.to_nat (Z.of_nat (length l) - lo))
      with (length l - Z.to_nat lo)%nat by lia.
    apply mapM_pure. intros k Hk. apply in_seq in Hk.
    rewrite (py_index_nat l _ d) by lia. do 2 f_equal. lia.
Qed.

(** ** Walk-forward driver *)

Section EngineFacts.
Context {E : Externals}.

Lemma training_snapshot_window (px : list Tick) (config : Config) (i : Z) :
  0 <= training_period config ->
  In i (py_range (training_period config)
                 (Z.of_nat (length (sorted_set (map date px))))) ->
  let dates := sorted_set (map date px) in
  let tp := Z.to_nat (training_period config) in
  exists d train,
    py_index dates i = Ok d
    /\ training_snapshot px config dates i = Ok train
    /\ backtest_day px config dates i = evaluate_day px config d train
    /\ (forall r, In r train <->
                  In r px /\ nth (Z.to_nat i - tp) dates 0 <= date r < d)
    /\ sorted_set (map date train) = firstn tp (skipn (Z.to_nat i - tp) dates)
    /\ length (sorted_set (map date train)) = tp.
Proof.
  intros Htp Hi dates tp. apply In_py_range in Hi. fold dates in Hi.
  exists (nth (Z.to_nat i) dates 0).
  exists (filter (fun r => (nth (Z.to_nat i - tp) dates 0 <=? date r)
                           && (date r <? nth (Z.to_nat i) dates 0)) px).
  assert (Hidx : py_index dates i = Ok (nth (Z.to_nat i) dates 0))
    by (apply py_index_nat; lia).
  assert (Hlo : py_index dates (i - training_period config)
                = Ok (nth (Z.to_nat i - tp) dates 0)).
  { rewrite (py_index_nat dates _ 0) by lia. do 2 f_equal. lia. }
  assert (Hset :
    sorted_set (map date
      (filter (fun r => (nth (Z.to_nat i - tp) dates 0 <=? date r)
                        && (date r <? nth (Z.to_nat i) dates 0)) px))
    = firstn tp (skipn (Z.to_nat i - tp) dates)).
  { rewrite (sorted_set_filter date
               (fun x => (nth (Z.to_nat i - tp) dates 0 <=? x)
                         && (x <? nth (Z.to_nat i) dates 0)) px).
    fold dates. rewrite filter_between.
    - f_equal. lia.
    - apply StronglySorted_sorted_set.
    - lia. }
  assert (Hsnap : training_snapshot px config dates i
                   = Ok (filter (fun r => (nth (Z.to_nat i - tp) dates 0 <=? date r)
                                          && (date r <? nth (Z.to_nat i) dates 0)) px)).
  { unfold training_snapshot. rewrite Hidx, Hlo. reflexivity. }
  split; [exact Hidx|]. split; [exact Hsnap|]. split; [|split; [|split]].
  - unfold backtest_day. rewrite Hidx, Hsnap. reflexivity.
  - intros r. rewrite filter_In, andb_true_iff, Z.leb_le, Z.ltb_lt. tauto.
  - exact Hset.
  - rewrite Hset, length_firstn, length_skipn. lia.
Qed.

Lemma backtest_day_Ok (px : list Tick) (config : Config) (dates : list Z) (i : Z)
    (px_i : list BtRow) (stats : FittingStats) :
  backtest_day px config dates i = Ok (px_i, stats) ->
  exists d, py_index dates i = Ok d
            /\ fs_date stats = d
            /\ forall r, In r px_i -> date (tick r) = d.
Proof.
  unfold backtest_day. intros H.
  apply bind_Ok in H. destruct H as [d [Hd H]]. exists d. split; [exact Hd|].
  apply bind_Ok in H. destruct H as [train [_ H]]. unfold evaluate_day in H.
  apply bind_Ok in H. destruct H as [features [_ H]].
  apply bind_Ok in H. destruct H as [[model st] [_ H]].
  apply bind_Ok in H. destruct H as [x_new [_ H]].
  apply bind_Ok in H. destruct H as [y_cells [_ H]].
  apply bind_Ok in H. destruct H as [al [_ H]].
  inversion H; subst. split; [reflexivity|].
  intros r Hr. apply in_map_iff in Hr. destruct Hr as [[t a] [<- Hta]].
  apply in_combine_l in Hta. apply filter_In in Hta. destruct Hta as [_ Ht].
  simpl. now apply Z.eqb_eq.
Qed.

Lemma backtest_loop_Ok (px : list Tick) (config : Config) (dates days : list Z) :
  forall btdf0 fs0 btdf fs,
    backtest_loop px config dates days btdf0 fs0 = Ok (btdf, fs) ->
    exists ds, mapM (py_index dates) days = Ok ds
               /\ map fs_date fs = map fs_date fs0 ++ ds
               /\ forall r, In r btdf -> In r btdf0 \/ In (date (tick r)) ds.
Proof.
  induction days as [|i days IH]; intros btdf0 fs0 btdf fs H; simpl in H.
  - inversion H; subst. exists []. rewrite app_nil_r. auto.
  - apply bind_Ok in H. destruct H as [[px_i stats] [Hday H]].
    apply backtest_day_Ok in Hday. destruct Hday as [d [Hd [Hfs Hrows]]].
    apply IH in H. destruct H as [ds [Hds [Hdates Hin]]].
    exists (d :: ds). simpl. rewrite Hd, Hds. simpl. split; [reflexivity|]. split.
    + rewrite Hdates, map_app, <- app_assoc. simpl. now rewrite Hfs.
    + intros r Hr. destruct (Hin r Hr) as [H0 | H0]; [|auto].
      apply in_app_or in H0. destruct H0 as [H0 | H0]; [auto|].
      right. left. symmetry. now apply Hrows.
Qed.

Lemma map_snd_combine {A B : Type} (l : list A) (m : list B) :
  length m = length l -> map snd (combine l m) = m.
Proof.
  revert m. induction l as [|a l IH]; intros [|b m] H; simpl in *;
    try reflexivity; try discriminate.
  f_equal. apply IH. lia.
Qed.

Lemma evaluate_day_Ok (px : list Tick) (config : Config) (d : Z) (train : list Tick)
    (rows : list BtRow) (stats : FittingStats) :
  evaluate_day px config d train = Ok (rows, stats) ->
  exists features model x_new,
    select_feature train config = Ok features
    /\ fit train features config = Ok (model, fs_stats stats)
    /\ fs_date stats = d
    /\ select_columns features (filter (fun r => date r =? d) px) = Ok x_new
    /\ predict_checked model (fillna_median (length features) x_new)
       = Ok (map alpha rows)
    /\ forall r, In r rows -> date (tick r) = d.
Proof.
  unfold evaluate_day. intros H.
  apply bind_Ok in H. destruct H as [features [Hsel H]].
  apply bind_Ok in H. destruct H as [[model st] [Hfit H]].
  apply bind_Ok in H. destruct H as [x_new [Hx H]].
  apply bind_Ok in H. destruct H as [y_cells [_ H]].
  apply bind_Ok in H. destruct H as [al [Hal H]].
  inversion H; subst rows stats. clear H.
  exists features, model, x_new. simpl.
  split; [exact Hsel|]. split; [exact Hfit|]. split; [reflexivity|].
  split; [exact Hx|]. split.
  - rewrite Hal. f_equal. rewrite map_map. simpl. symmetry.
    apply map_snd_combine.
    unfold predict_checked in Hal.
    apply bind_Ok in Hal. destruct Hal as [x [Hxs Hal]]. inversion Hal.
    unfold predict. rewrite length_map. apply mapM_Ok_length in Hxs. rewrite Hxs.
    unfold fillna_median. rewrite length_map.
    unfold select_columns in Hx. now apply mapM_Ok_length in Hx.
  - intros r Hr. apply in_map_iff in Hr. destruct Hr as [[t a] [<- Hta]].
    apply in_combine_l in Hta. apply filter_In in Hta. destruct Hta as [_ Ht].
    simpl. now apply Z.eqb_eq.
Qed.

Lemma backtest_loop_results (px : list Tick) (config : Config) (dates days : list Z) :
  forall btdf0 fs0 btdf fs,
    backtest_loop px config dates days btdf0 fs0 = Ok (btdf, fs) ->
    exists results,
      mapM (backtest_day px config dates) days = Ok results
      /\ btdf = btdf0 ++ concat (map fst results)
      /\ fs = fs0 ++ map snd results.
Proof.
  induction days as [|i days IH]; intros btdf0 fs0 btdf fs H; simpl in H.
  - inversion H; subst. exists []. simpl. now rewrite !app_nil_r.
  - apply bind_Ok in H. destruct H as [[px_i stats] [Hday H]].
    apply IH in H. destruct H as [results [Hr [Hb Hf]]].
    exists ((px_i, stats) :: results). simpl. rewrite Hday. simpl. rewrite Hr. simpl.
    split; [reflexivity|]. rewrite Hb, Hf, <- !app_assoc. auto.
Qed.

Lemma Forall2_impl_In {A B : Type} (R S : A -> B -> Prop) (l : list A) (m : list B) :
  (forall a b, In a l -> R a b -> S a b) -> Forall2 R l m -> Forall2 S l m.
Proof.
  intros H HR. induction HR as [|a b l m Hab _ IH]; constructor.
  - apply H; [now left | exact Hab].
  - apply IH. intros x y Hx. apply H. now right.
Qed.

(** C1: with a training period that is not negative, every evaluation day
    d = dates[i] of [backtest] has a training snapshot that holds exactly
    the rows of [px] dated from dates[i - training_period] up to, but not
    including, d: all of them are dated strictly before d and their
    distinct dates are exactly the training_period dates that precede d.
    It is this snapshot that is passed to [select_feature] and to [fit]:
    the day fails when either fails on it, and when [backtest] returns, its
    tables are the day results in order, each with the statistics of the
    model fitted on the day's snapshot with the features selected on that
    snapshot, and with the predictions of that model as alpha. The days
    evaluated are the dates after the first training_period ones, so with
    three dates and training_period = 2 only the third date is evaluated
    and appears in the two output tables. *)
Theorem walk_forward_window (px : list Tick) (config : Config) :
  0 <= training_period config ->
  let dates := sorted_set (map date px) in
  let tp := Z.to_nat (training_period config) in
  let days := py_range (training_period config) (Z.of_nat (length dates)) in
  (forall i, In i days ->
     exists d train,
       py_index dates i = Ok d
       /\ training_snapshot px config dates i = Ok train
       /\ (forall r, In r train <->
                     In r px /\ nth (Z.to_nat i - tp) dates 0 <= date r < d)
       /\ (forall r, In r train -> date r < d)
       /\ sorted_set (map date train) = firstn tp (skipn (Z.to_nat i - tp) dates)
       /\ length (sorted_set (map date train)) = tp
       /\ (forall e, select_feature train config = Raise e ->
             backtest_day px config dates i = Raise e)
       /\ (forall features e,
             select_feature train config = Ok features ->
             fit train features config = Raise e ->
             backtest_day px config dates i = Raise e))
  /\ (forall btdf fs, backtest px config = Ok (btdf, fs) ->
        map fs_date fs = skipn tp dates
        /\ (forall r, In r btdf -> In (date (tick r)) (skipn tp dates))
        /\ exists results,
             btdf = concat (map fst results)
             /\ fs = map snd results
             /\ Forall2
                  (fun i res =>
                     exists d train features model x_new,
                       py_index dates i = Ok d
                       /\ training_snapshot px config dates i = Ok train
                       /\ (forall r, In r train <->
                              In r px
                              /\ nth (Z.to_nat i - tp) dates 0 <= date r < d)
                       /\ sorted_set (map date train)
                          = firstn tp (skipn (Z.to_nat i - tp) dates)
                       /\ select_feature train config = Ok features
                       /\ fit train features config = Ok (model, fs_stats (snd res))
                       /\ fs_date (snd res) = d
                       /\ select_columns features (filter (fun r => date r =? d) px)
                          = Ok x_new
                       /\ predict_checked model
                            (fillna_median (length features) x_new)
                          = Ok (map alpha (fst res))
                       /\ forall r, In r (fst res) -> date (tick r) = d)
                  days results)
  /\ (forall d1 d2 d3, dates = [d1; d2; d3] -> training_period config = 2 ->
        days = [2]
        /\ forall btdf fs, backtest px config = Ok (btdf, fs) ->
             map fs_date fs = [d3]
             /\ forall r, In r btdf -> date (tick r) = d3).
Proof.
  intros Htp dates tp days.
  assert (Hout : forall btdf fs, backtest px config = Ok (btdf, fs) ->
            map fs_date fs = skipn tp dates
            /\ forall r, In r btdf -> In (date (tick r)) (skipn tp dates)).
  { intros btdf fs H. unfold backtest in H. fold dates in H.
    apply backtest_loop_Ok in H. destruct H as [ds [Hds [Hfs Hin]]].
    rewrite (py_range_index dates _ Htp) in Hds. inversion Hds; subst ds.
    split; [exact Hfs|]. intros r Hr. destruct (Hin r Hr) as [[] | H0]. exact H0. }
  split; [|split].
  - intros i Hi.
    destruct (training_snapshot_window px config i Htp Hi)
      as (d & train & Hd & Hsnap & Hday & Hmem & Hset & Hlen).
    exists d, train. split; [exact Hd|]. split; [exact Hsnap|].
    split; [exact Hmem|]. split; [|split; [exact Hset|split; [exact Hlen|split]]].
    + intros r Hr. apply Hmem in Hr. lia.
    + intros e He. unfold dates. rewrite Hday. unfold evaluate_day. now rewrite He.
    + intros features e Hsel He. unfold dates. rewrite Hday. unfold evaluate_day.
      rewrite Hsel. simpl. now rewrite He.
  - intros btdf fs H. destruct (Hout btdf fs H) as [Hfs Hin].
    split; [exact Hfs|]. split; [exact Hin|].
    unfold backtest in H. fold dates in H.
    apply backtest_loop_results in H. destruct H as [results [Hres [Hb Hf]]].
    exists results. split; [exact Hb|]. split; [exact Hf|].
    apply mapM_Forall2 in Hres.
    apply (Forall2_impl_In (fun i res => backtest_day px config dates i = Ok res));
      [|exact Hres].
    intros i [rows stats] Hi Hday.
    destruct (training_snapshot_window px config i Htp Hi)
      as (d & train & Hd & Hsnap & Heval & Hmem & Hset & _).
    unfold dates in Hday. rewrite Heval in Hday.
    destruct (evaluate_day_Ok px config d train rows stats Hday)
      as (features & model & x_new & Hsel & Hfit & Hdate & Hx & Hal & Hrows).
    exists d, train, features, model, x_new. simpl. auto 12.
  - intros d1 d2 d3 Hd Htp2. split.
    + unfold days. rewrite Hd, Htp2. reflexivity.
    + intros btdf fs H. destruct (Hout btdf fs H) as [Hfs Hin].
      unfold tp in Hfs, Hin. rewrite Hd, Htp2 in Hfs, Hin. simpl in Hfs, Hin.
      split; [exact Hfs|]. intros r Hr. destruct (Hin r Hr) as [He | []]. now symmetry.
Qed.

End EngineFacts.

(** ** Model fitter *)

Lemma Qeq_bool_inject_Z (z : Z) : z <> 0 -> Qeq_bool (inject_Z z) 0 = false.
Proof.
  intros Hz. destruct (Qeq_bool (inject_Z z) 0) eqn:He; [|reflexivity].
  apply Qeq_bool_eq in He. unfold Qeq in He. simpl in He. lia.
Qed.

Lemma nth_error_map_seq {A : Type} (f : nat -> A) (n j : nat) :
  (j < n)%nat -> nth_error (map f (seq 0 n)) j = Some (f j).
Proof.
  intros Hj. rewrite nth_error_map, nth_error_seq.
  destruct (Nat.ltb_spec j n); [reflexivity | lia].
Qed.

Section FitterFacts.
Context {E : Externals}.

Lemma standard_errors_nth (m : oQ) (xtx_inv : Matrix) (j : nat) (row : list Q) :
  nth_error xtx_inv j = Some row -> (j < length row)%nat ->
  nth_error (standard_errors m xtx_inv) j
  = Some (match omul m (Some (nth j row 0%Q)) with
          | Some q => np_sqrt q
          | None => None
          end).
Proof.
  intros Hrow Hj. unfold standard_errors, np_diagonal.
  rewrite nth_error_map, length_map, nth_error_map_seq.
  - simpl. f_equal.
    rewrite (nth_error_nth _ _ [] (map_nth_error _ _ _ Hrow)).
    rewrite (nth_error_nth _ _ None
               (map_nth_error (fun v => omul m (Some v)) _ _
                              (nth_error_nth' row 0%Q Hj))).
    reflexivity.
  - apply nth_error_Some. congruence.
Qed.

Lemma standard_errors_length (m : oQ) (xtx_inv : Matrix) :
  length (standard_errors m xtx_inv) = length xtx_inv.
Proof.
  unfold standard_errors, np_diagonal. now rewrite !length_map, length_seq.
Qed.

Lemma sum_sq_resid_predict (regr : LinearRegression) (x : Matrix) (y : list Q) :
  intercept_ regr = 0%Q ->
  (sum_sq_resid (predict regr x) y
   == fold_right Qplus 0
        (map (fun xy => (dotv (fst xy) (coef_ regr) - snd xy) ^ 2) (combine x y)))%Q.
Proof.
  intros Hi. unfold sum_sq_resid, predict. rewrite Hi.
  revert y. induction x as [|row x IH]; intros [|b y];
    cbn [fold_right map combine fst snd]; try reflexivity.
  apply Qplus_comp; [|apply IH].
  change ((dotv row (coef_ regr) - b) ^ 2)%Q
    with ((dotv row (coef_ regr) - b) * (dotv row (coef_ regr) - b))%Q.
  ring.
Qed.

Lemma dotv_columns (j k : nat) (x : Matrix) :
  dotv (column 0%Q j x) (column 0%Q k x)
  = fold_right Qplus 0%Q (map (fun row => (nth j row 0 * nth k row 0)%Q) x).
Proof.
  unfold dotv, column. induction x as [|row x IH]; simpl; [reflexivity|].
  now rewrite IH.
Qed.

Lemma gram_length (p : nat) (x : Matrix) : length (gram p x) = p.
Proof.
  unfold gram, np_dot, transpose. now rewrite !length_map, length_seq.
Qed.

Lemma gram_entry (p : nat) (x : Matrix) (j k : nat) :
  (j < p)%nat -> (k < p)%nat ->
  nth k (nth j (gram p x) []) 0%Q
  = fold_right Qplus 0%Q (map (fun row => (nth j row 0 * nth k row 0)%Q) x).
Proof.
  intros Hj Hk. unfold gram, np_dot.
  assert (Hcol : forall i, (i < p)%nat ->
            nth_error (transpose p x) i = Some (column 0%Q i x)).
  { intros i Hi. unfold transpose.
    exact (nth_error_map_seq (fun c => column 0%Q c x) p i Hi). }
  rewrite (nth_error_nth _ _ [] (map_nth_error _ _ _ (Hcol j Hj))).
  rewrite (nth_error_nth _ _ 0%Q (map_nth_error _ _ _ (Hcol k Hk))).
  apply dotv_columns.
Qed.

(** C8: when [fit] returns, the model has no intercept (its predictions
    are the products of the rows with the coefficients), the residual MSE
    is the sum over the rows of the squared difference between prediction
    and response, divided by n - p with p the number of selected features,
    each t-statistic is the coefficient over the standard error taken from
    the diagonal of MSE times the inverse of X'X, where entry (j, k) of X'X
    is the sum over the rows of the product of their j-th and k-th cells,
    and the degrees of freedom are df_1 = p - 1 and df_2 = n - p. *)
Theorem fit_diagnostics (train : list Tick) (features : list string) (config : Config)
    (regr : LinearRegression) (stats : Stats) :
  fit train features config = Ok (regr, stats) ->
  exists x y xtx_inv,
    regression_data train features config = Ok (x, y)
    /\ linalg_inv (gram (length features) x) = Some xtx_inv
    /\ length (gram (length features) x) = length features
    /\ (forall j k, (j < length features)%nat -> (k < length features)%nat ->
          nth k (nth j (gram (length features) x) []) 0%Q
          = fold_right Qplus 0%Q (map (fun row => (nth j row 0 * nth k row 0)%Q) x))
    /\ fit_intercept regr = false
    /\ intercept_ regr = 0%Q
    /\ coef_ regr = lstsq x y
    /\ predict regr x = map (fun row => (dotv row (coef_ regr) + 0)%Q) x
    /\ let n := Z.of_nat (length y) in
       let p := Z.of_nat (length features) in
       let ssr := sum_sq_resid (predict regr x) y in
       (ssr == fold_right Qplus 0
                 (map (fun xy => (dotv (fst xy) (coef_ regr) - snd xy) ^ 2)
                      (combine x y)))%Q
       /\ mse stats = odiv (Some ssr) (Some (inject_Z (n - p)))
       /\ (n - p <> 0 -> mse stats = Some (ssr / inject_Z (n - p))%Q)
       /\ (n - p = 0 -> mse stats = None)
       /\ beta stats = coef_ regr
       /\ tstat stats
          = map (fun cs => odiv (Some (fst cs)) (snd cs))
                (combine (coef_ regr) (standard_errors (mse stats) xtx_inv))
       /\ length (standard_errors (mse stats) xtx_inv) = length xtx_inv
       /\ (forall j row, nth_error xtx_inv j = Some row -> (j < length row)%nat ->
             nth_error (standard_errors (mse stats) xtx_inv) j
             = Some (match omul (mse stats) (Some (nth j row 0%Q)) with
                     | Some q => np_sqrt q
                     | None => None
                     end))
       /\ df_1 stats = p - 1
       /\ df_2 stats = n - p.
Proof.
  unfold fit. intros H.
  apply bind_Ok in H. destruct H as [[x y] [Hdata H]].
  apply bind_Ok in H. destruct H as [r [Hfit H]].
  unfold LinearRegression_fit in Hfit.
  destruct ((length x =? 0) || (length features =? 0))%nat; [discriminate|].
  inversion Hfit; subst r. clear Hfit. simpl in H.
  destruct (linalg_inv (gram (length features) x)) as [xtx_inv|] eqn:Hinv;
    [|discriminate].
  inversion H; subst regr stats. clear H.
  exists x, y, xtx_inv. simpl.
  rewrite Z.add_0_r.
  split; [exact Hdata|]. split; [exact Hinv|]. split; [apply gram_length|].
  split; [intros j k; apply gram_entry|].
  repeat match goal with |- _ /\ _ => split end; try reflexivity.
  - now apply (sum_sq_resid_predict (mkLinearRegression false (lstsq x y) 0%Q)).
  - intros Hnp. unfold odiv. now rewrite Qeq_bool_inject_Z.
  - intros Hnp. rewrite Hnp. reflexivity.
  - apply standard_errors_length.
  - intros j row Hrow Hj. now apply standard_errors_nth.
Qed.

(** ** Fitting failures *)

Lemma fit_fails_without_rows (train : list Tick) (features : list string)
    (config : Config) :
  (forall cells,
      select_columns
        (features ++ [get_moving_column_name (response_column config) 0
                                             (holding_period config)]) train
      = Ok cells -> dropna cells = []) ->
  exists e, fit train features config = Raise e.
Proof.
  intros Hempty. unfold fit, regression_data.
  destruct (select_columns _ train) as [cells|e] eqn:Hcells; [|simpl; eauto].
  cbn [bind]. rewrite (Hempty cells eq_refl).
  destruct (mapM _ (enumerate features)) as [xcols|e]; [|simpl; eauto].
  cbn [bind].
  destruct (winsorize _ _ _) as [y|e]; [|simpl; eauto].
  simpl. eauto.
Qed.

Lemma fit_fails_singular (train : list Tick) (features : list string) (config : Config)
    (x : Matrix) (y : list Q) :
  regression_data train features config = Ok (x, y) ->
  linalg_inv (gram (length features) x) = None ->
  exists e, fit train features config = Raise e.
Proof.
  intros Hdata Hinv. unfold fit. rewrite Hdata. simpl.
  unfold LinearRegression_fit.
  destruct ((length x =? 0) || (length features =? 0))%nat; simpl; [eauto|].
  rewrite Hinv. eauto.
Qed.

Lemma backtest_day_fit_Raise (px : list Tick) (config : Config) (dates : list Z)
    (i : Z) (train : list Tick) (features : list string) (e : exn) :
  training_snapshot px config dates i = Ok train ->
  select_feature train config = Ok features ->
  fit train features config = Raise e ->
  backtest_day px config dates i = Raise e.
Proof.
  intros Htrain Hsel Hfit. unfold backtest_day.
  pose proof Htrain as Hd. unfold training_snapshot in Hd.
  apply bind_Ok in Hd. destruct Hd as [d [Hd _]].
  rewrite Hd. simpl. rewrite Htrain. simpl. unfold evaluate_day.
  rewrite Hsel. simpl. rewrite Hfit. reflexivity.
Qed.

Lemma backtest_loop_Raise (px : list Tick) (config : Config) (dates days : list Z)
    (i : Z) (e : exn) :
  In i days -> backtest_day px config dates i = Raise e ->
  forall btdf fs, exists e', backtest_loop px config dates days btdf fs = Raise e'.
Proof.
  induction days as [|j days IH]; [intros []|].
  intros [-> | Hin] Hday btdf fs; simpl.
  - rewrite Hday. simpl. eauto.
  - destruct (backtest_day px config dates j) as [[px_j st]|e0]; simpl; [|eauto].
    now apply IH.
Qed.

(** C2, as amended: [fit] raises when dropping the rows with missing
    values leaves no training row, and when X'X has no inverse; an
    evaluation day whose [fit] raises ends [backtest] with an exception, so
    no table is returned: nothing is recorded for that day and the later
    days are not processed. *)
Theorem fit_failure_aborts_backtest (px : list Tick) (config : Config) :
  (forall train features,
      (forall cells,
          select_columns
            (features ++ [get_moving_column_name (response_column config) 0
                                                 (holding_period config)]) train
          = Ok cells -> dropna cells = []) ->
      exists e, fit train features config = Raise e)
  /\ (forall train features x y,
        regression_data train features config = Ok (x, y) ->
        linalg_inv (gram (length features) x) = None ->
        exists e, fit train features config = Raise e)
  /\ (forall i train features e,
        In i (py_range (training_period config)
                       (Z.of_nat (length (sorted_set (map date px))))) ->
        training_snapshot px config (sorted_set (map date px)) i = Ok train ->
        select_feature train config = Ok features ->
        fit train features config = Raise e ->
        (exists e', backtest px config = Raise e')
        /\ forall btdf fs, backtest px config <> Ok (btdf, fs)).
Proof.
  split; [|split].
  - intros train features. apply fit_fails_without_rows.
  - intros train features x y. apply fit_fails_singular.
  - intros i train features e Hi Htrain Hsel Hfit.
    pose proof (backtest_day_fit_Raise _ _ _ _ _ _ _ Htrain Hsel Hfit) as Hday.
    destruct (backtest_loop_Raise _ _ _ _ _ _ Hi Hday [] []) as [e' He'].
    unfold backtest. rewrite He'. split; [eauto | discriminate].
Qed.

End FitterFacts.

(** ** The properties on the sample tables *)

Ltac sorted_rows :=
  repeat first
    [ apply SSorted_nil
    | apply SSorted_cons
    | apply Forall_nil
    | apply Forall_cons
    | (cbv; first [ reflexivity
                  | left; reflexivity
                  | right; split; [reflexivity | intro; discriminate]
                  | intro; discriminate ]) ].

Lemma trades_ordered : ordered_table Sample.trades.
Proof. unfold ordered_table, Sample.trades. sorted_rows. Defined.


Lemma trades_labels_increasing (d : Z) : labels_increasing (rows_on d Sample.trades).
Proof.
  unfold labels_increasing, rows_on. apply StronglySorted_filter.
  unfold Sample.trades. sorted_rows.
Defined.

(** C2 as stated fails: date 2 of [px_collinear] is trained on date 1,
    whose two predictors are collinear; [fit] raises LinAlgError there and
    so does [backtest], although the model of date 3 can be fitted. No
    diagnostics row is recorded and no table is returned. *)
Lemma backtest_aborts_on_singular_day :
  (exists train features,
      training_snapshot Sample.px_collinear Sample.config_collinear [1; 2; 3] 1
      = Ok train
      /\ select_feature (E := Exact.externals) train Sample.config_collinear
         = Ok features
      /\ fit (E := Exact.externals) train features Sample.config_collinear
         = Raise LinAlgError)
  /\ (exists train features regr stats,
        training_snapshot Sample.px_collinear Sample.config_collinear [1; 2; 3] 2
        = Ok train
        /\ select_feature (E := Exact.externals) train Sample.config_collinear
           = Ok features
        /\ fit (E := Exact.externals) train features Sample.config_collinear
           = Ok (regr, stats))
  /\ backtest (E := Exact.externals) Sample.px_collinear Sample.config_collinear
     = Raise LinAlgError
  /\ ~ (exists btdf fs,
          backtest (E := Exact.externals) Sample.px_collinear Sample.config_collinear
          = Ok (btdf, fs)).
Proof.
  split; [|split; [|split]].
  - do 2 eexists. split; [vm_compute; reflexivity|].
    split; vm_compute; reflexivity.
  - do 4 eexists. split; [vm_compute; reflexivity|].
    split; vm_compute; reflexivity.
  - vm_compute. reflexivity.
  - intros [btdf [fs H]]. vm_compute in H. discriminate.
Qed.

Lemma trade_decision_witness :
  (fst (trade_trigger_threshold Sample.config3)
   <= snd (trade_trigger_threshold Sample.config3))%Q
  /\ map bt (trade [Sample.row_inside] Sample.config3) = [Sample.row_inside]
  /\ Forall (fun t =>
               trade_ t = 1 <->
               (snd (trade_trigger_threshold Sample.config3) < alpha (bt t))%Q
               /\ in_window Sample.config3 (bt t))
            (trade [Sample.row_inside] Sample.config3).
Proof.
  assert (Hord : (fst (trade_trigger_threshold Sample.config3)
                  <= snd (trade_trigger_threshold Sample.config3))%Q)
    by (vm_compute; discriminate).
  split; [exact Hord|].
  destruct (trade_decision [Sample.row_inside] Sample.config3 Hord) as [Hrows Hall].
  split; [exact Hrows|].
  eapply Forall_impl; [|exact Hall].
  intros t Ht. cbv beta zeta in Ht. exact (proj1 Ht).
Defined.

Lemma walk_forward_window_witness :
  0 <= training_period Sample.config3
  /\ exists btdf fs,
       backtest (E := Exact.externals) Sample.px3 Sample.config3 = Ok (btdf, fs)
       /\ map fs_date fs = [3]
       /\ (forall r, In r btdf -> date (tick r) = 3)
       /\ exists s train features model,
            fs = [s]
            /\ (forall r, In r train <-> In r Sample.px3 /\ 1 <= date r < 3)
            /\ select_feature (E := Exact.externals) train Sample.config3
               = Ok features
            /\ fit (E := Exact.externals) train features Sample.config3
               = Ok (model, fs_stats s).
Proof.
  assert (Htp : 0 <= training_period Sample.config3) by (simpl; lia).
  split; [exact Htp|].
  assert (H : exists res,
             backtest (E := Exact.externals) Sample.px3 Sample.config3 = Ok res)
    by (eexists; vm_compute; reflexivity).
  destruct H as [[btdf fs] H]. exists btdf, fs. split; [exact H|].
  destruct (walk_forward_window (E := Exact.externals) Sample.px3 Sample.config3 Htp)
    as [_ [H2 H3]].
  destruct (H3 1 2 3 eq_refl eq_refl) as [Hdays H3'].
  destruct (H3' btdf fs H) as [Hfs Hrows].
  split; [exact Hfs|]. split; [exact Hrows|].
  destruct (H2 btdf fs H) as (_ & _ & results & Hb & Hf & Hall).
  rewrite Hdays in Hall.
  inversion Hall as [|i res l m Hres Hnil]; subst. inversion Hnil; subst.
  destruct Hres
    as (d & train & features & model & x_new
        & Hd & Hsnap & Hmem & Hset & Hsel & Hfit & Hdate & Hx & Hal & _).
  simpl in Hfs. injection Hfs as Hfs.
  vm_compute in Hd. injection Hd as Hd. subst d.
  exists (snd res), train, features, model.
  split; [reflexivity|]. split; [exact Hmem|]. split; [exact Hsel|].
  exact Hfit.
Defined.

Lemma fit_failure_aborts_backtest_witness :
  exists e',
    backtest (E := Exact.externals) Sample.px_collinear Sample.config_collinear
    = Raise e'.
Proof.
  destruct (fit_failure_aborts_backtest (E := Exact.externals)
              Sample.px_collinear Sample.config_collinear) as [_ [_ H]].
  edestruct (H 1) as [He _]; [ | | | | exact He].
  - vm_compute. left. reflexivity.
  - vm_compute. reflexivity.
  - vm_compute. reflexivity.
  - vm_compute. reflexivity.
Defined.

Lemma fixed_close_second_matched_witness :
  ordered_table Sample.trades
  /\ get_fixed_period_close_second Sample.trades Sample.config60
     = map (fixed_close_of Sample.config60 Sample.trades) Sample.trades.
Proof.
  split; [exact trades_ordered|].
  exact (proj1 (fixed_close_second_matched Sample.trades Sample.config60
                  trades_ordered)).
Defined.

(** The scenario of the 60-second holding period: a trade opened at second
    34200 on a date whose last tick is at 34250 is closed at 34250. *)
Example fixed_close_clamps_to_last_tick :
  nth 0 (get_fixed_period_close_second Sample.trades Sample.config60) 0 = 34250.
Proof. vm_compute. reflexivity. Qed.


(** With a tick_size of 0 the move to another mid is infinite: the sample
    trade opened at label 0 is closed at label 2, the first later row with
    another mid. *)
Example dynamic_hold_zero_tick_size :
  dynamic_hold (rows_on 1 Sample.trades) Sample.config_zero_tick 0 = Ok 2.
Proof. vm_compute. reflexivity. Qed.

Example dynamic_close_on_sample :
  get_dynamic_period_close_second Sample.trades Sample.config60
  = Ok [Some 34205; None; Some 34250; None; Some 34210; Some 34210; Some 34210].
Proof. vm_compute. reflexivity. Qed.

Lemma fit_diagnostics_witness :
  exists train regr stats,
    training_snapshot Sample.px3 Sample.config3 [1; 2; 3] 2 = Ok train
    /\ fit (E := Exact.externals) train ["ofi_5_0"%string] Sample.config3
       = Ok (regr, stats)
    /\ df_1 stats = 0
    /\ df_2 stats = 5.
Proof.
  assert (Ht : exists train,
             training_snapshot Sample.px3 Sample.config3 [1; 2; 3] 2 = Ok train)
    by (eexists; vm_compute; reflexivity).
  destruct Ht as [train Ht].
  assert (Hf : exists res,
             (train <- training_snapshot Sample.px3 Sample.config3 [1; 2; 3] 2 ;;
              fit (E := Exact.externals) train ["ofi_5_0"%string] Sample.config3)
             = Ok res)
    by (eexists; vm_compute; reflexivity).
  destruct Hf as [[regr stats] Hf]. rewrite Ht in Hf. simpl in Hf.
  exists train, regr, stats. split; [exact Ht|]. split; [exact Hf|].
  destruct (fit_diagnostics (E := Exact.externals) _ _ _ _ _ Hf)
    as (x & y & xtx_inv & Hdata & _ & _ & _ & _ & _ & _ & _ & Hrest).
  cbv zeta in Hrest.
  destruct Hrest as (_ & _ & _ & _ & _ & _ & _ & _ & Hd1 & Hd2).
  assert (Hy : (train <- training_snapshot Sample.px3 Sample.config3 [1; 2; 3] 2 ;;
                xy <- regression_data (E := Exact.externals) train
                        ["ofi_5_0"%string] Sample.config3 ;;
                Ok (length (snd xy))) = Ok 6%nat)
    by (vm_compute; reflexivity).
  rewrite Ht in Hy. simpl in Hy. rewrite Hdata in Hy. simpl in Hy.
  inversion Hy as [Hlen]. rewrite Hd1, Hd2, Hlen. simpl. split; reflexivity.
Defined.

Lemma summary_corr_net_is_raw_witness :
  exists s,
    summary (E := Exact.externals) Sample.priced Sample.config3 = Ok s
    /\ corr_alpha_net_pnl s = corr_alpha_pnl s.
Proof.
  assert (H : exists s,
             summary (E := Exact.externals) Sample.priced Sample.config3 = Ok s)
    by (eexists; vm_compute; reflexivity).
  destruct H as [s H]. exists s. split; [exact H|].
  exact (proj1 (summary_corr_net_is_raw (E := Exact.externals) _ _ _ H)).
Defined.

Lemma summary_needs_a_trade_witness :
  (forall r, In r (@nil PnlRow) -> p_trade r = 0)
  /\ summary (E := Exact.externals) [] Sample.config3 = Raise ZeroDivisionError.
Proof.
  assert (Hz : forall r, In r (@nil PnlRow) -> p_trade r = 0) by (intros r []).
  split; [exact Hz|].
  exact (proj1 (proj2 (summary_needs_a_trade (E := Exact.externals) []
                         Sample.config3) Hz)).
Defined.

Lemma pnl_arithmetic_witness :
  ordered_table Sample.trades
  /\ exists out,
       pnl Sample.trades Sample.config3 = Ok out
       /\ (forall r, In r Sample.trades -> exists p, In p out /\ p_row p = r)
       /\ forall p, In p out -> p_trade p <> 0 -> exists cp, close_price p = Some cp.
Proof.
  split; [exact trades_ordered|].
  destruct (pnl_arithmetic Sample.trades Sample.config3) as [Hex Hall].
  destruct Hex as [out Hout]; [intros Hdyn; discriminate Hdyn|].
  exists out. split; [exact Hout|].
  destruct (Hall out Hout) as (Hkeep & _ & _ & H).
  split; [exact Hkeep|]. intros p Hp Ht.
  destruct (H trades_ordered (fun _ => trades_labels_increasing) p Hp Ht)
    as (cp & Hcp & _).
  exists cp. exact Hcp.
Defined.


(** A buy priced at the quotes: the first sample row buys at the offer 102
    and, five seconds later, sells at the bid 102. *)
Example buy_opens_at_offer_closes_at_bid :
  match pnl Sample.trades Sample.config3 with
  | Ok (p :: _) =>
      p_trade p = 1 /\ p_open_price p == 102 /\ oQeq (close_price p) (Some 102%Q)
  | _ => False
  end.
Proof. vm_compute. repeat split. Qed.

(** * Further properties of the pipeline *)

(** ** Trade signals *)

(** X1: [trade] keeps the table row for row, every row with all its
    columns and in its place, and writes only the signals -1, 0 and +1. *)
Theorem trade_values (btdf : list BtRow) (config : Config) :
  map bt (trade btdf config) = btdf
  /\ length (trade btdf config) = length btdf
  /\ Forall (fun t => trade_ t = -1 \/ trade_ t = 0 \/ trade_ t = 1)
            (trade btdf config).
Proof.
  split; [unfold trade; rewrite map_map; apply map_id|].
  split; [unfold trade; apply length_map|].
  apply Forall_forall. intros t Ht. unfold trade in Ht.
  apply in_map_iff in Ht. destruct Ht as [r [<- _]]. simpl.
  destruct (trade_signal_cases config r) as [_ [_ H]]. tauto.
Qed.

(** ** The fixed-horizon search stays inside the date *)

Lemma bsearch_bounds (fuel : nat) (a : list Z) (key : Z) (lo hi : nat) :
  (lo <= hi)%nat -> (lo <= bsearch fuel a key lo hi <= hi)%nat.
Proof.
  revert lo hi. induction fuel as [|fuel IH]; intros lo hi Hle; [simpl; lia|].
  rewrite bsearch_step.
  destruct (Nat.ltb_spec lo hi) as [Hlt|Hge]; [|lia].
  assert (Hm : (lo <= lo + (hi - lo) / 2 < hi)%nat).
  { pose proof (Nat.Div0.div_lt_upper_bound (hi - lo) 2 (hi - lo)). lia. }
  destruct (nth _ a 0 <? key).
  - specialize (IH (lo + (hi - lo) / 2 + 1)%nat hi). lia.
  - specialize (IH lo (lo + (hi - lo) / 2)%nat). lia.
Qed.

Lemma searchsorted_le_length (a : list Z) (key : Z) :
  (searchsorted a key <= length a)%nat.
Proof. unfold searchsorted. pose proof (bsearch_bounds (length a) a key 0 (length a)). lia. Qed.

Lemma fixed_day_close_In (bti : list TradeRow) (config : Config) (m : Z) :
  In m (fixed_day_close bti config) -> exists c, In c bti /\ t_second c = m.
Proof.
  unfold fixed_day_close. rewrite !length_map, !map_map.
  intros Hm. apply in_map_iff in Hm. destruct Hm as [r [Hm Hr]].
  set (k := searchsorted (map t_second bti) (t_second r + holding_period config)) in *.
  pose proof (searchsorted_le_length (map t_second bti)
                (t_second r + holding_period config)) as Hk.
  fold k in Hk. rewrite length_map in Hk.
  assert (Hn : (0 < length bti)%nat) by (destruct bti; [contradiction | simpl; lia]).
  assert (Hin : In m (map t_second bti)).
  { rewrite <- Hm. apply nth_In. rewrite length_map.
    destruct (Nat.eqb_spec k (length bti)); lia. }
  apply in_map_iff in Hin. destruct Hin as [c [Hc Hcin]]. eauto.
Qed.

(** X2: whatever the order of the table, every second returned by
    [get_fixed_period_close_second] is the second of a tick of the table:
    the clamped search index never leaves the date it searches. *)
Theorem fixed_close_second_is_a_tick (btdf : list TradeRow) (config : Config) (m : Z) :
  In m (get_fixed_period_close_second btdf config) ->
  exists d c, In d (map t_date btdf) /\ In c btdf /\ t_date c = d /\ t_second c = m.
Proof.
  unfold get_fixed_period_close_second. intros Hm.
  apply in_flat_map in Hm. destruct Hm as [d [Hd Hm]].
  apply fixed_day_close_In in Hm. destruct Hm as [c [Hc Hs]].
  apply filter_In in Hc. destruct Hc as [Hc He]. apply Z.eqb_eq in He.
  exists d, c. split; [exact (proj1 (In_sorted_set _ _) Hd)|]. auto.
Qed.

Lemma StronglySorted_le_last (l : list Z) (x d : Z) :
  StronglySorted Z.le l -> In x l -> x <= last l d.
Proof.
  intros Hs. revert x. induction Hs as [|a l Hs IH Hall]; intros x Hx; [contradiction|].
  rewrite Forall_forall in Hall.
  destruct l as [|b l'].
  - destruct Hx as [<- | []]. simpl. lia.
  - change (last (a :: b :: l') d) with (last (b :: l') d).
    destruct Hx as [<- | Hx]; [|now apply IH].
    transitivity b; [apply Hall; now left | apply IH; now left].
Qed.

Lemma last_map {A B : Type} (f : A -> B) (l : list A) (d : A) :
  last (map f l) (f d) = f (last l d).
Proof.
  induction l as [|a l IH]; [reflexivity|].
  destruct l as [|b l']; [reflexivity|]. exact IH.
Qed.

(** X3: on a table in (date, second) order and with a holding period that
    is not negative, the fixed-horizon close second of every row is at or
    after the row's own second. *)
Theorem fixed_close_not_before_open (btdf : list TradeRow) (config : Config) :
  ordered_table btdf ->
  0 <= holding_period config ->
  Forall2 (fun r m => t_second r <= m) btdf
          (get_fixed_period_close_second btdf config).
Proof.
  intros Hord Hhp. rewrite (get_fixed_period_close_second_map btdf config Hord).
  assert (H : forall l, (forall r, In r l -> In r btdf) ->
            Forall2 (fun r m => t_second r <= m) l
                    (map (fixed_close_of config btdf) l)).
  { induction l as [|r l IH]; intros Hl; simpl; constructor.
    - unfold fixed_close_of.
      destruct (find _ _) as [c|] eqn:Hf.
      + apply find_some in Hf. destruct Hf as [_ Hc]. apply Z.leb_le in Hc. lia.
      + rewrite <- last_map. apply StronglySorted_le_last.
        * apply (ordered_table_seconds btdf (t_date r) Hord).
        * apply in_map. apply filter_In. split; [apply Hl; now left|].
          apply Z.eqb_refl.
    - apply IH. intros; apply Hl; now right. }
  apply H. auto.
Qed.

(** ** The dynamic-unwind search *)

Lemma dynamic_hold_unknown_label (bti : list TradeRow) (config : Config) (i : Z) :
  ~ In i (map t_idx bti) -> dynamic_hold bti config i = Raise KeyError.
Proof.
  intros Hnot. unfold dynamic_hold.
  assert (H : rows_at i bti = []).
  { apply filter_none. intros x Hx. apply Z.eqb_neq. intro He.
    apply Hnot. rewrite <- He. now apply in_map. }
  now rewrite H.
Qed.

Lemma dynamic_hold_known_label (bti : list TradeRow) (config : Config) (i : Z) :
  In i (map t_idx bti) ->
  exists c, dynamic_hold bti config i = Ok c /\ In c (map t_idx bti).
Proof.
  intros Hin. apply in_map_iff in Hin. destruct Hin as [r [<- Hr]].
  unfold dynamic_hold. pose proof (rows_at_In bti r Hr) as Hat.
  assert (Hlast : exists c, last_label bti = Ok c /\ In c (map t_idx bti)).
  { rewrite (last_label_nonempty bti r Hr). eexists. split; [reflexivity|].
    apply in_map. destruct (last_In bti r) as [He | Hl]; [now rewrite <- He | exact Hl]. }
  destruct (rows_at (t_idx r) bti) as [|ri [|b l]]; [contradiction| |exact Hlast].
  destruct (map t_idx (filter _ bti)) as [|i0 rest] eqn:Hf; [exact Hlast|].
  exists i0. split; [reflexivity|].
  assert (Hi0 : In i0 (map t_idx (filter
            (fun x => breaches config (t_mid ri) x && (t_idx r <? t_idx x)) bti)))
    by (rewrite Hf; now left).
  apply in_map_iff in Hi0. destruct Hi0 as [c [<- Hc]].
  apply in_map. apply filter_In in Hc. tauto.
Qed.

(** X4: [dynamic_hold] raises KeyError for a label that is not in the
    date's table; for a label of a table whose labels are distinct it
    returns, and what it returns is again a label of the table. *)
Theorem dynamic_hold_label (bti : list TradeRow) (config : Config) (i : Z) :
  (~ In i (map t_idx bti) -> dynamic_hold bti config i = Raise KeyError)
  /\ (NoDup (map t_idx bti) -> In i (map t_idx bti) ->
      exists c, dynamic_hold bti config i = Ok c /\ In c (map t_idx bti)).
Proof.
  split; [apply dynamic_hold_unknown_label | intros _; apply dynamic_hold_known_label].
Qed.

(** X5: when the index labels of the date's table grow along its rows, the
    label [dynamic_hold] returns is never smaller than the label it was
    called on: a position is never closed on a row before its open row. *)
Theorem dynamic_hold_not_before_open (bti : list TradeRow) (config : Config)
    (i c : Z) :
  labels_increasing bti ->
  dynamic_hold bti config i = Ok c ->
  i <= c.
Proof.
  intros Hs Hc.
  assert (Hin : In i (map t_idx bti)).
  { destruct (in_dec Z.eq_dec i (map t_idx bti)) as [Hin|Hnot]; [exact Hin|].
    rewrite (dynamic_hold_unknown_label bti config i Hnot) in Hc. discriminate. }
  apply in_map_iff in Hin. destruct Hin as [r [<- Hr]].
  apply in_split in Hr. destruct Hr as [pre [post ->]].
  rewrite (dynamic_hold_split config pre post r Hs) in Hc. inversion Hc; subst c.
  destruct (labels_split pre post r Hs) as [_ Hpost].
  destruct (first_breach_or_last_In config r post) as [<- | Hin]; [lia|].
  specialize (Hpost _ Hin). lia.
Qed.

Lemma dynamic_close_scan_order (config : Config) (tbl : list TradeRow) :
  ordered_table tbl ->
  Forall2 (fun r m =>
             match m with
             | Some s => trade_ r <> 0 /\ t_second r <= s
             | None => trade_ r = 0
             end)
          tbl (dynamic_close_scan config tbl).
Proof.
  induction 1 as [|r post Hs IH Hall]; simpl; constructor; [|exact IH].
  rewrite Forall_forall in Hall.
  destruct (Z.eqb_spec (trade_ r) 0) as [Hz|Hnz]; [exact Hz|].
  split; [exact Hnz|].
  destruct (first_breach_or_last_In config r
              (filter (fun c => t_date c =? t_date r) post)) as [<- | Hin]; [lia|].
  apply filter_In in Hin. destruct Hin as [Hin He]. apply Z.eqb_eq in He.
  destruct (Hall _ Hin) as [Hlt | [_ Hle]]; lia.
Qed.

(** X6: on a table in (date, second) order whose index labels grow along
    each date, [get_dynamic_period_close_second] returns one entry per row;
    the entry is missing exactly for the rows with trade = 0, and for the
    other rows it is a second at or after the row's own second. *)
Theorem dynamic_close_not_before_open (btdf : list TradeRow) (config : Config) :
  ordered_table btdf ->
  (forall d, labels_increasing (rows_on d btdf)) ->
  exists res,
    get_dynamic_period_close_second btdf config = Ok res
    /\ Forall2 (fun r m =>
                  match m with
                  | Some s => trade_ r <> 0 /\ t_second r <= s
                  | None => trade_ r = 0
                  end)
               btdf res.
Proof.
  intros Hord Hlab. exists (dynamic_close_scan config btdf). split.
  - apply get_dynamic_period_close_second_scan; [|exact Hlab].
    now apply ordered_table_dates.
  - now apply dynamic_close_scan_order.
Qed.

(** ** The join of [pnl] *)

Lemma left_join_length_ge (l : list OpenRow) (r : list CloseTick) :
  (length l <= length (left_join l r))%nat.
Proof.
  unfold left_join.
  set (f := fun o => match filter (join_key_eqb o) r with
                     | [] => [mkJoinedRow o None]
                     | ms => map (fun c => mkJoinedRow o (Some c)) ms
                     end).
  induction l as [|o l IH]; [simpl; lia|].
  cbn [flat_map]. rewrite length_app.
  assert (Hf : (1 <= length (f o))%nat).
  { unfold f. destruct (filter (join_key_eqb o) r); simpl; lia. }
  simpl length at 1. lia.
Qed.

Lemma left_join_unique (l : list OpenRow) (r : list CloseTick) :
  (forall o, In o l -> (length (filter (join_key_eqb o) r) <= 1)%nat) ->
  map j_open (left_join l r) = l.
Proof.
  unfold left_join.
  set (f := fun o => match filter (join_key_eqb o) r with
                     | [] => [mkJoinedRow o None]
                     | ms => map (fun c => mkJoinedRow o (Some c)) ms
                     end).
  induction l as [|o l IH]; intros H; [reflexivity|].
  cbn [flat_map]. rewrite map_app, IH by (intros; apply H; now right).
  assert (Hf : map j_open (f o) = [o]).
  { unfold f. pose proof (H o (or_introl eq_refl)) as Ho.
    destruct (filter (join_key_eqb o) r) as [|c [|c' ms]]; simpl in *;
      [reflexivity | reflexivity | lia]. }
  rewrite Hf. reflexivity.
Qed.

Lemma unique_key_matches (btdf : list TradeRow) (o : OpenRow) :
  NoDup (map join_key btdf) ->
  (length (filter (join_key_eqb o) (dummy_bt btdf)) <= 1)%nat.
Proof.
  induction btdf as [|a l IH]; intros Hnd; simpl; [lia|].
  inversion Hnd as [|? ? Hnin Hnd']; subst.
  destruct (join_key_eqb o _) eqn:Hk; [|now apply IH].
  simpl. rewrite filter_none; [simpl; lia|].
  intros c Hc. destruct (join_key_eqb o c) eqn:Hkc; [|reflexivity].
  exfalso. apply Hnin.
  unfold dummy_bt in Hc. apply in_map_iff in Hc. destruct Hc as [b [<- Hb]].
  unfold join_key_eqb in Hk, Hkc. simpl in Hk, Hkc.
  apply andb_true_iff in Hk, Hkc. destruct Hk as [Hd Hs], Hkc as [Hd' Hs'].
  apply Z.eqb_eq in Hd, Hd'.
  destruct (matched_close_second o) as [s|]; [|discriminate].
  apply Z.eqb_eq in Hs, Hs'.
  apply in_map_iff. exists b. split; [|exact Hb].
  unfold join_key. congruence.
Qed.

Lemma map_fst_combine {A B : Type} (l : list A) (m : list B) :
  length m = length l -> map fst (combine l m) = l.
Proof.
  revert m. induction l as [|a l IH]; intros [|b m] H; simpl in *;
    try reflexivity; try discriminate.
  f_equal. apply IH. lia.
Qed.

(** X7: when [pnl] returns, it never returns fewer rows than it was
    given, and when no two ticks of the table share a date and second it
    returns exactly the rows of the table, in their order: the join on
    (date, matched_close_second) then neither drops nor repeats a row. *)
Theorem pnl_rows (btdf : list TradeRow) (config : Config) (out : list PnlRow) :
  pnl btdf config = Ok out ->
  (length btdf <= length out)%nat
  /\ (NoDup (map join_key btdf) -> map p_row out = btdf).
Proof.
  intros Hp.
  destruct (pnl_shape btdf config out Hp) as [matched [Hl [_ ->]]].
  split.
  - rewrite length_map.
    etransitivity; [|apply left_join_length_ge].
    rewrite length_map, length_combine. lia.
  - intros Hnd.
    transitivity
      (map o_row
         (map j_open
            (left_join
               (map (fun rm => mkOpenRow (fst rm) (open_price_of config (fst rm))
                                         (snd rm))
                    (combine btdf matched))
               (dummy_bt btdf)))).
    + rewrite !map_map. apply map_ext. intros j. reflexivity.
    + rewrite left_join_unique by (intros o _; now apply unique_key_matches).
      rewrite map_map. simpl. now apply map_fst_combine.
Qed.

(** ** Rows of the priced table *)

Lemma pnl_row_shape (btdf : list TradeRow) (config : Config) (out : list PnlRow)
    (p : PnlRow) :
  pnl btdf config = Ok out -> In p out ->
  exists r m jc matched,
    In r btdf
    /\ (if dynamic_unwinding config
        then get_dynamic_period_close_second btdf config
        else Ok (map Some (get_fixed_period_close_second btdf config))) = Ok matched
    /\ In (r, m) (combine btdf matched)
    /\ p = price_row config (mkJoinedRow (mkOpenRow r (open_price_of config r) m) jc)
    /\ match jc with
       | Some c =>
           exists t, In t btdf /\ t_date t = t_date r /\ m = Some (t_second t)
                     /\ c = mkCloseTick (t_date t) (t_second t) (b1 (t_tick t))
                                        (s1 (t_tick t)) (t_mid t)
       | None => True
       end.
Proof.
  intros Hout Hp.
  destruct (pnl_shape btdf config out Hout) as [matched [Hl [Hm Hpnl]]].
  subst out. clear Hout.
  apply in_map_iff in Hp. destruct Hp as [j [<- Hj]].
  apply left_join_In in Hj. destruct Hj as [Ho Hc].
  apply in_map_iff in Ho. destruct Ho as [[r m] [Ho Hrm]]. simpl in Ho.
  destruct j as [o jc]. simpl in Ho, Hc. subst o.
  exists r, m, jc, matched.
  split; [exact (in_combine_l _ _ _ _ Hrm)|]. split; [exact Hm|].
  split; [exact Hrm|]. split; [reflexivity|].
  destruct jc as [c|]; [|exact I].
  destruct Hc as [Hc Hk]. unfold dummy_bt in Hc.
  apply in_map_iff in Hc. destruct Hc as [t [<- Ht]].
  unfold join_key_eqb in Hk. simpl in Hk.
  apply andb_true_iff in Hk. destruct Hk as [Hd Hs]. apply Z.eqb_eq in Hd.
  destruct m as [s|]; [|discriminate]. apply Z.eqb_eq in Hs. subst s.
  exists t. auto.
Qed.

Lemma b2q_nonneg (b : bool) : (0 <= b2q b)%Q.
Proof. destruct b; simpl; lra. Qed.

Lemma In_combine_scan_untraded (config : Config) (l : list TradeRow) (r : TradeRow)
    (m : option Z) :
  In (r, m) (combine l (dynamic_close_scan config l)) -> trade_ r = 0 -> m = None.
Proof.
  induction l as [|x l IH]; simpl; [intros []|].
  intros [H | H] Ht; [|now apply IH].
  inversion H; subst x m. now rewrite Ht.
Qed.

(** X8: in the table that [pnl] returns, a row with trade = 0 costs and
    earns nothing: whenever [pnl] finds its close price, its pnl, fee and
    net pnl are 0, and without [use_mid] its open price is 0 as well. Under
    the dynamic policy, on a table in (date, second) order with growing
    index labels, such a row has no matched close second at all and its
    close price, pnl and net pnl are missing. *)
Theorem untraded_rows (btdf : list TradeRow) (config : Config) (out : list PnlRow) :
  pnl btdf config = Ok out ->
  (forall p, In p out -> p_trade p = 0 ->
     (use_mid config = false -> p_open_price p == 0)
     /\ forall cp, close_price p = Some cp ->
          exists pn fee net,
            pnl_col p = Some pn /\ transaction_fee_col p = Some fee
            /\ net_pnl p = Some net /\ pn == 0 /\ fee == 0 /\ net == 0)
  /\ (dynamic_unwinding config = true ->
      ordered_table btdf ->
      (forall d, labels_increasing (rows_on d btdf)) ->
      forall p, In p out -> p_trade p = 0 ->
        matched_close_second (j_open (joined p)) = None
        /\ close_price p = None /\ pnl_col p = None /\ net_pnl p = None).
Proof.
  intros Hp. split.
  - intros p Hin Ht.
    destruct (pnl_row_shape btdf config _ p Hp Hin)
      as (r & m & jc & mt & _ & _ & _ & -> & _).
    unfold p_trade, p_row, p_open_price in *. simpl in *. split.
    + intros Hmid. unfold open_price_of. rewrite Hmid, Ht. simpl. lra.
    + intros cp Hcp. rewrite Hcp, Ht. simpl.
      change (inject_Z 0) with 0%Q.
      do 3 eexists. split; [reflexivity|]. split; [reflexivity|].
      split; [reflexivity|]. repeat split; ring.
  - intros Hdyn Hord Hlab p Hin Ht.
    destruct (pnl_row_shape btdf config _ p Hp Hin)
      as (r & m & jc & mt & _ & Hm & Hrm & -> & Hjc).
    unfold p_trade, p_row in Ht. simpl in Ht.
    rewrite Hdyn in Hm.
    rewrite (get_dynamic_period_close_second_scan btdf config
               (ordered_table_dates btdf Hord) Hlab) in Hm.
    inversion Hm; subst mt.
    pose proof (In_combine_scan_untraded config btdf r m Hrm Ht) as Hnone. subst m.
    destruct jc as [c|].
    + destruct Hjc as (t & _ & _ & Hcontra & _). discriminate.
    + unfold price_row, close_price_of, close_b1, close_s1, close_mid. simpl.
      destruct (use_mid config); simpl; auto.
Qed.

(** X9: with a fee rate, best bids, best offers and mids that are not
    negative, no row of the table returned by [pnl] has a negative fee, and
    its net pnl never exceeds its pnl. *)
Theorem fee_never_negative (btdf : list TradeRow) (config : Config)
    (out : list PnlRow) (p : PnlRow) :
  (0 <= transaction_fee config)%Q ->
  (forall r, In r btdf ->
     (0 <= b1 (t_tick r))%Q /\ (0 <= s1 (t_tick r))%Q /\ (0 <= t_mid r)%Q) ->
  pnl btdf config = Ok out ->
  In p out ->
  match transaction_fee_col p, pnl_col p, net_pnl p with
  | Some fee, Some pn, Some net => (0 <= fee)%Q /\ (net <= pn)%Q
  | None, None, None => close_price p = None
  | _, _, _ => False
  end.
Proof.
  intros Hfee Hq Hout Hin.
  destruct (pnl_row_shape btdf config _ p Hout Hin)
    as (r & m & jc & mt & Hr & _ & _ & -> & Hjc).
  destruct (Hq r Hr) as (Hb & Hs & Hm).
  assert (Hop : (0 <= open_price_of config r)%Q).
  { unfold open_price_of. destruct (use_mid config); [exact Hm|].
    pose proof (b2q_nonneg (0 <? trade_ r)). pose proof (b2q_nonneg (trade_ r <? 0)).
    nra. }
  unfold price_row, close_price_of, close_b1, close_s1, close_mid. simpl.
  destruct jc as [c|]; simpl.
  - destruct Hjc as (t & Ht & _ & _ & ->). simpl.
    destruct (Hq t Ht) as (Hb' & Hs' & Hm').
    assert (Habs : (0 <= inject_Z (Z.abs (trade_ r)))%Q).
    { change 0%Q with (inject_Z 0). rewrite <- Zle_Qle. apply Z.abs_nonneg. }
    pose proof (b2q_nonneg (0 <? trade_ r)). pose proof (b2q_nonneg (trade_ r <? 0)).
    destruct (use_mid config); simpl.
    + assert (0 <= transaction_fee config * inject_Z (Z.abs (trade_ r))
                   * (open_price_of config r + t_mid t))%Q by
        (apply Qmult_le_0_compat; [apply Qmult_le_0_compat; assumption | lra]).
      split; lra.
    + assert (0 <= b2q (0 <? trade_ r) * b1 (t_tick t)
                   + b2q (trade_ r <? 0) * s1 (t_tick t))%Q by nra.
      assert (0 <= transaction_fee config * inject_Z (Z.abs (trade_ r))
                   * (open_price_of config r
                      + (b2q (0 <? trade_ r) * b1 (t_tick t)
                         + b2q (trade_ r <? 0) * s1 (t_tick t))))%Q by
        (apply Qmult_le_0_compat; [apply Qmult_le_0_compat; assumption | lra]).
      split; lra.
  - destruct (use_mid config); reflexivity.
Qed.

(** ** Summary statistics *)

Lemma filter_idem {A : Type} (f : A -> bool) (l : list A) :
  filter f (filter f l) = filter f l.
Proof. apply forallb_filter_id, forallb_filter. Qed.

Lemma count_disjoint {A : Type} (f g : A -> bool) (l : list A) :
  (forall x, In x l -> f x = true -> g x = false) ->
  count_true f l + count_true g l <= Z.of_nat (length l).
Proof.
  unfold count_true. induction l as [|a l IH]; intros H; simpl; [lia|].
  assert (IH' := IH (fun x Hx => H x (or_intror Hx))).
  pose proof (H a (or_introl eq_refl)) as Ha.
  destruct (f a), (g a); simpl length;
    first [lia | specialize (Ha eq_refl); discriminate].
Qed.

Lemma count_cover {A : Type} (f g : A -> bool) (l : list A) :
  (forall x, In x l -> f x = true -> g x = false) ->
  (forall x, In x l -> f x = true \/ g x = true) ->
  count_true f l + count_true g l = Z.of_nat (length l).
Proof.
  unfold count_true. induction l as [|a l IH]; intros H Hc; simpl; [lia|].
  assert (IH' := IH (fun x Hx => H x (or_intror Hx)) (fun x Hx => Hc x (or_intror Hx))).
  pose proof (H a (or_introl eq_refl)) as Ha.
  pose proof (Hc a (or_introl eq_refl)) as Hca.
  destruct (f a), (g a); simpl length;
    first [lia | specialize (Ha eq_refl); discriminate | destruct Hca; discriminate].
Qed.

Lemma count_true_nonneg {A : Type} (f : A -> bool) (l : list A) : 0 <= count_true f l.
Proof. unfold count_true. lia. Qed.

Lemma count_true_le {A : Type} (f : A -> bool) (l : list A) :
  count_true f l <= Z.of_nat (length l).
Proof. unfold count_true. pose proof (filter_length_le f l). lia. Qed.

Lemma ogtb_oltb_disjoint (a : oQ) : ogtb a 0 = true -> oltb a 0 = false.
Proof.
  destruct a as [x|]; simpl; [|discriminate].
  intros H. apply negb_true_iff in H. apply negb_false_iff.
  apply Qle_bool_iff. destruct (Qle_bool x 0) eqn:Hx; [discriminate|].
  apply Qlt_le_weak, Qnot_le_lt. intro Hle. apply Qle_bool_iff in Hle. congruence.
Qed.

Lemma ogtb_oltb_cover (a : oQ) (v : Q) :
  a = Some v -> ~ v == 0 -> ogtb a 0 = true \/ oltb a 0 = true.
Proof.
  intros -> Hv. simpl.
  destruct (Qle_bool v 0) eqn:Hle; [|now left].
  right. apply negb_true_iff. destruct (Qle_bool 0 v) eqn:Hge; [|reflexivity].
  exfalso. apply Hv. apply Qle_bool_iff in Hle, Hge. now apply Qle_antisym.
Qed.

Lemma rate_bounds (a n : Z) :
  0 <= a <= n -> 0 < n -> (0 <= inject_Z a / inject_Z n <= 1)%Q.
Proof.
  intros Ha Hn.
  assert (Hnq : (0 < inject_Z n)%Q) by (change 0%Q with (inject_Z 0); now rewrite <- Zlt_Qlt).
  split.
  - apply Qle_shift_div_l; [exact Hnq|]. rewrite Qmult_0_l.
    change 0%Q with (inject_Z 0). rewrite <- Zle_Qle. lia.
  - apply Qle_shift_div_r; [exact Hnq|]. rewrite Qmult_1_l. rewrite <- Zle_Qle. lia.
Qed.

Lemma rate_sum (a b n : Z) :
  0 < n ->
  (inject_Z a / inject_Z n + inject_Z b / inject_Z n == inject_Z (a + b) / inject_Z n)%Q.
Proof.
  intros Hn. rewrite inject_Z_plus. field.
  intro H. unfold Qeq in H. simpl in H. lia.
Qed.

Section SummaryFacts.
Context {E : Externals}.

Lemma summary_Ok (btdf : list PnlRow) (config : Config) (s : Summary) :
  summary btdf config = Ok s ->
  let trades := filter (fun r => negb (p_trade r =? 0)) btdf in
  let n := Z.of_nat (length trades) in
  0 < n
  /\ n_trades s = n
  /\ n_trading_days s
     = Z.of_nat (length (sorted_set (map (fun r => t_date (p_row r)) trades)))
  /\ n_trades_per_day s = safe_divide (inject_Z n) (inject_Z (n_trading_days s))
  /\ winning_rate s = (inject_Z (count_true (fun r => ogtb (pnl_col r) 0) trades)
                       / inject_Z n)%Q
  /\ losing_rate s = (inject_Z (count_true (fun r => oltb (pnl_col r) 0) trades)
                      / inject_Z n)%Q
  /\ net_winning_rate s = (inject_Z (count_true (fun r => ogtb (net_pnl r) 0) trades)
                           / inject_Z n)%Q
  /\ net_losing_rate s = (inject_Z (count_true (fun r => oltb (net_pnl r) 0) trades)
                          / inject_Z n)%Q
  /\ total_pnl s = series_sum (map pnl_col trades)
  /\ total_net_pnl s = series_sum (map net_pnl trades).
Proof.
  intros H trades n.
  assert (Hn : 0 < n).
  { destruct (Z.eq_dec n 0) as [Hz|Hz]; [|lia].
    exfalso. unfold summary in H. fold trades in H. fold n in H.
    unfold py_div in H. rewrite Hz in H. discriminate. }
  split; [exact Hn|].
  unfold summary in H. fold trades in H. fold n in H.
  rewrite !(py_div_Ok _ n) in H by lia. simpl in H.
  inversion H. simpl. repeat split; reflexivity.
Qed.

(** X10: whenever [summary] returns, its four rates lie between 0 and 1,
    the winning and losing rates add up to at most 1, and to exactly 1 when
    every traded row has a pnl that is present and not 0; the same holds
    for the net rates with net pnl. *)
Theorem summary_rates (btdf : list PnlRow) (config : Config) (s : Summary) :
  summary btdf config = Ok s ->
  (0 <= winning_rate s <= 1)%Q /\ (0 <= losing_rate s <= 1)%Q
  /\ (0 <= net_winning_rate s <= 1)%Q /\ (0 <= net_losing_rate s <= 1)%Q
  /\ (winning_rate s + losing_rate s <= 1)%Q
  /\ (net_winning_rate s + net_losing_rate s <= 1)%Q
  /\ ((forall r, In r btdf -> p_trade r <> 0 ->
         exists v, pnl_col r = Some v /\ ~ v == 0) ->
      winning_rate s + losing_rate s == 1)
  /\ ((forall r, In r btdf -> p_trade r <> 0 ->
         exists v, net_pnl r = Some v /\ ~ v == 0) ->
      net_winning_rate s + net_losing_rate s == 1).
Proof.
  intros H. apply summary_Ok in H. cbv zeta in H.
  set (trades := filter (fun r => negb (p_trade r =? 0)) btdf) in *.
  set (n := Z.of_nat (length trades)) in *.
  destruct H as (Hn & _ & _ & _ & Hw & Hl & Hnw & Hnl & _).
  rewrite Hw, Hl, Hnw, Hnl.
  assert (Hb : forall f : PnlRow -> bool,
             (0 <= inject_Z (count_true f trades) / inject_Z n <= 1)%Q).
  { intros f. apply rate_bounds; [|exact Hn].
    split; [apply count_true_nonneg | apply count_true_le]. }
  assert (Hsum : forall f g : PnlRow -> bool,
             (forall x, In x trades -> f x = true -> g x = false) ->
             (inject_Z (count_true f trades) / inject_Z n
              + inject_Z (count_true g trades) / inject_Z n <= 1)%Q).
  { intros f g Hd. rewrite rate_sum by exact Hn.
    apply rate_bounds; [|exact Hn]. split.
    - pose proof (count_true_nonneg f trades). pose proof (count_true_nonneg g trades). lia.
    - now apply count_disjoint. }
  assert (Heq : forall f g : PnlRow -> bool,
             (forall x, In x trades -> f x = true -> g x = false) ->
             (forall x, In x trades -> f x = true \/ g x = true) ->
             (inject_Z (count_true f trades) / inject_Z n
              + inject_Z (count_true g trades) / inject_Z n == 1)%Q).
  { intros f g Hd Hc. rewrite rate_sum by exact Hn.
    rewrite (count_cover f g trades Hd Hc). fold n. field.
    intro H0. unfold Qeq in H0. simpl in H0. lia. }
  assert (Htr : forall r, In r trades -> In r btdf /\ p_trade r <> 0).
  { intros r Hr. apply filter_In in Hr. destruct Hr as [Hr Ht].
    apply negb_true_iff, Z.eqb_neq in Ht. auto. }
  repeat match goal with |- _ /\ _ => split end; try apply Hb.
  - apply Hsum. intros x _. apply ogtb_oltb_disjoint.
  - apply Hsum. intros x _. apply ogtb_oltb_disjoint.
  - intros Hall. apply Heq.
    + intros x _. apply ogtb_oltb_disjoint.
    + intros x Hx. destruct (Htr x Hx) as [Hin Ht].
      destruct (Hall x Hin Ht) as [v [Hv Hnz]]. now apply (ogtb_oltb_cover _ v).
  - intros Hall. apply Heq.
    + intros x _. apply ogtb_oltb_disjoint.
    + intros x Hx. destruct (Htr x Hx) as [Hin Ht].
      destruct (Hall x Hin Ht) as [v [Hv Hnz]]. now apply (ogtb_oltb_cover _ v).
Qed.

End SummaryFacts.

(** ** Daily summary *)

Lemma length_insert_uniq (d : Z) (l : list Z) :
  (length l <= length (insert_uniq d l) <= S (length l))%nat.
Proof.
  induction l as [|x l IH]; simpl; [lia|].
  destruct (d <? x); [simpl; lia|]. destruct (d =? x); simpl; lia.
Qed.

Lemma length_sorted_set (l : list Z) :
  (length (sorted_set l) <= length l)%nat
  /\ (l <> [] -> (1 <= length (sorted_set l))%nat).
Proof.
  induction l as [|x l [IH1 IH2]]; simpl; [split; [lia | congruence]|].
  pose proof (length_insert_uniq x (sorted_set l)) as Hi.
  split; [lia|]. intros _.
  destruct (insert_uniq x (sorted_set l)) as [|y r] eqn:He; [|simpl; lia].
  exfalso. assert (Hin : In x (insert_uniq x (sorted_set l)))
    by (apply In_insert_uniq; now left).
  rewrite He in Hin. contradiction.
Qed.

Section GroupSums.
Context {A : Type} (key : A -> Z) (w : A -> oQ).




End GroupSums.



Section SummaryAndDaily.
Context {E : Externals}.


End SummaryAndDaily.



(** ** The tables returned by [backtest] *)

Lemma descriptive_keep_columns (names : list string) (t : Tick) :
  descriptive (keep_columns names t) = descriptive t.
Proof.
  unfold descriptive, keep_columns. simpl. f_equal.
  transitivity (@nil (string * oQ)).
  - apply filter_none. reflexivity.
  - symmetry. apply filter_none. reflexivity.
Qed.

Lemma map_combine_fst {A B C : Type} (f : A -> C) (l : list A) (m : list B) :
  length m = length l ->
  map (fun ab => f (fst ab)) (combine l m) = map f l.
Proof.
  intros H. rewrite <- (map_fst_combine l m H) at 2. now rewrite map_map.
Qed.

Section DriverFacts.
Context {E : Externals}.

Lemma predict_checked_length (regr : LinearRegression) (rows : list (list oQ))
    (alpha : list Q) :
  predict_checked regr rows = Ok alpha -> length alpha = length rows.
Proof.
  unfold predict_checked. intros H.
  apply bind_Ok in H. destruct H as [x [Hx H]]. inversion H.
  unfold predict. rewrite length_map. now apply mapM_Ok_length in Hx.
Qed.

Lemma evaluate_day_rows (px : list Tick) (config : Config) (d : Z) (train : list Tick)
    (rows : list BtRow) (stats : FittingStats) :
  evaluate_day px config d train = Ok (rows, stats) ->
  map (fun r => descriptive (tick r)) rows
  = map descriptive (filter (fun r => date r =? d) px)
  /\ fs_date stats = d.
Proof.
  unfold evaluate_day. intros H.
  apply bind_Ok in H. destruct H as [features [_ H]].
  apply bind_Ok in H. destruct H as [[model st] [_ H]].
  apply bind_Ok in H. destruct H as [x_new [Hx H]].
  apply bind_Ok in H. destruct H as [y_cells [_ H]].
  apply bind_Ok in H. destruct H as [al [Hal H]].
  inversion H; subst. split; [|reflexivity].
  rewrite map_map. simpl.
  erewrite map_ext; [|intros ra; apply descriptive_keep_columns].
  apply map_combine_fst.
  apply predict_checked_length in Hal. rewrite Hal.
  unfold fillna_median. rewrite length_map.
  unfold select_columns in Hx. now apply mapM_Ok_length in Hx.
Qed.

Lemma backtest_loop_rows (px : list Tick) (config : Config) (dates days : list Z) :
  forall btdf0 fs0 btdf fs,
    backtest_loop px config dates days btdf0 fs0 = Ok (btdf, fs) ->
    exists ds,
      mapM (py_index dates) days = Ok ds
      /\ map (fun r => descriptive (tick r)) btdf
         = map (fun r => descriptive (tick r)) btdf0
           ++ map descriptive (flat_map (fun d => filter (fun r => date r =? d) px) ds)
      /\ map fs_date fs = map fs_date fs0 ++ ds.
Proof.
  induction days as [|i days IH]; intros btdf0 fs0 btdf fs H; simpl in H.
  - inversion H; subst. exists []. simpl. now rewrite !app_nil_r.
  - apply bind_Ok in H. destruct H as [[px_i stats] [Hday H]].
    unfold backtest_day in Hday.
    apply bind_Ok in Hday. destruct Hday as [d [Hd Hday]].
    apply bind_Ok in Hday. destruct Hday as [train [_ Hday]].
    apply evaluate_day_rows in Hday. destruct Hday as [Hrows Hfs].
    apply IH in H. destruct H as [ds [Hds [Hb Hf]]].
    exists (d :: ds). simpl. rewrite Hd, Hds. simpl. split; [reflexivity|]. split.
    + rewrite Hb, !map_app, Hrows, <- app_assoc. reflexivity.
    + rewrite Hf, map_app, <- app_assoc. simpl. now rewrite Hfs.
Qed.

Lemma backtest_rows (px : list Tick) (config : Config)
    (btdf : list BtRow) (fs : list FittingStats) :
  0 <= training_period config ->
  backtest px config = Ok (btdf, fs) ->
  map (fun r => descriptive (tick r)) btdf
  = map descriptive (evaluated_rows px config)
  /\ map fs_date fs
     = skipn (Z.to_nat (training_period config)) (sorted_set (map date px)).
Proof.
  intros Htp H. unfold backtest in H.
  apply backtest_loop_rows in H. destruct H as [ds [Hds [Hb Hf]]].
  rewrite (py_range_index _ _ Htp) in Hds. inversion Hds; subst ds.
  split; [exact Hb | exact Hf].
Qed.

(** X14: when [backtest] returns (training period not negative), the
    backtest table holds, with their descriptive columns unchanged and in
    this order, exactly the rows of [px] dated after the first
    training_period dates, date by date in ascending order; the
    fitting-stats table has one row for each of those dates, in ascending
    order. *)
Theorem backtest_tables (px : list Tick) (config : Config)
    (btdf : list BtRow) (fs : list FittingStats) :
  0 <= training_period config ->
  backtest px config = Ok (btdf, fs) ->
  map (fun r => descriptive (tick r)) btdf
  = map descriptive (evaluated_rows px config)
  /\ length btdf = length (evaluated_rows px config)
  /\ map fs_date fs
     = skipn (Z.to_nat (training_period config)) (sorted_set (map date px))
  /\ length fs
     = (length (sorted_set (map date px)) - Z.to_nat (training_period config))%nat
  /\ StronglySorted Z.lt (map fs_date fs).
Proof.
  intros Htp H. destruct (backtest_rows px config btdf fs Htp H) as [Hb Hf].
  split; [exact Hb|]. split; [|split; [exact Hf|split]].
  - apply (f_equal (@length Tick)) in Hb. now rewrite !length_map in Hb.
  - apply (f_equal (@length Z)) in Hf. now rewrite length_map, length_skipn in Hf.
  - rewrite Hf.
    pose proof (StronglySorted_sorted_set (map date px)) as Hs.
    rewrite <- (firstn_skipn (Z.to_nat (training_period config))
                             (sorted_set (map date px))) in Hs.
    apply StronglySorted_app_inv in Hs. tauto.
Qed.

End DriverFacts.

(** ** The backtest table is ordered for the position matcher *)

Lemma StronglySorted_map_iff {A B : Type} (R : B -> B -> Prop) (f : A -> B) (l : list A) :
  StronglySorted R (map f l) <-> StronglySorted (fun a b => R (f a) (f b)) l.
Proof.
  induction l as [|a l IH]; simpl.
  - split; constructor.
  - split; intros H; inversion H as [|? ? Hs Hall]; subst; constructor.
    + now apply IH.
    + rewrite Forall_forall in *. intros x Hx. apply Hall. now apply in_map.
    + now apply IH.
    + rewrite Forall_forall in *. intros y Hy.
      apply in_map_iff in Hy. destruct Hy as [x [<- Hx]]. now apply Hall.
Qed.

Lemma StronglySorted_app {A : Type} (R : A -> A -> Prop) (l m : list A) :
  StronglySorted R l -> StronglySorted R m ->
  (forall x y, In x l -> In y m -> R x y) ->
  StronglySorted R (l ++ m).
Proof.
  induction 1 as [|a l Hs IH Hall]; intros Hm Hlm; simpl; [exact Hm|].
  constructor.
  - apply IH; [exact Hm|]. intros x y Hx Hy. apply Hlm; [now right | exact Hy].
  - rewrite Forall_forall in *. intros x Hx. apply in_app_or in Hx.
    destruct Hx as [Hx | Hx]; [now apply Hall | apply Hlm; [now left | exact Hx]].
Qed.

Lemma StronglySorted_all {A : Type} (R : A -> A -> Prop) (l : list A) :
  (forall x y, In x l -> In y l -> R x y) -> StronglySorted R l.
Proof.
  induction l as [|a l IH]; intros H; constructor.
  - apply IH. intros x y Hx Hy. apply H; now right.
  - apply Forall_forall. intros x Hx. apply H; [now left | now right].
Qed.

Section ByDate.
Variable px : list Tick.
Variable R : Tick -> Tick -> Prop.
Hypothesis R_dates : forall a b, date a < date b -> R a b.
Hypothesis R_groups : forall d, StronglySorted R (filter (fun r => date r =? d) px).

Lemma groups_sorted (ds : list Z) :
  StronglySorted Z.lt ds ->
  StronglySorted R (flat_map (fun d => filter (fun r => date r =? d) px) ds).
Proof.
  induction 1 as [|d ds Hs IH Hall]; simpl; [constructor|].
  apply StronglySorted_app; [apply R_groups | exact IH |].
  intros x y Hx Hy. apply R_dates.
  apply filter_In in Hx. destruct Hx as [_ Hx]. apply Z.eqb_eq in Hx.
  apply in_flat_map in Hy. destruct Hy as [d' [Hd' Hy]].
  apply filter_In in Hy. destruct Hy as [_ Hy]. apply Z.eqb_eq in Hy.
  rewrite Forall_forall in Hall. specialize (Hall d' Hd'). lia.
Qed.

End ByDate.

Lemma filter_groups (px : list Tick) (d : Z) (ds : list Z) :
  NoDup ds ->
  filter (fun r => date r =? d)
         (flat_map (fun d' => filter (fun r => date r =? d') px) ds)
  = if existsb (Z.eqb d) ds then filter (fun r => date r =? d) px else [].
Proof.
  induction 1 as [|d' ds Hnin Hnd IH]; simpl; [reflexivity|].
  rewrite filter_app, IH.
  destruct (Z.eqb_spec d d') as [<-|Hne]; simpl.
  - rewrite filter_idem.
    replace (existsb (Z.eqb d) ds) with false; [now rewrite app_nil_r|].
    symmetry. apply not_true_is_false. intro Hex.
    apply existsb_exists in Hex. destruct Hex as [y [Hy Hye]].
    apply Z.eqb_eq in Hye. subst. contradiction.
  - rewrite filter_none; [reflexivity|].
    intros r Hr. apply filter_In in Hr. destruct Hr as [_ Hr].
    apply Z.eqb_eq in Hr. apply Z.eqb_neq. lia.
Qed.

Lemma filter_map_eq {A B C : Type} (f : A -> C) (g : B -> C) (q : C -> bool)
    (l1 : list A) (l2 : list B) :
  map f l1 = map g l2 ->
  map f (filter (fun a => q (f a)) l1) = map g (filter (fun b => q (g b)) l2).
Proof.
  revert l2. induction l1 as [|a l1 IH]; intros [|b l2] H; simpl in *;
    try reflexivity; try discriminate.
  inversion H as [[Hab Hl]]. rewrite Hab.
  destruct (q (g b)); simpl; [rewrite Hab; f_equal|]; now apply IH.
Qed.

Section OrderFacts.
Context {E : Externals}.

(** X15: when [backtest] evaluates at least one day and returns, its table
    is in ascending order of date whatever the order of [px]; if [px] is in
    (date, second) order, so is the table after [trade], and if the index
    labels of [px] grow along each date, so do those of the table. These are
    the orders under which the position matcher closes every trade as
    intended. *)
Theorem backtest_table_ordered (px : list Tick) (config : Config)
    (btdf : list BtRow) (fs : list FittingStats) :
  0 <= training_period config < Z.of_nat (length (sorted_set (map date px))) ->
  backtest px config = Ok (btdf, fs) ->
  key_sorted t_date (trade btdf config)
  /\ (StronglySorted tick_le px -> ordered_table (trade btdf config))
  /\ ((forall d, StronglySorted (fun a b => idx a < idx b)
                                (filter (fun r => date r =? d) px)) ->
      forall d, labels_increasing (rows_on d (trade btdf config))).
Proof.
  intros [Htp _] H. destruct (backtest_rows px config btdf fs Htp H) as [Hb _].
  pose proof (StronglySorted_sorted_set (map date px)) as Hss.
  rewrite <- (firstn_skipn (Z.to_nat (training_period config))) in Hss.
  apply StronglySorted_app_inv in Hss. destruct Hss as [_ [Hss _]].
  assert (Htransfer : forall R : Tick -> Tick -> Prop,
            StronglySorted R (map descriptive (evaluated_rows px config)) ->
            StronglySorted (fun a b => R (descriptive (tick (bt a)))
                                         (descriptive (tick (bt b))))
                           (trade btdf config)).
  { intros R HR. rewrite <- Hb in HR. unfold trade.
    apply StronglySorted_map_iff. simpl.
    now apply (StronglySorted_map_iff R (fun r => descriptive (tick r))). }
  split; [|split].
  - apply (Htransfer (fun a b => date a <= date b)).
    apply StronglySorted_map_iff. simpl.
    apply groups_sorted; [intros; lia | | exact Hss].
    intros d. apply StronglySorted_all. intros x y Hx Hy.
    apply filter_In in Hx, Hy. destruct Hx as [_ Hx], Hy as [_ Hy].
    apply Z.eqb_eq in Hx, Hy. lia.
  - intros Hpx. apply (Htransfer tick_le).
    apply StronglySorted_map_iff.
    apply (groups_sorted px (fun a b => tick_le (descriptive a) (descriptive b)));
      [intros a b Hab; now left | | exact Hss].
    intros d. now apply StronglySorted_filter.
  - intros Hlab d. unfold labels_increasing, rows_on.
    apply (StronglySorted_map_iff Z.lt t_idx).
    assert (Heq : map t_idx (filter (fun r => t_date r =? d) (trade btdf config))
                  = map idx (filter (fun r => date r =? d) (evaluated_rows px config))).
    { assert (Hm : map (fun r : TradeRow => descriptive (t_tick r)) (trade btdf config)
                   = map descriptive (evaluated_rows px config)).
      { rewrite <- Hb. unfold trade. rewrite map_map. reflexivity. }
      pose proof (filter_map_eq (fun r : TradeRow => descriptive (t_tick r)) descriptive
                    (fun t => date t =? d) _ _ Hm) as Hf.
      apply (f_equal (map idx)) in Hf. rewrite !map_map in Hf. exact Hf. }
    rewrite Heq. unfold evaluated_rows.
    rewrite filter_groups by now apply StronglySorted_lt_NoDup.
    destruct (existsb _ _); [|constructor].
    apply StronglySorted_map_iff. apply Hlab.
Qed.

End OrderFacts.

(** ** Too little history *)

Section ShortHistory.
Context {E : Externals}.

(** X16: when [px] has no more distinct dates than training_period (an
    empty [px] included), [backtest] evaluates no day: whatever the feature
    selector and the model fitter would do, it raises nothing and returns a
    backtest table and a fitting-stats table without rows. *)
Theorem short_history (px : list Tick) (config : Config) :
  Z.of_nat (length (sorted_set (map date px))) <= training_period config ->
  backtest px config = Ok ([], []).
Proof.
  intros Hshort. unfold backtest, py_range.
  replace (Z.to_nat (Z.of_nat (length (sorted_set (map date px)))
                     - training_period config)) with 0%nat by lia.
  reflexivity.
Qed.

End ShortHistory.

(** ** Feature selection *)

Lemma argmax_from_spec (s : list (string * oQ)) (k : string) (v : Q) :
  exists k' v',
    argmax_from (k, v) s = k'
    /\ (v <= v')%Q
    /\ ((k' = k /\ v' = v /\ forall x w, In (x, Some w) s -> (w <= v)%Q)
        \/ (exists pre post,
               s = pre ++ (k', Some v') :: post
               /\ (v < v')%Q
               /\ (forall x w, In (x, Some w) pre -> (w < v')%Q)
               /\ (forall x w, In (x, Some w) post -> (w <= v')%Q))).
Proof.
  revert k v. induction s as [|[x [w|]] s IH]; intros k v; simpl.
  - exists k, v. split; [reflexivity|]. split; [lra|]. left.
    repeat split. intros x w [].
  - destruct (Qltb v w) eqn:Hlt.
    + apply Qltb_lt in Hlt.
      destruct (IH x w) as (k' & v' & Hk & Hle & Hcase).
      exists k', v'. split; [exact Hk|]. split; [lra|]. right.
      destruct Hcase as [(-> & -> & Hall) | (pre & post & Hs & Hlt' & Hpre & Hpost)].
      * exists [], s. simpl. repeat split; auto. intros y u [].
      * exists ((x, Some w) :: pre), post. rewrite Hs. simpl.
        repeat split; auto; [lra|].
        intros y u [Hy | Hy]; [inversion Hy; subst; exact Hlt' | now apply (Hpre y)].
    + apply Qltb_false in Hlt.
      destruct (IH k v) as (k' & v' & Hk & Hle & Hcase).
      exists k', v'. split; [exact Hk|]. split; [exact Hle|].
      destruct Hcase as [(-> & -> & Hall) | (pre & post & Hs & Hlt' & Hpre & Hpost)].
      * left. repeat split.
        intros y u [Hy | Hy]; [inversion Hy; subst; lra | now apply (Hall y)].
      * right. exists ((x, Some w) :: pre), post. rewrite Hs. simpl.
        repeat split; auto.
        intros y u [Hy | Hy]; [inversion Hy; subst; lra | now apply (Hpre y)].
  - destruct (IH k v) as (k' & v' & Hk & Hle & Hcase).
    exists k', v'. split; [exact Hk|]. split; [exact Hle|].
    destruct Hcase as [(-> & -> & Hall) | (pre & post & Hs & Hlt' & Hpre & Hpost)].
    + left. repeat split.
      intros y u [Hy | Hy]; [discriminate | now apply (Hall y)].
    + right. exists ((x, None) :: pre), post. rewrite Hs. simpl.
      repeat split; auto.
      intros y u [Hy | Hy]; [discriminate | now apply (Hpre y)].
Qed.

Lemma series_argmax_cases (s : list (string * oQ)) :
  ((forall x w, ~ In (x, Some w) s) -> series_argmax s = Raise ValueError)
  /\ ((exists x w, In (x, Some w) s) ->
      exists k v pre post,
        series_argmax s = Ok k
        /\ s = pre ++ (k, Some v) :: post
        /\ (forall x w, In (x, Some w) pre -> (w < v)%Q)
        /\ (forall x w, In (x, Some w) post -> (w <= v)%Q)).
Proof.
  induction s as [|[x [w|]] s [IH1 IH2]]; simpl.
  - split; [reflexivity | intros (x & w & [])].
  - split; [intros H; exfalso; apply (H x w); now left|]. intros _.
    destruct (argmax_from_spec s x w) as (k' & v' & Hk & Hle & Hcase).
    destruct Hcase as [(-> & -> & Hall) | (pre & post & Hs & Hlt & Hpre & Hpost)].
    + exists x, w, [], s. rewrite Hk. simpl. repeat split; auto. intros y u [].
    + exists k', v', ((x, Some w) :: pre), post. rewrite Hk, Hs. simpl.
      repeat split; auto.
      intros y u [Hy | Hy]; [inversion Hy; subst; exact Hlt | now apply (Hpre y)].
  - split.
    + intros H. apply IH1. intros y u Hy. apply (H y u). now right.
    + intros (y & u & [Hy | Hy]); [discriminate|].
      destruct (IH2 (ex_intro _ y (ex_intro _ u Hy))) as (k & v & pre & post & Hk & Hs & Hpre & Hpost).
      exists k, v, ((x, None) :: pre), post. rewrite Hk, Hs. simpl.
      repeat split; auto.
      intros a b [Hab | Hab]; [discriminate | now apply (Hpre a)].
Qed.

(** X17: on a correlation row that holds a value, the column that
    [select_feature] picks with [argmax] is the label of the first entry
    with the largest value, missing entries skipped: every value before
    that entry is strictly smaller and no value after it is larger. On a
    tie the earlier column wins. *)
Theorem series_argmax_first_maximum (s : list (string * oQ)) :
  (exists x w, In (x, Some w) s) ->
  exists k v pre post,
    series_argmax s = Ok k
    /\ s = pre ++ (k, Some v) :: post
    /\ (forall x w, In (x, Some w) pre -> (w < v)%Q)
    /\ (forall x w, In (x, Some w) post -> (w <= v)%Q).
Proof. exact (proj2 (series_argmax_cases s)). Qed.

Lemma dict_get_KeyError {V : Type} (key : string) (d : list (string * V)) :
  (~ In key (map fst d) -> dict_get key d = Raise KeyError)
  /\ (In key (map fst d) -> exists v, dict_get key d = Ok v /\ In (key, v) d).
Proof.
  induction d as [|[k v] d [IH1 IH2]]; simpl.
  - split; [reflexivity | intros []].
  - destruct (String.eqb_spec k key) as [->|Hne].
    + split; [intros H; exfalso; apply H; now left | intros _; eauto].
    + split.
      * intros H. apply IH1. intros Hin. apply H. now right.
      * intros [He | Hin]; [contradiction|].
        destruct (IH2 Hin) as [w [Hw Hwin]]. eauto.
Qed.

Lemma mapM_Raise_In {A B : Type} (f : A -> Result B) (l : list A) (a : A) (e : exn) :
  In a l -> f a = Raise e -> exists e', mapM f l = Raise e'.
Proof.
  induction l as [|x l IH]; simpl; [intros []|].
  intros [-> | Hin] Hf.
  - rewrite Hf. simpl. eauto.
  - destruct (f x); simpl; [|eauto].
    destruct (IH Hin Hf) as [e' ->]. simpl. eauto.
Qed.


Section SelectorFacts.
Context {E : Externals}.


Lemma select_feature_missing_key (train : list Tick) (config : Config)
    (feature : string) :
  In feature (feature_column config) ->
  ~ In feature (map fst (feature_winsorize_prob config))
  \/ ~ In feature (map fst (feature_winsorize_bound config)) ->
  exists e, select_feature train config = Raise e.
Proof.
  intros Hin Hmiss. unfold select_feature.
  assert (Hraise : exists e,
    (xp <- dict_get feature (feature_winsorize_prob config) ;;
     xb <- dict_get feature (feature_winsorize_bound config) ;;
     corr_mat <- xy_corr train (feature_freq config) feature (response_column config)
                   (mkWinsorizeOption xp xb (response_winsorize_prob config)
                                      (response_winsorize_bound config)) ;;
     correlation <- dict_get (get_moving_column_name (response_column config) 0
                                  (holding_period config)) corr_mat ;;
     series_argmax correlation) = Raise e).
  { destruct Hmiss as [Hm | Hm].
    - rewrite (proj1 (dict_get_KeyError feature _) Hm). simpl. eauto.
    - destruct (dict_get feature (feature_winsorize_prob config)); simpl; [|eauto].
      rewrite (proj1 (dict_get_KeyError feature _) Hm). simpl. eauto. }
  destruct Hraise as [e He].
  exact (mapM_Raise_In _ _ feature e Hin He).
Qed.

(** X19: a predictor of feature_column without an entry in
    feature_winsorize_prob or feature_winsorize_bound makes
    [select_feature] raise on every training table, and [backtest] raise
    as soon as there is a day to evaluate, that is when training_period is
    not negative and smaller than the number of distinct dates. *)
Theorem missing_winsorize_entry (px : list Tick) (config : Config) (feature : string) :
  In feature (feature_column config) ->
  ~ In feature (map fst (feature_winsorize_prob config))
  \/ ~ In feature (map fst (feature_winsorize_bound config)) ->
  (forall train, exists e, select_feature train config = Raise e)
  /\ (0 <= training_period config < Z.of_nat (length (sorted_set (map date px))) ->
      exists e, backtest px config = Raise e).
Proof.
  intros Hin Hmiss. split.
  - intros train. now apply (select_feature_missing_key train config feature).
  - intros Htp. unfold backtest.
    set (dates := sorted_set (map date px)) in *.
    assert (Hday : exists e,
              backtest_day px config dates (training_period config) = Raise e).
    { unfold backtest_day, training_snapshot.
      rewrite (py_index_nat dates _ 0) by lia. simpl.
      rewrite (py_index_nat dates _ 0) by lia. simpl.
      unfold evaluate_day.
      destruct (select_feature_missing_key
                  (filter (fun r =>
                     (nth (Z.to_nat (training_period config
                                     - training_period config)) dates 0 <=? date r)
                     && (date r <? nth (Z.to_nat (training_period config)) dates 0)) px)
                  config feature Hin Hmiss) as [e ->].
      simpl. eauto. }
    destruct Hday as [e Hday].
    apply (backtest_loop_Raise px config dates _ (training_period config) e);
      [|exact Hday].
    apply In_py_range. lia.
Qed.

End SelectorFacts.

(** ** The regression table and the outcome of [fit] *)

Lemma all_present_forallb (row : list oQ) :
  match all_present row with
  | Some xs => forallb is_present row = true /\ map Some xs = row
  | None => forallb is_present row = false
  end.
Proof.
  induction row as [|[v|] row IH]; simpl; auto.
  destruct (all_present row) as [xs|]; simpl; [|exact IH].
  destruct IH as [Hf Hm]. split; [exact Hf | now rewrite Hm].
Qed.

Lemma dropna_filter (rows : list (list oQ)) :
  map (map Some) (dropna rows) = filter (forallb is_present) rows.
Proof.
  induction rows as [|row rows IH]; simpl; [reflexivity|].
  pose proof (all_present_forallb row) as H.
  destruct (all_present row) as [xs|].
  - destruct H as [Hf Hm]. rewrite Hf. simpl. now rewrite IH, Hm.
  - now rewrite H.
Qed.

Section FitOutcome.
Context {E : Externals}.

(** X20: the rows of the regression table are the training rows without a
    missing value in the selected features and the response: the design
    matrix of [fit] has one row for each of them and one column for each
    feature, and X'X is a square matrix of that many rows and columns. *)
Theorem regression_data_shape (train : list Tick) (features : list string)
    (config : Config) (x : Matrix) (y : list Q) :
  regression_data train features config = Ok (x, y) ->
  exists cells,
    select_columns
      (features ++ [get_moving_column_name (response_column config) 0
                                           (holding_period config)]) train
    = Ok cells
    /\ length cells = length train
    /\ length x = length (filter (forallb is_present) cells)
    /\ Forall (fun row => length row = length features) x
    /\ length (gram (length features) x) = length features
    /\ Forall (fun row => length row = length features) (gram (length features) x).
Proof.
  unfold regression_data. intros H.
  apply bind_Ok in H. destruct H as [cells [Hcells H]].
  apply bind_Ok in H. destruct H as [xcols [Hx H]].
  apply bind_Ok in H. destruct H as [y' [_ H]].
  inversion H; subst. clear H.
  exists cells. split; [exact Hcells|]. split.
  { unfold select_columns in Hcells. now apply mapM_Ok_length in Hcells. }
  apply mapM_Ok_length in Hx. unfold enumerate in Hx.
  rewrite length_combine, length_seq, Nat.min_id in Hx.
  split; [|split; [|split]].
  - rewrite length_map, length_seq, <- dropna_filter, length_map. reflexivity.
  - apply Forall_forall. intros row Hrow. apply in_map_iff in Hrow.
    destruct Hrow as [i [<- _]]. now rewrite length_map.
  - unfold gram, np_dot, transpose. now rewrite !length_map, length_seq.
  - apply Forall_forall. intros row Hrow. unfold gram, np_dot in Hrow.
    apply in_map_iff in Hrow. destruct Hrow as [r [<- _]].
    unfold transpose. now rewrite !length_map, length_seq.
Qed.

End FitOutcome.

(** ** A negative training period *)

Lemma py_index_In {A : Type} (l : list A) (i : Z) (a : A) :
  py_index l i = Ok a -> In a l.
Proof.
  unfold py_index. destruct (_ && _); [|discriminate].
  destruct (nth_error l _) as [b|] eqn:He; [|discriminate].
  intros H. inversion H; subst. eapply nth_error_In. exact He.
Qed.

Section NegativePeriod.
Context {E : Externals}.

Lemma evaluate_day_no_rows (px : list Tick) (config : Config) (d : Z) :
  exists e, evaluate_day px config d [] = Raise e.
Proof.
  unfold evaluate_day.
  destruct (select_feature [] config) as [features|e]; [|simpl; eauto].
  simpl.
  destruct (fit_fails_without_rows [] features config) as [e ->]; [|simpl; eauto].
  intros cells H. simpl in H. inversion H. reflexivity.
Qed.

(** X22: with a negative training_period [backtest] raises on every
    non-empty price table: the day at index 0 of the walk has either no
    start date to index or an empty training snapshot, on which selecting
    or fitting fails. *)
Theorem negative_training_period (px : list Tick) (config : Config) :
  training_period config < 0 ->
  px <> [] ->
  exists e, backtest px config = Raise e.
Proof.
  intros Htp Hpx. unfold backtest.
  set (dates := sorted_set (map date px)) in *.
  assert (Hlen : (1 <= length dates)%nat).
  { apply length_sorted_set. destruct px; [contradiction | discriminate]. }
  assert (Hday : exists e, backtest_day px config dates 0 = Raise e).
  { unfold backtest_day, training_snapshot.
    rewrite (py_index_nat dates 0 0) by lia. cbn [bind].
    destruct (py_index dates (0 - training_period config)) as [lo|e] eqn:Hlo;
      [|simpl; eauto].
    cbn [bind].
    assert (Hge : nth 0 dates 0 <= lo).
    { rewrite nth_hd_skipn. simpl.
      apply StronglySorted_hd_le; [apply StronglySorted_sorted_set|].
      now apply py_index_In in Hlo. }
    rewrite filter_none; [apply evaluate_day_no_rows|].
    intros r _. destruct (Z.leb_spec lo (date r)); simpl; [|reflexivity].
    apply Z.ltb_ge. lia. }
  destruct Hday as [e Hday].
  apply (backtest_loop_Raise px config dates _ 0 e); [|exact Hday].
  apply In_py_range. lia.
Qed.

End NegativePeriod.

(** ** Round trips at the quotes *)

(** X23: without [use_mid], a row of the priced table with a matched close
    tick earns, for a buy (trade = +1), the close tick's best bid minus its
    own best offer, and for a sell (trade = -1), its own best bid minus the
    close tick's best offer; either way the fee is the fee rate times the
    sum of the two prices traded at. So a round trip at unchanged quotes
    loses the spread. *)
Theorem round_trip_at_quotes (btdf : list TradeRow) (config : Config)
    (out : list PnlRow) (p : PnlRow) :
  use_mid config = false ->
  pnl btdf config = Ok out ->
  In p out ->
  p_trade p = 1 \/ p_trade p = -1 ->
  j_close (joined p) = None
  \/ exists t pn fee,
       In t btdf
       /\ t_date t = t_date (p_row p)
       /\ matched_close_second (j_open (joined p)) = Some (t_second t)
       /\ pnl_col p = Some pn
       /\ transaction_fee_col p = Some fee
       /\ (p_trade p = 1 ->
             pn == b1 (t_tick t) - s1 (t_tick (p_row p))
             /\ fee == transaction_fee config
                       * (s1 (t_tick (p_row p)) + b1 (t_tick t)))
       /\ (p_trade p = -1 ->
             pn == b1 (t_tick (p_row p)) - s1 (t_tick t)
             /\ fee == transaction_fee config
                       * (b1 (t_tick (p_row p)) + s1 (t_tick t)))
       /\ (b1 (t_tick t) == b1 (t_tick (p_row p)) ->
           s1 (t_tick t) == s1 (t_tick (p_row p)) ->
           pn == - (s1 (t_tick (p_row p)) - b1 (t_tick (p_row p)))).
Proof.
  intros Hmid Hout Hin Htr.
  destruct (pnl_row_shape btdf config out p Hout Hin)
    as (r & m & jc & mt & Hr & _ & _ & -> & Hjc).
  unfold p_trade, p_row in *. simpl in *.
  destruct jc as [c|]; [right | now left].
  destruct Hjc as (t & Ht & Hd & Hm & ->).
  unfold price_row, close_price_of, close_b1, close_s1, close_mid, open_price_of.
  simpl. rewrite Hmid.
  exists t. do 2 eexists.
  split; [exact Ht|]. split; [exact Hd|]. split; [exact Hm|].
  split; [reflexivity|]. split; [reflexivity|].
  destruct Htr as [Hone | Hone]; rewrite Hone; simpl;
    (split; [intros Heq; try discriminate; split; ring|]);
    (split; [intros Heq; try discriminate; split; ring|]);
    intros Hb Hs; rewrite ?Hb, ?Hs; ring.
Qed.

(** ** The position matcher works date by date *)

Lemma sorted_set_app (l1 l2 : list Z) :
  (forall a b, In a l1 -> In b l2 -> a < b) ->
  sorted_set (l1 ++ l2) = sorted_set l1 ++ sorted_set l2.
Proof.
  intros Hsep. apply sorted_unique.
  - apply StronglySorted_sorted_set.
  - apply StronglySorted_app; try apply StronglySorted_sorted_set.
    intros x y Hx Hy. apply Hsep.
    + exact (proj1 (In_sorted_set x l1) Hx).
    + exact (proj1 (In_sorted_set y l2) Hy).
  - intros x. rewrite In_sorted_set, !in_app_iff, !In_sorted_set. reflexivity.
Qed.

Lemma mapM_ext_In {A B : Type} (f g : A -> Result B) (l : list A) :
  (forall a, In a l -> f a = g a) -> mapM f l = mapM g l.
Proof.
  induction l as [|a l IH]; intros H; simpl; [reflexivity|].
  rewrite (H a (or_introl eq_refl)), IH; [reflexivity|].
  intros; apply H; now right.
Qed.

Lemma mapM_app {A B : Type} (f : A -> Result B) (l m : list A) :
  mapM f (l ++ m) = (a <- mapM f l ;; b <- mapM f m ;; Ok (a ++ b)).
Proof.
  induction l as [|x l IH]; simpl.
  - destruct (mapM f m); reflexivity.
  - destruct (f x) as [y|e]; simpl; [|reflexivity].
    rewrite IH. destruct (mapM f l) as [a|e]; simpl; [|reflexivity].
    destruct (mapM f m); reflexivity.
Qed.

Lemma rows_on_app_left (t1 t2 : list TradeRow) (d : Z) :
  (forall a b, In a t1 -> In b t2 -> t_date a < t_date b) ->
  In d (sorted_set (map t_date t1)) ->
  rows_on d (t1 ++ t2) = rows_on d t1.
Proof.
  intros Hsep Hd. unfold rows_on. rewrite filter_app.
  rewrite (filter_none _ t2); [apply app_nil_r|].
  intros b Hb. apply In_sorted_set, in_map_iff in Hd. destruct Hd as [a [<- Ha]].
  apply Z.eqb_neq. specialize (Hsep a b Ha Hb). lia.
Qed.

Lemma rows_on_app_right (t1 t2 : list TradeRow) (d : Z) :
  (forall a b, In a t1 -> In b t2 -> t_date a < t_date b) ->
  In d (sorted_set (map t_date t2)) ->
  rows_on d (t1 ++ t2) = rows_on d t2.
Proof.
  intros Hsep Hd. unfold rows_on. rewrite filter_app.
  rewrite (filter_none _ t1); [reflexivity|].
  intros a Ha. apply In_sorted_set, in_map_iff in Hd. destruct Hd as [b [<- Hb]].
  apply Z.eqb_neq. specialize (Hsep a b Ha Hb). lia.
Qed.

(** X24: the position matcher never looks across dates: when every row of
    one table is dated before every row of another, matching their
    concatenation gives, under either policy, the results for the first
    table followed by the results for the second. *)
Theorem matcher_by_date (t1 t2 : list TradeRow) (config : Config) :
  (forall a b, In a t1 -> In b t2 -> t_date a < t_date b) ->
  get_fixed_period_close_second (t1 ++ t2) config
  = get_fixed_period_close_second t1 config ++ get_fixed_period_close_second t2 config
  /\ get_dynamic_period_close_second (t1 ++ t2) config
     = (r1 <- get_dynamic_period_close_second t1 config ;;
        r2 <- get_dynamic_period_close_second t2 config ;;
        Ok (r1 ++ r2)).
Proof.
  intros Hsep.
  assert (Hdates : sorted_set (map t_date (t1 ++ t2))
                   = sorted_set (map t_date t1) ++ sorted_set (map t_date t2)).
  { rewrite map_app. apply sorted_set_app. intros x y Hx Hy.
    apply in_map_iff in Hx, Hy. destruct Hx as [a [<- Ha]], Hy as [b [<- Hb]].
    now apply Hsep. }
  split.
  - unfold get_fixed_period_close_second. rewrite Hdates, flat_map_app. f_equal.
    + apply flat_map_ext_In. intros d Hd. now rewrite rows_on_app_left.
    + apply flat_map_ext_In. intros d Hd. now rewrite rows_on_app_right.
  - unfold get_dynamic_period_close_second. rewrite Hdates, mapM_app.
    rewrite (mapM_ext_In (fun d => dynamic_day_close (rows_on d (t1 ++ t2)) config)
               (fun d => dynamic_day_close (rows_on d t1) config)
               (sorted_set (map t_date t1)))
      by (intros d Hd; now rewrite rows_on_app_left).
    rewrite (mapM_ext_In (fun d => dynamic_day_close (rows_on d (t1 ++ t2)) config)
               (fun d => dynamic_day_close (rows_on d t2) config)
               (sorted_set (map t_date t2)))
      by (intros d Hd; now rewrite rows_on_app_right).
    destruct (mapM _ (sorted_set (map t_date t1))) as [a|e]; simpl; [|reflexivity].
    destruct (mapM _ (sorted_set (map t_date t2))) as [b|e]; simpl; [|reflexivity].
    now rewrite concat_app.
Qed.

(** ** A repeated index label under the dynamic policy *)

(** X25: [get_dynamic_period_close_second] returns, with one entry per
    row, when no index label is repeated within a date, and raises
    ValueError as soon as some date has a repeated label: the lookup
    [bti.trade[i]] is then a Series, which has no truth value. Under
    dynamic unwinding [pnl] raises the same error; under the fixed-horizon
    policy it never looks a label up and returns whatever the labels. *)
Theorem repeated_label_raises (btdf : list TradeRow) (config : Config) :
  ((forall d, NoDup (map t_idx (rows_on d btdf))) ->
   exists res,
     get_dynamic_period_close_second btdf config = Ok res
     /\ length res = length btdf)
  /\ (forall d, ~ NoDup (map t_idx (rows_on d btdf)) ->
        get_dynamic_period_close_second btdf config = Raise ValueError
        /\ (dynamic_unwinding config = true -> pnl btdf config = Raise ValueError))
  /\ (dynamic_unwinding config = false -> exists out, pnl btdf config = Ok out).
Proof.
  split; [apply get_dynamic_period_close_second_total|]. split.
  - intros d Hd. split.
    + now apply (get_dynamic_period_close_second_repeated btdf config d).
    + intros Hdyn. now apply (pnl_repeated_label btdf config d).
  - intros Hfix. apply pnl_returns. intros Hdyn. congruence.
Qed.

(** * The further properties on the sample tables *)

Ltac distinct_keys :=
  repeat (apply NoDup_cons;
          [ let H := fresh "H" in
            intro H; cbv in H;
            repeat (destruct H as [H|H]; [discriminate H|]); exact H
          | ]);
  apply NoDup_nil.

Ltac nonnegative := unfold Qle; simpl; lia.

Lemma priced_is_pnl : pnl Sample.trades Sample.config3 = Ok Sample.priced.
Proof. vm_compute. reflexivity. Defined.

Lemma priced_dynamic_is_pnl :
  pnl Sample.trades Sample.config60 = Ok Sample2.priced_dynamic.
Proof. vm_compute. reflexivity. Defined.

Lemma fixed_close_second_is_a_tick_witness :
  In 34250 (get_fixed_period_close_second Sample.trades Sample.config60)
  /\ exists d c,
       In d (map t_date Sample.trades) /\ In c Sample.trades
       /\ t_date c = d /\ t_second c = 34250.
Proof.
  assert (H : In 34250 (get_fixed_period_close_second Sample.trades Sample.config60))
    by (vm_compute; left; reflexivity).
  split; [exact H|].
  exact (fixed_close_second_is_a_tick Sample.trades Sample.config60 34250 H).
Defined.

Lemma fixed_close_not_before_open_witness :
  ordered_table Sample.trades
  /\ 0 <= holding_period Sample.config60
  /\ Forall2 (fun r m => t_second r <= m) Sample.trades
             (get_fixed_period_close_second Sample.trades Sample.config60).
Proof.
  assert (Hh : 0 <= holding_period Sample.config60) by (simpl; lia).
  split; [exact trades_ordered|]. split; [exact Hh|].
  exact (fixed_close_not_before_open Sample.trades Sample.config60 trades_ordered Hh).
Defined.

Lemma dynamic_hold_label_witness :
  NoDup (map t_idx Sample2.day1)
  /\ In 0 (map t_idx Sample2.day1)
  /\ exists c,
       dynamic_hold Sample2.day1 Sample.config60 0 = Ok c
       /\ In c (map t_idx Sample2.day1).
Proof.
  assert (Hn : NoDup (map t_idx Sample2.day1)) by (vm_compute; distinct_keys).
  assert (H : In 0 (map t_idx Sample2.day1)) by (vm_compute; left; reflexivity).
  split; [exact Hn|]. split; [exact H|].
  exact (proj2 (dynamic_hold_label Sample2.day1 Sample.config60 0) Hn H).
Defined.

Lemma dynamic_hold_not_before_open_witness :
  labels_increasing Sample2.day1
  /\ dynamic_hold Sample2.day1 Sample.config60 0 = Ok 2
  /\ 0 <= 2.
Proof.
  assert (Hl : labels_increasing Sample2.day1) by exact (trades_labels_increasing 1).
  assert (Hc : dynamic_hold Sample2.day1 Sample.config60 0 = Ok 2)
    by (vm_compute; reflexivity).
  split; [exact Hl|]. split; [exact Hc|].
  exact (dynamic_hold_not_before_open Sample2.day1 Sample.config60 0 2 Hl Hc).
Defined.

Lemma dynamic_close_not_before_open_witness :
  ordered_table Sample.trades
  /\ (forall d, labels_increasing (rows_on d Sample.trades))
  /\ exists res,
       get_dynamic_period_close_second Sample.trades Sample.config60 = Ok res
       /\ Forall2 (fun r m =>
                     match m with
                     | Some s => trade_ r <> 0 /\ t_second r <= s
                     | None => trade_ r = 0
                     end)
                  Sample.trades res.
Proof.
  split; [exact trades_ordered|]. split; [exact trades_labels_increasing|].
  exact (dynamic_close_not_before_open Sample.trades Sample.config60
           trades_ordered trades_labels_increasing).
Defined.

Lemma pnl_rows_witness :
  NoDup (map join_key Sample.trades)
  /\ exists out,
       pnl Sample.trades Sample.config3 = Ok out
       /\ map p_row out = Sample.trades.
Proof.
  assert (Hk : NoDup (map join_key Sample.trades))
    by (unfold Sample.trades; cbn [map]; distinct_keys).
  split; [exact Hk|].
  exists Sample.priced. split; [exact priced_is_pnl|].
  exact (proj2 (pnl_rows Sample.trades Sample.config3 Sample.priced priced_is_pnl) Hk).
Defined.

Lemma untraded_rows_witness :
  dynamic_unwinding Sample.config60 = true
  /\ ordered_table Sample.trades
  /\ (forall d, labels_increasing (rows_on d Sample.trades))
  /\ exists out,
       pnl Sample.trades Sample.config60 = Ok out
       /\ forall p, In p out -> p_trade p = 0 ->
            matched_close_second (j_open (joined p)) = None
            /\ close_price p = None /\ pnl_col p = None /\ net_pnl p = None.
Proof.
  split; [reflexivity|]. split; [exact trades_ordered|].
  split; [exact trades_labels_increasing|].
  exists Sample2.priced_dynamic. split; [exact priced_dynamic_is_pnl|].
  exact (proj2 (untraded_rows Sample.trades Sample.config60 Sample2.priced_dynamic
                  priced_dynamic_is_pnl)
           eq_refl trades_ordered trades_labels_increasing).
Defined.

Lemma fee_never_negative_witness :
  (0 <= transaction_fee Sample.config3)%Q
  /\ (forall r, In r Sample.trades ->
        (0 <= b1 (t_tick r))%Q /\ (0 <= s1 (t_tick r))%Q /\ (0 <= t_mid r)%Q)
  /\ forall p, In p Sample.priced ->
       match transaction_fee_col p, pnl_col p, net_pnl p with
       | Some fee, Some pn, Some net => (0 <= fee)%Q /\ (net <= pn)%Q
       | None, None, None => close_price p = None
       | _, _, _ => False
       end.
Proof.
  assert (Hfee : (0 <= transaction_fee Sample.config3)%Q) by nonnegative.
  assert (Hq : forall r, In r Sample.trades ->
             (0 <= b1 (t_tick r))%Q /\ (0 <= s1 (t_tick r))%Q /\ (0 <= t_mid r)%Q).
  { intros r Hr. unfold Sample.trades in Hr. cbn [In] in Hr.
    repeat (destruct Hr as [<-|Hr]; [repeat split; nonnegative|]).
    destruct Hr. }
  split; [exact Hfee|]. split; [exact Hq|].
  intros p Hp.
  exact (fee_never_negative Sample.trades Sample.config3 Sample.priced p
           Hfee Hq priced_is_pnl Hp).
Defined.

Lemma summary_rates_witness :
  exists s,
    summary (E := Exact.externals) Sample.priced Sample.config3 = Ok s
    /\ (0 <= winning_rate s <= 1)%Q
    /\ (winning_rate s + losing_rate s <= 1)%Q.
Proof.
  assert (H : exists s,
             summary (E := Exact.externals) Sample.priced Sample.config3 = Ok s)
    by (eexists; vm_compute; reflexivity).
  destruct H as [s H]. exists s. split; [exact H|].
  destruct (summary_rates (E := Exact.externals) Sample.priced Sample.config3 s H)
    as (Hw & _ & _ & _ & Hsum & _).
  split; [exact Hw | exact Hsum].
Defined.



Lemma backtest_tables_witness :
  0 <= training_period Sample.config3
  /\ exists btdf fs,
       backtest (E := Exact.externals) Sample.px3 Sample.config3 = Ok (btdf, fs)
       /\ map (fun r => descriptive (tick r)) btdf
          = map descriptive (evaluated_rows Sample.px3 Sample.config3)
       /\ map fs_date fs = [3].
Proof.
  assert (Htp : 0 <= training_period Sample.config3) by (simpl; lia).
  split; [exact Htp|].
  assert (H : exists res,
             backtest (E := Exact.externals) Sample.px3 Sample.config3 = Ok res)
    by (eexists; vm_compute; reflexivity).
  destruct H as [[btdf fs] H]. exists btdf, fs. split; [exact H|].
  destruct (backtest_tables (E := Exact.externals) Sample.px3 Sample.config3
              btdf fs Htp H) as (Hrows & _ & Hdates & _).
  split; [exact Hrows|]. exact Hdates.
Defined.

Lemma px3_ordered : StronglySorted tick_le Sample.px3.
Proof. unfold Sample.px3. sorted_rows. Defined.

Lemma backtest_table_ordered_witness :
  0 <= training_period Sample.config3
    < Z.of_nat (length (sorted_set (map date Sample.px3)))
  /\ StronglySorted tick_le Sample.px3
  /\ exists btdf fs,
       backtest (E := Exact.externals) Sample.px3 Sample.config3 = Ok (btdf, fs)
       /\ ordered_table (trade btdf Sample.config3).
Proof.
  assert (Htp : 0 <= training_period Sample.config3
                < Z.of_nat (length (sorted_set (map date Sample.px3))))
    by (vm_compute; split; [discriminate | reflexivity]).
  split; [exact Htp|]. split; [exact px3_ordered|].
  assert (H : exists res,
             backtest (E := Exact.externals) Sample.px3 Sample.config3 = Ok res)
    by (eexists; vm_compute; reflexivity).
  destruct H as [[btdf fs] H]. exists btdf, fs. split; [exact H|].
  destruct (backtest_table_ordered (E := Exact.externals) Sample.px3 Sample.config3
              btdf fs Htp H) as (_ & Hord & _).
  exact (Hord px3_ordered).
Defined.

Lemma short_history_witness :
  Z.of_nat (length (sorted_set (map date Sample.px3)))
  <= training_period (Sample2.with_training_period 3)
  /\ backtest (E := Exact.externals) Sample.px3 (Sample2.with_training_period 3)
     = Ok ([], []).
Proof.
  assert (H : Z.of_nat (length (sorted_set (map date Sample.px3)))
              <= training_period (Sample2.with_training_period 3))
    by (vm_compute; discriminate).
  split; [exact H|].
  exact (short_history (E := Exact.externals) Sample.px3
           (Sample2.with_training_period 3) H).
Defined.

Lemma series_argmax_first_maximum_witness :
  (exists x w, In (x, Some w) Sample2.correlations)
  /\ exists k v pre post,
       series_argmax Sample2.correlations = Ok k
       /\ Sample2.correlations = pre ++ (k, Some v) :: post
       /\ (forall x w, In (x, Some w) pre -> (w < v)%Q)
       /\ (forall x w, In (x, Some w) post -> (w <= v)%Q).
Proof.
  assert (H : exists x w, In (x, Some w) Sample2.correlations)
    by (exists "ofi_5_0"%string, 0.2%Q; right; left; reflexivity).
  split; [exact H|].
  exact (series_argmax_first_maximum Sample2.correlations H).
Defined.

(** On a tie the first of the largest values wins, and a missing value is
    skipped. *)
Example series_argmax_on_a_tie :
  series_argmax Sample2.correlations = Ok "ofi_10_0"%string.
Proof. vm_compute. reflexivity. Qed.


Lemma missing_winsorize_entry_witness :
  In "oir"%string (feature_column Sample2.config_missing)
  /\ ~ In "oir"%string (map fst (feature_winsorize_bound Sample2.config_missing))
  /\ (forall train, exists e,
        select_feature (E := Exact.externals) train Sample2.config_missing = Raise e)
  /\ exists e,
       backtest (E := Exact.externals) Sample.px3 Sample2.config_missing = Raise e.
Proof.
  assert (Hin : In "oir"%string (feature_column Sample2.config_missing))
    by (right; left; reflexivity).
  assert (Hno : ~ In "oir"%string
                  (map fst (feature_winsorize_bound Sample2.config_missing))).
  { intro H. cbv in H. destruct H as [H|H]; [discriminate H | exact H]. }
  split; [exact Hin|]. split; [exact Hno|].
  destruct (missing_winsorize_entry (E := Exact.externals) Sample.px3
              Sample2.config_missing "oir"%string Hin (or_intror Hno)) as [Hsel Hbt].
  split; [exact Hsel|]. apply Hbt. vm_compute. split; [discriminate | reflexivity].
Defined.

Lemma regression_data_shape_witness :
  exists train x y,
    training_snapshot Sample.px3 Sample.config3 [1; 2; 3] 2 = Ok train
    /\ regression_data (E := Exact.externals) train ["ofi_5_0"%string] Sample.config3
       = Ok (x, y)
    /\ Forall (fun row => length row = 1%nat) x
    /\ length (gram 1 x) = 1%nat.
Proof.
  assert (Ht : exists train,
             training_snapshot Sample.px3 Sample.config3 [1; 2; 3] 2 = Ok train)
    by (eexists; vm_compute; reflexivity).
  destruct Ht as [train Ht].
  assert (Hd : exists xy,
             (train <- training_snapshot Sample.px3 Sample.config3 [1; 2; 3] 2 ;;
              regression_data (E := Exact.externals) train ["ofi_5_0"%string]
                Sample.config3)
             = Ok xy)
    by (eexists; vm_compute; reflexivity).
  destruct Hd as [[x y] Hd]. rewrite Ht in Hd. cbn [bind] in Hd.
  exists train, x, y. split; [exact Ht|]. split; [exact Hd|].
  destruct (regression_data_shape (E := Exact.externals) train ["ofi_5_0"%string]
              Sample.config3 x y Hd) as (cells & _ & _ & _ & Hcols & Hg & _).
  split; [exact Hcols | exact Hg].
Defined.

Lemma negative_training_period_witness :
  training_period (Sample2.with_training_period (-1)) < 0
  /\ Sample.px3 <> []
  /\ exists e,
       backtest (E := Exact.externals) Sample.px3 (Sample2.with_training_period (-1))
       = Raise e.
Proof.
  assert (Htp : training_period (Sample2.with_training_period (-1)) < 0)
    by (simpl; lia).
  assert (Hpx : Sample.px3 <> []) by discriminate.
  split; [exact Htp|]. split; [exact Hpx|].
  exact (negative_training_period (E := Exact.externals) Sample.px3
           (Sample2.with_training_period (-1)) Htp Hpx).
Defined.

Lemma round_trip_at_quotes_witness :
  use_mid Sample.config3 = false
  /\ forall p, In p Sample.priced -> p_trade p = 1 \/ p_trade p = -1 ->
       j_close (joined p) = None
       \/ exists t pn,
            In t Sample.trades
            /\ matched_close_second (j_open (joined p)) = Some (t_second t)
            /\ pnl_col p = Some pn
            /\ (p_trade p = 1 -> pn == b1 (t_tick t) - s1 (t_tick (p_row p))).
Proof.
  split; [reflexivity|]. intros p Hp Ht.
  destruct (round_trip_at_quotes Sample.trades Sample.config3 Sample.priced p
              eq_refl priced_is_pnl Hp Ht)
    as [Hnone | (t & pn & fee & Hin & _ & Hm & Hpn & _ & Hbuy & _)].
  - left. exact Hnone.
  - right. exists t, pn. split; [exact Hin|]. split; [exact Hm|].
    split; [exact Hpn|]. intro H1. exact (proj1 (Hbuy H1)).
Defined.

Lemma matcher_by_date_witness :
  (forall a b, In a Sample2.day1 -> In b Sample2.day2 -> t_date a < t_date b)
  /\ get_fixed_period_close_second (Sample2.day1 ++ Sample2.day2) Sample.config60
     = get_fixed_period_close_second Sample2.day1 Sample.config60
       ++ get_fixed_period_close_second Sample2.day2 Sample.config60.
Proof.
  assert (H : forall a b, In a Sample2.day1 -> In b Sample2.day2 ->
                          t_date a < t_date b).
  { intros a b Ha Hb. unfold Sample2.day1, Sample2.day2, rows_on in Ha, Hb.
    apply filter_In in Ha, Hb. destruct Ha as [_ Ha], Hb as [_ Hb].
    apply Z.eqb_eq in Ha, Hb. lia. }
  split; [exact H|].
  exact (proj1 (matcher_by_date Sample2.day1 Sample2.day2 Sample.config60 H)).
Defined.

Lemma repeated_label_raises_witness :
  ~ NoDup (map t_idx (rows_on 1 Sample2.relabelled))
  /\ dynamic_unwinding Sample.config60 = true
  /\ get_dynamic_period_close_second Sample2.relabelled Sample.config60
     = Raise ValueError
  /\ pnl Sample2.relabelled Sample.config60 = Raise ValueError
  /\ exists out, pnl Sample2.relabelled Sample.config3 = Ok out.
Proof.
  assert (Hd : ~ NoDup (map t_idx (rows_on 1 Sample2.relabelled))).
  { intros H. vm_compute in H. inversion H as [|? ? Hnot _]. apply Hnot. now left. }
  split; [exact Hd|]. split; [reflexivity|].
  destruct (repeated_label_raises Sample2.relabelled Sample.config60) as (_ & Hr & _).
  destruct (Hr 1 Hd) as [Hm Hp].
  split; [exact Hm|]. split; [exact (Hp eq_refl)|].
  exact (proj2 (proj2 (repeated_label_raises Sample2.relabelled Sample.config3))
           eq_refl).
Defined.
